(** * Cogni-CAD viewer: the scene-interaction core

    A shallow embedding of the measurement store ([store/uiStore.js]), of the
    3D viewer ([components/ThreeCanvas.jsx], and the measurement code of its
    revision [src/unnamed/part_001]) and of the orientation cube
    ([components/OrientationCube.jsx]), with the properties of the
    specification stated over it.

    JavaScript numbers are idealised as real numbers: every arithmetic
    operation is the exact one (no rounding, no NaN, no infinities).  Where
    the source starts a running minimum at [Infinity], the model uses an
    [option] whose [None] stands for it.  The one place where rounding decides
    a branch, the area test of the diameter label, is embedded a second time
    in binary64 arithmetic ([Binary64]). *)

From Stdlib Require Import Floats.
From Stdlib Require Import Reals Lra Psatz List String ZArith Bool DecimalString.
From Stdlib Require Import Machin Factorial.
From stdpp Require Import gmap strings.
Import ListNotations.

Open Scope R_scope.

(** ** The part of three.js the viewer calls

    Vectors, quaternions, 4x4 matrices, segments and boxes, each operation
    with the arithmetic three.js performs. *)
Module THREE.

Record Vector3 : Type := mkVector3 { x : R; y : R; z : R }.

Definition add (a b : Vector3) : Vector3 :=
  mkVector3 (x a + x b) (y a + y b) (z a + z b).

Definition subVectors (a b : Vector3) : Vector3 :=
  mkVector3 (x a - x b) (y a - y b) (z a - z b).

Definition multiplyScalar (v : Vector3) (s : R) : Vector3 :=
  mkVector3 (x v * s) (y v * s) (z v * s).

(** [divideScalar(s)] is [multiplyScalar(1 / s)]. *)
Definition divideScalar (v : Vector3) (s : R) : Vector3 :=
  multiplyScalar v (1 / s).

Definition dot (a b : Vector3) : R := x a * x b + y a * y b + z a * z b.

Definition cross (a b : Vector3) : Vector3 :=
  mkVector3 (y a * z b - z a * y b) (z a * x b - x a * z b) (x a * y b - y a * x b).

Definition lengthSq (v : Vector3) : R := x v * x v + y v * y v + z v * z v.

Definition length (v : Vector3) : R := sqrt (lengthSq v).

Definition distanceToSquared (a b : Vector3) : R :=
  let dx := x a - x b in
  let dy := y a - y b in
  let dz := z a - z b in
  dx * dx + dy * dy + dz * dz.

Definition distanceTo (a b : Vector3) : R := sqrt (distanceToSquared a b).

(** [normalize()] is [divideScalar(length() || 1)]. *)
Definition normalize (v : Vector3) : Vector3 :=
  divideScalar v (if Req_dec_T (length v) 0 then 1 else length v).

(** [a.lerp(b, alpha)]: each coordinate moves by [alpha] of its gap to [b]. *)
Definition lerp (a b : Vector3) (alpha : R) : Vector3 :=
  mkVector3 (x a + (x b - x a) * alpha)
            (y a + (y b - y a) * alpha)
            (z a + (z b - z a) * alpha).

Record Quaternion : Type := mkQuaternion { qx : R; qy : R; qz : R; qw : R }.

(** [new THREE.Quaternion()] *)
Definition identityQuaternion : Quaternion := mkQuaternion 0 0 0 1.

(** [invert()] is the conjugate: the quaternion is assumed of unit length. *)
Definition invert (q : Quaternion) : Quaternion :=
  mkQuaternion (- qx q) (- qy q) (- qz q) (qw q).

Definition applyQuaternion (v : Vector3) (q : Quaternion) : Vector3 :=
  let tx := 2 * (qy q * z v - qz q * y v) in
  let ty := 2 * (qz q * x v - qx q * z v) in
  let tz := 2 * (qx q * y v - qy q * x v) in
  mkVector3 (x v + qw q * tx + qy q * tz - qz q * ty)
            (y v + qw q * ty + qz q * tx - qx q * tz)
            (z v + qw q * tz + qx q * ty - qy q * tx).

(** Column-major [elements] of a [Matrix4]: [e0 .. e15]. *)
Record Matrix4 : Type := mkMatrix4 {
  e0 : R; e1 : R; e2 : R; e3 : R;
  e4 : R; e5 : R; e6 : R; e7 : R;
  e8 : R; e9 : R; e10 : R; e11 : R;
  e12 : R; e13 : R; e14 : R; e15 : R }.

Definition applyMatrix4 (v : Vector3) (m : Matrix4) : Vector3 :=
  let w := 1 / (e3 m * x v + e7 m * y v + e11 m * z v + e15 m) in
  mkVector3 ((e0 m * x v + e4 m * y v + e8 m * z v + e12 m) * w)
            ((e1 m * x v + e5 m * y v + e9 m * z v + e13 m) * w)
            ((e2 m * x v + e6 m * y v + e10 m * z v + e14 m) * w).

(** [makeTranslation(tx, ty, tz)] *)
Definition makeTranslation (tx ty tz : R) : Matrix4 :=
  mkMatrix4 1 0 0 0  0 1 0 0  0 0 1 0  tx ty tz 1.

(** [Matrix4.determinant] with the cofactors [invert] uses. *)
Definition determinant (m : Matrix4) : R :=
  let n11 := e0 m in let n21 := e1 m in let n31 := e2 m in let n41 := e3 m in
  let n12 := e4 m in let n22 := e5 m in let n32 := e6 m in let n42 := e7 m in
  let n13 := e8 m in let n23 := e9 m in let n33 := e10 m in let n43 := e11 m in
  let n14 := e12 m in let n24 := e13 m in let n34 := e14 m in let n44 := e15 m in
  let t11 := n23 * n34 * n42 - n24 * n33 * n42 + n24 * n32 * n43
             - n22 * n34 * n43 - n23 * n32 * n44 + n22 * n33 * n44 in
  let t12 := n14 * n33 * n42 - n13 * n34 * n42 - n14 * n32 * n43
             + n12 * n34 * n43 + n13 * n32 * n44 - n12 * n33 * n44 in
  let t13 := n13 * n24 * n42 - n14 * n23 * n42 + n14 * n22 * n43
             - n12 * n24 * n43 - n13 * n22 * n44 + n12 * n23 * n44 in
  let t14 := n14 * n23 * n32 - n13 * n24 * n32 - n14 * n22 * n33
             + n12 * n24 * n33 + n13 * n22 * n34 - n12 * n23 * n34 in
  n11 * t11 + n21 * t12 + n31 * t13 + n41 * t14.

(** [Matrix4.invert()]: the adjugate over the determinant, and the zero
    matrix when the determinant is 0. *)
Definition invertMatrix4 (m : Matrix4) : Matrix4 :=
  let n11 := e0 m in let n21 := e1 m in let n31 := e2 m in let n41 := e3 m in
  let n12 := e4 m in let n22 := e5 m in let n32 := e6 m in let n42 := e7 m in
  let n13 := e8 m in let n23 := e9 m in let n33 := e10 m in let n43 := e11 m in
  let n14 := e12 m in let n24 := e13 m in let n34 := e14 m in let n44 := e15 m in
  let t11 := n23 * n34 * n42 - n24 * n33 * n42 + n24 * n32 * n43
             - n22 * n34 * n43 - n23 * n32 * n44 + n22 * n33 * n44 in
  let t12 := n14 * n33 * n42 - n13 * n34 * n42 - n14 * n32 * n43
             + n12 * n34 * n43 + n13 * n32 * n44 - n12 * n33 * n44 in
  let t13 := n13 * n24 * n42 - n14 * n23 * n42 + n14 * n22 * n43
             - n12 * n24 * n43 - n13 * n22 * n44 + n12 * n23 * n44 in
  let t14 := n14 * n23 * n32 - n13 * n24 * n32 - n14 * n22 * n33
             + n12 * n24 * n33 + n13 * n22 * n34 - n12 * n23 * n34 in
  let det := n11 * t11 + n21 * t12 + n31 * t13 + n41 * t14 in
  if Req_EM_T det 0 then mkMatrix4 0 0 0 0  0 0 0 0  0 0 0 0  0 0 0 0
  else
    let detInv := 1 / det in
    mkMatrix4
      (t11 * detInv)
      ((n24 * n33 * n41 - n23 * n34 * n41 - n24 * n31 * n43
        + n21 * n34 * n43 + n23 * n31 * n44 - n21 * n33 * n44) * detInv)
      ((n22 * n34 * n41 - n24 * n32 * n41 + n24 * n31 * n42
        - n21 * n34 * n42 - n22 * n31 * n44 + n21 * n32 * n44) * detInv)
      ((n23 * n32 * n41 - n22 * n33 * n41 - n23 * n31 * n42
        + n21 * n33 * n42 + n22 * n31 * n43 - n21 * n32 * n43) * detInv)
      (t12 * detInv)
      ((n13 * n34 * n41 - n14 * n33 * n41 + n14 * n31 * n43
        - n11 * n34 * n43 - n13 * n31 * n44 + n11 * n33 * n44) * detInv)
      ((n14 * n32 * n41 - n12 * n34 * n41 - n14 * n31 * n42
        + n11 * n34 * n42 + n12 * n31 * n44 - n11 * n32 * n44) * detInv)
      ((n12 * n33 * n41 - n13 * n32 * n41 + n13 * n31 * n42
        - n11 * n33 * n42 - n12 * n31 * n43 + n11 * n32 * n43) * detInv)
      (t13 * detInv)
      ((n14 * n23 * n41 - n13 * n24 * n41 - n14 * n21 * n43
        + n11 * n24 * n43 + n13 * n21 * n44 - n11 * n23 * n44) * detInv)
      ((n12 * n24 * n41 - n14 * n22 * n41 + n14 * n21 * n42
        - n11 * n24 * n42 - n12 * n21 * n44 + n11 * n22 * n44) * detInv)
      ((n13 * n22 * n41 - n12 * n23 * n41 - n13 * n21 * n42
        + n11 * n23 * n42 + n12 * n21 * n43 - n11 * n22 * n43) * detInv)
      (t14 * detInv)
      ((n13 * n24 * n31 - n14 * n23 * n31 + n14 * n21 * n33
        - n11 * n24 * n33 - n13 * n21 * n34 + n11 * n23 * n34) * detInv)
      ((n14 * n22 * n31 - n12 * n24 * n31 - n14 * n21 * n32
        + n11 * n24 * n32 + n12 * n21 * n34 - n11 * n22 * n34) * detInv)
      ((n12 * n23 * n31 - n13 * n22 * n31 + n13 * n21 * n32
        - n11 * n23 * n32 - n12 * n21 * n33 + n11 * n22 * n33) * detInv).

Definition clamp (value lo hi : R) : R := Rmax lo (Rmin hi value).

(** [new THREE.Line3(start, end).closestPointToPoint(point, true, target)] *)
Definition closestPointToPointParameter (start end_ point : Vector3) (clampToLine : bool) : R :=
  let startP := subVectors point start in
  let startEnd := subVectors end_ start in
  let startEnd2 := dot startEnd startEnd in
  let startEnd_startP := dot startEnd startP in
  let t := startEnd_startP / startEnd2 in
  if clampToLine then clamp t 0 1 else t.

Definition closestPointToPoint (start end_ point : Vector3) (clampToLine : bool) : Vector3 :=
  let t := closestPointToPointParameter start end_ point clampToLine in
  add (multiplyScalar (subVectors end_ start) t) start.

Record Box3 : Type := mkBox3 { bmin : Vector3; bmax : Vector3 }.

Definition isEmpty (b : Box3) : bool :=
  if Rlt_dec (x (bmax b)) (x (bmin b)) then true
  else if Rlt_dec (y (bmax b)) (y (bmin b)) then true
  else if Rlt_dec (z (bmax b)) (z (bmin b)) then true
  else false.

Definition getCenter (b : Box3) : Vector3 :=
  if isEmpty b then mkVector3 0 0 0
  else multiplyScalar (add (bmin b) (bmax b)) (1 / 2).

Definition getSize (b : Box3) : Vector3 :=
  if isEmpty b then mkVector3 0 0 0 else subVectors (bmax b) (bmin b).

(** [Euler] angles of [Object3D.rotation]. *)
Record Euler : Type := mkEuler { ex : R; ey : R; ez : R }.

Record Color : Type := mkColor { r : R; g : R; b : R }.

Inductive Side : Type := FrontSide | BackSide | DoubleSide.

End THREE.

(** ** [store/uiStore.js]: the measurement slice of the store *)
Module UIStore.

(** What [handleClick] hands to [addMeasurePoint]: [{ point, normal }]. *)
Record MeasurePoint : Type := mkMeasurePoint {
  point : THREE.Vector3;
  normal : option THREE.Vector3 }.

Record State : Type := mkState {
  measureMode : bool;
  measurePoints : list MeasurePoint;
  colorMode : bool;
  explodeMode : bool;
  requestedView : option string }.

(** The initial object passed to [create]. *)
Definition initial : State :=
  {| measureMode := false; measurePoints := [];
     colorMode := false; explodeMode := false; requestedView := None |}.

(** [setMeasureMode: (active) => set({ measureMode: active, measurePoints: [] })] *)
Definition setMeasureMode (active : bool) (state : State) : State :=
  {| measureMode := active; measurePoints := [];
     colorMode := colorMode state; explodeMode := explodeMode state;
     requestedView := requestedView state |}.

Definition addMeasurePoint (pt : MeasurePoint) (state : State) : State :=
  let newPoints :=
    if (2 <=? List.length (measurePoints state))%nat then [pt]
    else measurePoints state ++ [pt] in
  {| measureMode := measureMode state; measurePoints := newPoints;
     colorMode := colorMode state; explodeMode := explodeMode state;
     requestedView := requestedView state |}.

Definition setColorMode (active : bool) (state : State) : State :=
  {| measureMode := measureMode state; measurePoints := measurePoints state;
     colorMode := active; explodeMode := explodeMode state;
     requestedView := requestedView state |}.

Definition setExplodeMode (active : bool) (state : State) : State :=
  {| measureMode := measureMode state; measurePoints := measurePoints state;
     colorMode := colorMode state; explodeMode := active;
     requestedView := requestedView state |}.

Definition setRequestedView (view : option string) (state : State) : State :=
  {| measureMode := measureMode state; measurePoints := measurePoints state;
     colorMode := colorMode state; explodeMode := explodeMode state;
     requestedView := view |}.

(** The calls a client of the measurement slice can make. *)
Inductive Call : Type :=
| CallAddMeasurePoint (pt : MeasurePoint)
| CallSetMeasureMode (active : bool).

Definition step (state : State) (c : Call) : State :=
  match c with
  | CallAddMeasurePoint pt => addMeasurePoint pt state
  | CallSetMeasureMode active => setMeasureMode active state
  end.

Definition run (calls : list Call) (state : State) : State :=
  fold_left step calls state.

(** A sequence of [addMeasurePoint] calls only. *)
Definition pushAll (pts : list MeasurePoint) (state : State) : State :=
  fold_left (fun s pt => addMeasurePoint pt s) pts state.

End UIStore.

(** ** The JavaScript built-ins the viewer formats numbers with *)
Module JS.

Open Scope string_scope.

Definition decimal (n : Z) : string :=
  NilZero.string_of_uint (N.to_uint (Z.to_N n)).

Definition twoDigits (n : Z) : string :=
  decimal (n / 10) ++ decimal (n mod 10).

(** [value.toFixed(2)] for a magnitude below 10^21: the sign, then the
    nearest multiple of 1/100 (the larger one on a tie) written with two
    decimals. *)
Definition toFixed2 (value : R) : string :=
  let sign := if Rlt_dec value 0 then "-" else "" in
  let n := Int_part (Rabs value * 100 + 1 / 2) in
  sign ++ decimal (n / 100) ++ "." ++ twoDigits (n mod 100).

(** [hash << 5] on a Number holding an integer: ToInt32, shift, ToInt32. *)
Definition toInt32 (n : Z) : Z := ((n + 2 ^ 31) mod 2 ^ 32 - 2 ^ 31)%Z.

Definition shiftLeft (n : Z) (k : Z) : Z := toInt32 (Z.shiftl (toInt32 n) k).

(** [str.charCodeAt(i)] for every [i]: the code units of an ASCII string. *)
Fixpoint charCodes (s : string) : list Z :=
  match s with
  | EmptyString => []
  | String ch rest => Z.of_nat (Ascii.nat_of_ascii ch) :: charCodes rest
  end.

(** [str.includes(sub)] *)
Definition includes (s sub : string) : bool :=
  match String.index 0 sub s with
  | Some _ => true
  | None => false
  end.

End JS.

(** ** [components/ThreeCanvas.jsx] *)
Module ThreeCanvas.

Import THREE.

Record Face : Type := mkFace {
  a : nat; b : nat; c : nat;
  faceNormal : Vector3 }.

Record Material : Type := mkMaterial {
  side : Side;
  transparent : bool;
  opacity : R;
  depthWrite : bool;
  depthTest : bool;
  metalness : option R;      (* [Some] when [typeof metalness === 'number'] *)
  roughness : option R;      (* [Some] when [typeof roughness === 'number'] *)
  envMapIntensity : R;
  map : bool;                (* a texture is attached *)
  color : option Color;
  vertexColors : bool;
  needsUpdate : bool }.

(** A node of the scene graph, with what three.js derives from the graph
    around it: [boundingBox] is [new Box3().setFromObject(node)],
    [parentWorldQuaternion] is [node.parent.getWorldQuaternion(..)] when the
    node has a parent, [positions] reads [geometry.attributes.position] at a
    vertex index, [hasColorAttribute] tells whether
    [geometry.attributes.color] is set. *)
Record Object3D : Type := mkObject3D {
  uuid : string;
  isMesh : bool;
  position : Vector3;
  material : option Material;
  castShadow : bool;
  receiveShadow : bool;
  positions : nat -> Vector3;
  hasColorAttribute : bool;
  matrixWorld : Matrix4;
  boundingBox : Box3;
  parentWorldQuaternion : option Quaternion }.

Definition localToWorld (object : Object3D) (v : Vector3) : Vector3 :=
  applyMatrix4 v (matrixWorld object).

Definition fromBufferAttribute (object : Object3D) (idx : nat) : Vector3 :=
  positions object idx.

Record PerspectiveCamera : Type := mkCamera {
  camPosition : Vector3;
  camUp : Vector3;
  fov : R }.

(** The pointer event of react-three-fiber, which is also the raycast
    intersection [snapToFeature] receives. *)
Record ThreeEvent : Type := mkEvent {
  point : Vector3;
  face : option Face;
  object : option Object3D;
  button : Z }.

(** *** [snapToFeature] *)

(** [d < minMsgDist] with [minMsgDist] possibly still [Infinity]. *)
Definition ltMin (d : R) (minMsgDist : option R) : bool :=
  match minMsgDist with
  | None => true
  | Some m => if Rlt_dec d m then true else false
  end.

(** One round of [vertices.forEach]. *)
Definition checkVertex (pt : Vector3) (acc : option R * Vector3) (v : Vector3)
  : option R * Vector3 :=
  let d := distanceTo v pt in
  if ltMin d (fst acc) then (Some d, v) else acc.

(** One round of [edges.forEach]: an edge wins only below 90% of the best
    distance so far. *)
Definition checkEdge (pt : Vector3) (acc : option R * Vector3) (edge : Vector3 * Vector3)
  : option R * Vector3 :=
  let closestOnLine := closestPointToPoint (fst edge) (snd edge) pt true in
  let d := distanceTo closestOnLine pt in
  let wins :=
    match fst acc with
    | None => true
    | Some m => if Rlt_dec d (m * 0.9) then true else false
    end in
  if wins then (Some d, closestOnLine) else acc.

(** [threshold]: 2% of the camera distance. *)
Definition snapThreshold (cam : PerspectiveCamera) (pt : Vector3) : R :=
  distanceTo (camPosition cam) pt * 0.02.

(** The pair [(minMsgDist, closestPoint)] after both loops. *)
Definition snapCandidate (fc : Face) (obj : Object3D) (pt : Vector3) : option R * Vector3 :=
  let getV := fun idx => localToWorld obj (fromBufferAttribute obj idx) in
  let vA := getV (a fc) in
  let vB := getV (b fc) in
  let vC := getV (c fc) in
  let vertices := [vA; vB; vC] in
  let afterVertices := fold_left (checkVertex pt) vertices (None, pt) in
  let edges := [(vA, vB); (vB, vC); (vC, vA)] in
  fold_left (checkEdge pt) edges afterVertices.

Definition snapToFeature (intersect : ThreeEvent) (cam : PerspectiveCamera) : Vector3 :=
  match face intersect, object intersect with
  | Some fc, Some obj =>
      let pt := point intersect in
      let '(minMsgDist, closestPoint) := snapCandidate fc obj pt in
      let threshold := snapThreshold cam pt in
      match minMsgDist with
      | Some m => if Rlt_dec m threshold then closestPoint else pt
      | None => pt
      end
  | _, _ => point intersect
  end.

(** *** [MeasurementMarkers] *)

Record Label : Type := mkLabel {
  pos : Vector3;
  text : string;
  subText : option string }.

(** The area of the triangle with sides [a], [b], [c] as the component
    computes it (Heron's formula). *)
Definition heronArea (la lb lc : R) : R :=
  let s := (la + lb + lc) / 2 in
  sqrt (s * (s - la) * (s - lb) * (s - lc)).

(** The label of two points: their distance at the midpoint, and the
    distance along the first normal when both faces are near parallel. *)
Definition distanceLabel (m1 m2 : UIStore.MeasurePoint) : Label :=
  let p1 := UIStore.point m1 in
  let p2 := UIStore.point m2 in
  let dist := distanceTo p1 p2 in
  let mid := multiplyScalar (add p1 p2) 0.5 in
  let projStr :=
    match UIStore.normal m1, UIStore.normal m2 with
    | Some n1, Some n2 =>
        if Rgt_dec (Rabs (dot n1 n2)) 0.8
        then JS.toFixed2 (Rabs (dot (subVectors p2 p1) n1))
        else ""%string
    | _, _ => ""%string
    end in
  {| pos := mid;
     text := (JS.toFixed2 dist ++ " mm")%string;
     subText := if String.eqb projStr "" then None
                else Some ("Face Dist: " ++ projStr ++ " mm")%string |}.

(** The label of three points, when their triangle is not degenerate: the
    diameter of the circumscribed circle at the centroid. *)
Definition diameterLabels (p1 p2 p3 : Vector3) : list Label :=
  let la := distanceTo p1 p2 in
  let lb := distanceTo p2 p3 in
  let lc := distanceTo p3 p1 in
  let area := heronArea la lb lc in
  if Rgt_dec area 0.0001 then
    let R := (la * lb * lc) / (4 * area) in
    let center := divideScalar (add (add p1 p2) p3) 3 in
    [ {| pos := center;
         text := ("⌀ " ++ JS.toFixed2 (R * 2))%string;
         subText := None |} ]
  else [].

(** The body of the label effect: the value given to [setLabels]. *)
Definition labels (measurePoints : list UIStore.MeasurePoint) : list Label :=
  match measurePoints with
  | [] | [_] => []
  | [m1; m2] => [distanceLabel m1 m2]
  | [m1; m2; m3] =>
      diameterLabels (UIStore.point m1) (UIStore.point m2) (UIStore.point m3)
  | _ => []
  end.

(** The positions of the rendered [FixedSizeMarker]s: they are read from
    the stored points alone. *)
Definition markerPositions (measurePoints : list UIStore.MeasurePoint) : list Vector3 :=
  List.map UIStore.point measurePoints.

(** The polyline handed to [Line], closed for three points. *)
Definition linePoints (measurePoints : list UIStore.MeasurePoint) : list Vector3 :=
  let pts := List.map UIStore.point measurePoints in
  match measurePoints with
  | [m1; _; _] => pts ++ [UIStore.point m1]
  | _ => pts
  end.

(** *** [ModelViewer] *)

Definition withPosition (child : Object3D) (p : Vector3) : Object3D :=
  {| uuid := uuid child; isMesh := isMesh child; position := p;
     material := material child; castShadow := castShadow child;
     receiveShadow := receiveShadow child; positions := positions child;
     hasColorAttribute := hasColorAttribute child;
     matrixWorld := matrixWorld child; boundingBox := boundingBox child;
     parentWorldQuaternion := parentWorldQuaternion child |}.

Definition withMaterial (child : Object3D) (m : option Material) : Object3D :=
  {| uuid := uuid child; isMesh := isMesh child; position := position child;
     material := m; castShadow := castShadow child;
     receiveShadow := receiveShadow child; positions := positions child;
     hasColorAttribute := hasColorAttribute child;
     matrixWorld := matrixWorld child; boundingBox := boundingBox child;
     parentWorldQuaternion := parentWorldQuaternion child |}.

Definition withoutShadows (child : Object3D) : Object3D :=
  {| uuid := uuid child; isMesh := isMesh child; position := position child;
     material := material child; castShadow := false;
     receiveShadow := false; positions := positions child;
     hasColorAttribute := hasColorAttribute child;
     matrixWorld := matrixWorld child; boundingBox := boundingBox child;
     parentWorldQuaternion := parentWorldQuaternion child |}.

Definition withColor (m : Material) (col : option Color) : Material :=
  {| side := side m; transparent := transparent m; opacity := opacity m;
     depthWrite := depthWrite m; depthTest := depthTest m;
     metalness := metalness m; roughness := roughness m;
     envMapIntensity := envMapIntensity m; map := map m;
     color := col; vertexColors := vertexColors m;
     needsUpdate := needsUpdate m |}.

Definition withNeedsUpdate (m : Material) : Material :=
  {| side := side m; transparent := transparent m; opacity := opacity m;
     depthWrite := depthWrite m; depthTest := depthTest m;
     metalness := metalness m; roughness := roughness m;
     envMapIntensity := envMapIntensity m; map := map m;
     color := color m; vertexColors := vertexColors m;
     needsUpdate := true |}.

(** The refs of the component: the three [Map]s keyed by [uuid], the
    initialisation flag and the diagonal of the model. *)
Record Refs : Type := mkRefs {
  originalMaterials : gmap string Material;
  originalPositions : gmap string Vector3;
  explosionVectors : gmap string Vector3;
  isInitialized : bool;
  modelSize : R }.

Definition emptyRefs : Refs :=
  {| originalMaterials := ∅; originalPositions := ∅; explosionVectors := ∅;
     isInitialized := false; modelSize := 0 |}.

(** [if (!map.has(k)) map.set(k, v)] *)
Definition setIfAbsent {V : Type} (k : string) (v : V) (m : gmap string V) : gmap string V :=
  match m !! k with
  | Some _ => m
  | None => <[k := v]> m
  end.

(** The scene graph in the order [traverse] visits it. *)
Definition Scene : Type := list Object3D.

Fixpoint traverse {S : Type} (callback : S -> Object3D -> S * Object3D)
  (s : S) (nodes : Scene) : S * Scene :=
  match nodes with
  | [] => (s, [])
  | child :: rest =>
      let '(s1, child') := callback s child in
      let '(s2, rest') := traverse callback s1 rest in
      (s2, child' :: rest')
  end.

(** Steps A to D of the set-up effect: from the centre of the part to a
    unit direction in the parent's frame. *)
Definition explosionVector (globalCenter : Vector3) (child : Object3D) : Vector3 :=
  let meshCenter := getCenter (boundingBox child) in
  let dirWorld0 := normalize (subVectors meshCenter globalCenter) in
  let dirWorld :=
    if Rlt_dec (lengthSq dirWorld0) 0.0001 then mkVector3 0 1 0 else dirWorld0 in
  let dirLocal :=
    match parentWorldQuaternion child with
    | Some parentQuat => applyQuaternion dirWorld (invert parentQuat)
    | None => dirWorld
    end in
  normalize dirLocal.

Section ModelViewer.

(** What three.js decides and the viewer only calls: the colour stored for
    a hex triplet and for a hue, saturation and lightness (both depend on
    the colour management of the library), and a face normal taken through
    the normal matrix of a world matrix. *)
Variable setHex : Z -> Color.
Variable setHSL : R -> R -> R -> Color.
Variable applyNormalMatrix : Matrix4 -> Vector3 -> Vector3.

Definition nearWhite (m : Material) : bool :=
  match color m with
  | Some col =>
      negb (map m)
      && (if Rgt_dec (r col) 0.92 then true else false)
      && (if Rgt_dec (g col) 0.92 then true else false)
      && (if Rgt_dec (THREE.b col) 0.92 then true else false)
  | None => false
  end.

(** The assignments made to the fresh clone of [child.material]. *)
Definition normalizeMaterial (hasColorAttr : bool) (m : Material) : Material :=
  {| side := DoubleSide;
     transparent := true;
     opacity := 0.9;
     depthWrite := true;
     depthTest := true;
     metalness :=
       match metalness m with
       | Some v => if Rgt_dec v 0.9 then Some 0.6 else Some v
       | None => None
       end;
     roughness :=
       match roughness m with
       | Some v => if Rlt_dec v 0.1 then Some 0.3 else Some v
       | None => None
       end;
     envMapIntensity := 1.2;
     map := map m;
     color := if nearWhite m then Some (setHex 0xc0c0c0) else color m;
     vertexColors := if hasColorAttr then true else vertexColors m;
     needsUpdate := true |}.

(** The callback of the set-up traversal. *)
Definition setupChild (globalCenter : Vector3) (refs : Refs) (child : Object3D)
  : Refs * Object3D :=
  if isMesh child then
    let child1 := withoutShadows child in
    let positions1 :=
      setIfAbsent (uuid child) (position child) (originalPositions refs) in
    let vectors1 :=
      setIfAbsent (uuid child) (explosionVector globalCenter child)
        (explosionVectors refs) in
    match material child with
    | Some m =>
        ({| originalMaterials := setIfAbsent (uuid child) m (originalMaterials refs);
            originalPositions := positions1;
            explosionVectors := vectors1;
            isInitialized := isInitialized refs;
            modelSize := modelSize refs |},
         withMaterial child1 (Some (normalizeMaterial (hasColorAttribute child) m)))
    | None =>
        ({| originalMaterials := originalMaterials refs;
            originalPositions := positions1;
            explosionVectors := vectors1;
            isInitialized := isInitialized refs;
            modelSize := modelSize refs |},
         child1)
    end
  else (refs, child).

(** The set-up effect, for the box [new Box3().setFromObject(clonedScene)]. *)
Definition setupScene (globalBox : Box3) (refs : Refs) (clonedScene : Scene)
  : Refs * Scene :=
  let globalCenter := getCenter globalBox in
  let sizeVec := getSize globalBox in
  let refs1 :=
    {| originalMaterials := originalMaterials refs;
       originalPositions := originalPositions refs;
       explosionVectors := explosionVectors refs;
       isInitialized := isInitialized refs;
       modelSize := length sizeVec |} in
  let '(refs2, scene') := traverse (setupChild globalCenter) refs1 clonedScene in
  ({| originalMaterials := originalMaterials refs2;
      originalPositions := originalPositions refs2;
      explosionVectors := explosionVectors refs2;
      isInitialized := true;
      modelSize := modelSize refs2 |}, scene').

(** **** Explode mode: one frame *)

Definition expandDist (explodeMode : bool) (refs : Refs) : R :=
  let baseScale := if Rgt_dec (modelSize refs) 0 then modelSize refs else 350 in
  if explodeMode then baseScale * 0.5 else 0.

Definition targetPos (originalPos direction : Vector3) (dist : R) : Vector3 :=
  add originalPos (multiplyScalar direction dist).

Definition explodeChild (explodeMode : bool) (refs : Refs) (child : Object3D) : Object3D :=
  if isMesh child then
    match originalPositions refs !! uuid child, explosionVectors refs !! uuid child with
    | Some originalPos, Some direction =>
        withPosition child
          (lerp (position child)
                (targetPos originalPos direction (expandDist explodeMode refs)) 0.1)
    | _, _ => child
    end
  else child.

Definition explodeFrame (explodeMode : bool) (refs : Refs) (clonedScene : Scene) : Scene :=
  if isInitialized refs then List.map (explodeChild explodeMode refs) clonedScene
  else clonedScene.

(** **** Colour mode *)

(** The loop of [getHashColor], on the code units of the string. *)
Definition hashStep (hash ch : Z) : Z := (ch + (JS.shiftLeft hash 5 - hash))%Z.

Definition getHashColor (str : string) : Color :=
  let hash := fold_left hashStep (JS.charCodes str) 0%Z in
  let h := IZR (Z.abs (Z.rem hash 360)) / 360 in
  setHSL h 0.7 0.5.

(** The callback of the colour traversal; [None] is the TypeError of a
    property read on an undefined material or colour. [child.uuid] is never
    empty, so it is the [uniqueId]. *)
Definition colorChild (colorMode : bool) (refs : Refs) (child : Object3D) : option Object3D :=
  if isMesh child then
    if colorMode then
      match material child with
      | Some m =>
          match color m with
          | Some _ =>
              Some (withMaterial child
                      (Some (withNeedsUpdate (withColor m (Some (getHashColor (uuid child)))))))
          | None => None
          end
      | None => None
      end
    else
      match originalMaterials refs !! uuid child with
      | Some orig =>
          match color orig with
          | Some origColor =>
              match material child with
              | Some m =>
                  match color m with
                  | Some _ =>
                      Some (withMaterial child
                              (Some (withNeedsUpdate (withColor m (Some origColor)))))
                  | None => None
                  end
              | None => None
              end
          | None =>
              match material child with
              | Some m => Some (withMaterial child (Some (withNeedsUpdate m)))
              | None => None
              end
          end
      | None =>
          match material child with
          | Some m => Some (withMaterial child (Some (withNeedsUpdate m)))
          | None => None
          end
      end
  else Some child.

Definition colorEffect (colorMode : bool) (refs : Refs) (clonedScene : Scene) : option Scene :=
  if isInitialized refs then mapM (colorChild colorMode refs) clonedScene
  else Some clonedScene.

(** **** [handleClick] *)

(** What a click can change: the highlighted face and the store. *)
Record ClickState : Type := mkClickState {
  selectedFaceVerts : option (list Vector3);
  store : UIStore.State }.

Definition handleClick (e : ThreeEvent) (camera : PerspectiveCamera) (st : ClickState)
  : ClickState :=
  if negb (button e =? 0)%Z then st
  else
    let selected :=
      match object e, face e with
      | Some obj, Some fc =>
          Some [ localToWorld obj (fromBufferAttribute obj (a fc));
                 localToWorld obj (fromBufferAttribute obj (b fc));
                 localToWorld obj (fromBufferAttribute obj (c fc)) ]
      | _, _ => selectedFaceVerts st
      end in
    if negb (UIStore.measureMode (store st))
    then {| selectedFaceVerts := selected; store := store st |}
    else
      let finalPoint := snapToFeature e camera in
      let finalNormal :=
        match face e, object e with
        | Some fc, Some obj =>
            Some (normalize (applyNormalMatrix (matrixWorld obj) (faceNormal fc)))
        | _, _ => None
        end in
      {| selectedFaceVerts := selected;
         store := UIStore.addMeasurePoint
                    {| UIStore.point := finalPoint; UIStore.normal := finalNormal |}
                    (store st) |}.

End ModelViewer.

(** *** The [ThreeCanvas] component: camera framing and canonical views *)

Record OrbitControls : Type := mkControls {
  target : Vector3;
  ctlEnableDamping : bool;
  ctlAutoRotate : bool }.

(** The centred container handed to [onModelReady]; its [quaternion]
    follows its [rotation]. *)
Record Model : Type := mkModel { rotation : Euler }.

(** [Quaternion.setFromEuler] for the default order XYZ. *)
Definition setFromEuler (e : Euler) : Quaternion :=
  let c1 := cos (ex e / 2) in
  let c2 := cos (ey e / 2) in
  let c3 := cos (ez e / 2) in
  let s1 := sin (ex e / 2) in
  let s2 := sin (ey e / 2) in
  let s3 := sin (ez e / 2) in
  mkQuaternion (s1 * c2 * c3 + c1 * s2 * s3)
               (c1 * s2 * c3 - s1 * c2 * s3)
               (c1 * c2 * s3 + s1 * s2 * c3)
               (c1 * c2 * c3 - s1 * s2 * s3).

Definition quaternion (m : Model) : Quaternion := setFromEuler (rotation m).

Record Viewer : Type := mkViewer {
  cameraControls : option (PerspectiveCamera * OrbitControls);
  mainModel : option Model;
  modelMaxDim : R;
  modelUrl : string;
  autoRotate : bool;
  enableDamping : bool;
  initialCameraSet : bool }.

(** What one call of [controls.update()] makes of the camera and of the
    controls.  [OrbitControls] is library code: its [update] re-derives the
    camera position from the offset to the target, clamps the distance to the
    zoom limits and the angles to theirs, and applies auto-rotation and the
    pending rotation, pan and zoom input.  All that depends on state of the
    controls the viewer never reads, so every call has an [Update] of its
    own. *)
Definition Update : Type :=
  PerspectiveCamera * OrbitControls -> PerspectiveCamera * OrbitControls.

(** [(size / 2) / Math.tan(fov / 2)] for [fov] in degrees on the camera. *)
Definition framingDistance (size fovDegrees : R) : R :=
  let fovRad := fovDegrees * (PI / 180) in
  (size / 2) / tan (fovRad / 2).

(** [handleModelReady]: the camera is put on the z axis and the target at
    the origin, and [controls.update()] runs on them, once per model URL.
    [camera.updateProjectionMatrix()] touches no field of the camera kept
    here. *)
Definition handleModelReady (update : Update) (model : Model) (maxDim : R) (v : Viewer)
  : Viewer :=
  match cameraControls v with
  | Some (camera, controls) =>
      if (if Rgt_dec maxDim 0 then true else false) && negb (initialCameraSet v) then
        let cameraZ0 := framingDistance maxDim (fov camera) in
        let paddingMultiplier :=
          if JS.includes (modelUrl v) "V3_DIRT_BIKE_3" then 1.5 * 0.75 else 1.5 in
        let cameraZ := cameraZ0 * paddingMultiplier in
        {| cameraControls :=
             Some (update
                     ({| camPosition := mkVector3 0 0 cameraZ;
                         camUp := camUp camera; fov := fov camera |},
                      {| target := mkVector3 0 0 0;
                         ctlEnableDamping := ctlEnableDamping controls;
                         ctlAutoRotate := ctlAutoRotate controls |}));
           mainModel := Some model;
           modelMaxDim := maxDim;
           modelUrl := modelUrl v;
           autoRotate := autoRotate v;
           enableDamping := enableDamping v;
           initialCameraSet := true |}
      else
        {| cameraControls := cameraControls v; mainModel := Some model;
           modelMaxDim := maxDim; modelUrl := modelUrl v;
           autoRotate := autoRotate v; enableDamping := enableDamping v;
           initialCameraSet := initialCameraSet v |}
  | None =>
      {| cameraControls := None; mainModel := Some model;
         modelMaxDim := maxDim; modelUrl := modelUrl v;
         autoRotate := autoRotate v; enableDamping := enableDamping v;
         initialCameraSet := initialCameraSet v |}
  end.

(** The [switch] of [handleViewChange]: the offset and the up vector of a
    view in the frame of the model, [None] for the [default] case. *)
Definition viewVectors (view : string) : option (Vector3 * Vector3) :=
  if String.eqb view "front" then Some (mkVector3 0 0 1, mkVector3 0 1 0)
  else if String.eqb view "back" then Some (mkVector3 0 0 (-1), mkVector3 0 1 0)
  else if String.eqb view "left" then Some (mkVector3 (-1) 0 0, mkVector3 0 1 0)
  else if String.eqb view "right" then Some (mkVector3 1 0 0, mkVector3 0 1 0)
  else if String.eqb view "top" then Some (mkVector3 0 1 0.0001, mkVector3 0 0 (-1))
  else if String.eqb view "bottom" then Some (mkVector3 0 (-1) 0.0001, mkVector3 0 0 1)
  else None.

(** The distance of a canonical view: framing distance times the padding. *)
Definition viewDistance (v : Viewer) (camera : PerspectiveCamera) : R :=
  let size := if Rgt_dec (modelMaxDim v) 0 then modelMaxDim v else 10 in
  framingDistance size (fov camera) * 1.5.

Definition modelQuat (v : Viewer) : Quaternion :=
  match mainModel v with
  | Some m => quaternion m
  | None => identityQuaternion
  end.

(** [handleViewChange]: damping and auto-rotation are switched off; for
    one of the six views the camera is put at [finalPos] with the rotated up
    vector, and [activeControls.update()] runs on camera and controls.
    [camera.lookAt(target)] turns the camera, whose orientation is not kept
    here. *)
Definition handleViewChange (update : Update) (view : string) (v : Viewer) : Viewer :=
  match cameraControls v with
  | None => v
  | Some (camera, controls) =>
      let stopped :=
        {| target := target controls;
           ctlEnableDamping := false; ctlAutoRotate := false |} in
      let dist := viewDistance v camera in
      match viewVectors view with
      | None =>
          {| cameraControls := Some (camera, stopped); mainModel := mainModel v;
             modelMaxDim := modelMaxDim v; modelUrl := modelUrl v;
             autoRotate := false; enableDamping := false;
             initialCameraSet := initialCameraSet v |}
      | Some (offset0, up0) =>
          let offset := applyQuaternion offset0 (modelQuat v) in
          let up := applyQuaternion up0 (modelQuat v) in
          let finalPos := add (target controls) (multiplyScalar offset dist) in
          {| cameraControls :=
               Some (update
                       ({| camPosition := finalPos; camUp := up; fov := fov camera |},
                        stopped));
             mainModel := mainModel v;
             modelMaxDim := modelMaxDim v; modelUrl := modelUrl v;
             autoRotate := false; enableDamping := false;
             initialCameraSet := initialCameraSet v |}
      end
  end.

(** [handleCubeRotate]: the rotation of the cube is copied to the model. *)
Definition handleCubeRotate (rot : Euler) (v : Viewer) : Viewer :=
  match mainModel v with
  | Some _ =>
      {| cameraControls := cameraControls v;
         mainModel := Some {| rotation := mkEuler (ex rot) (ey rot) (ez rot) |};
         modelMaxDim := modelMaxDim v; modelUrl := modelUrl v;
         autoRotate := autoRotate v; enableDamping := enableDamping v;
         initialCameraSet := initialCameraSet v |}
  | None => v
  end.

End ThreeCanvas.

(** ** [components/OrientationCube.jsx]: dragging the cube *)
Module OrientationCube.

Import THREE.

(** The variables the pointer handlers close over, and the rotation of
    [cubeGroup]. *)
Record Drag : Type := mkDrag {
  isDragging : bool;
  lastX : R;
  lastY : R;
  cubeRotation : Euler }.

Record PointerEvent : Type := mkPointerEvent { clientX : R; clientY : R }.

(** [getBoundingClientRect()] of the canvas. *)
Record Rect : Type := mkRect { left : R; top : R }.

Definition onPointerDown (rect : Rect) (e : PointerEvent) (d : Drag) : Drag :=
  {| isDragging := true;
     lastX := clientX e - left rect;
     lastY := clientY e - top rect;
     cubeRotation := cubeRotation d |}.

(** [onPointerMove], for a parent state [P] and the optional [onRotate]
    callback of the parent. *)
Definition onPointerMove {P : Type} (onRotate : option (Euler -> P -> P))
  (rect : Rect) (e : PointerEvent) (d : Drag) (parent : P) : Drag * P :=
  if negb (isDragging d) then (d, parent)
  else
    let nx := clientX e - left rect in
    let ny := clientY e - top rect in
    let dx := nx - lastX d in
    let dy := ny - lastY d in
    let rotation' :=
      mkEuler (ex (cubeRotation d) + dy * 0.01)
              (ey (cubeRotation d) + dx * 0.01)
              (ez (cubeRotation d)) in
    let d' :=
      {| isDragging := true; lastX := nx; lastY := ny;
         cubeRotation := rotation' |} in
    match onRotate with
    | Some callback =>
        (d', callback (mkEuler (ex rotation') (ey rotation') (ez rotation')) parent)
    | None => (d', parent)
    end.

Definition onPointerUp (d : Drag) : Drag :=
  {| isDragging := false; lastX := lastX d; lastY := lastY d;
     cubeRotation := cubeRotation d |}.

(** The cube as [ThreeCanvas] mounts it: [onRotate={handleCubeRotate}]. *)
Definition dragCube (rect : Rect) (e : PointerEvent) (d : Drag) (v : ThreeCanvas.Viewer)
  : Drag * ThreeCanvas.Viewer :=
  onPointerMove (Some ThreeCanvas.handleCubeRotate) rect e d v.

End OrientationCube.

(** ** [src/unnamed/part_001]: the revision whose measured points stick to
    the part they were picked on

    A revision of [ThreeCanvas.jsx]: [handleClick] stores, besides the world
    point, the point in the local space of the clicked object and the [uuid]
    of that object, and [MeasurementMarkers] re-derives the world position of
    every stored point in each frame. *)
Module Part001.

Import THREE ThreeCanvas.

(** [object.worldToLocal(v)]: the inverse of the world matrix applied. *)
Definition worldToLocal (object : Object3D) (v : Vector3) : Vector3 :=
  applyMatrix4 v (invertMatrix4 (matrixWorld object)).

(** [v.equals(w)] *)
Definition equals (v w : Vector3) : bool :=
  if Req_EM_T (x v) (x w) then
    if Req_EM_T (y v) (y w) then
      if Req_EM_T (z v) (z w) then true else false
    else false
  else false.

(** What [handleClick] hands to [addMeasurePoint]:
    [{ point, localPoint, objectUuid, normal }]. *)
Record MeasurePoint : Type := mkMeasurePoint {
  point : Vector3;
  localPoint : option Vector3;
  objectUuid : option string;
  normal : option Vector3 }.

(** [addMeasurePoint] of the store, on the entries of this revision. *)
Definition addMeasurePoint (pt : MeasurePoint) (measurePoints : list MeasurePoint)
  : list MeasurePoint :=
  if (2 <=? List.length measurePoints)%nat then [pt] else measurePoints ++ [pt].

(** What a click can change: the highlighted face and the buffer of the
    store; [measureMode] is read from the store. *)
Record ClickState : Type := mkClickState {
  selectedFaceVerts : option (list Vector3);
  measureMode : bool;
  measurePoints : list MeasurePoint }.

Section Click.

Variable applyNormalMatrix : Matrix4 -> Vector3 -> Vector3.

Definition handleClick (e : ThreeEvent) (camera : PerspectiveCamera) (st : ClickState)
  : ClickState :=
  if negb (button e =? 0)%Z then st
  else
    let finalPoint0 := ThreeCanvas.point e in
    let objectUuid0 := option_map uuid (object e) in
    let localPoint0 :=
      option_map (fun obj => worldToLocal obj finalPoint0) (object e) in
    let selected :=
      match object e, face e with
      | Some obj, Some fc =>
          Some [ localToWorld obj (fromBufferAttribute obj (a fc));
                 localToWorld obj (fromBufferAttribute obj (b fc));
                 localToWorld obj (fromBufferAttribute obj (c fc)) ]
      | _, _ => selectedFaceVerts st
      end in
    if negb (measureMode st)
    then {| selectedFaceVerts := selected; measureMode := measureMode st;
            measurePoints := measurePoints st |}
    else
      let snapped := snapToFeature e camera in
      let moved :=
        if equals snapped finalPoint0 then (finalPoint0, localPoint0)
        else
          match object e with
          | Some obj => (snapped, Some (worldToLocal obj snapped))
          | None => (finalPoint0, localPoint0)
          end in
      let finalNormal :=
        match face e, object e with
        | Some fc, Some obj =>
            Some (normalize (applyNormalMatrix (matrixWorld obj) (faceNormal fc)))
        | _, _ => None
        end in
      {| selectedFaceVerts := selected; measureMode := measureMode st;
         measurePoints :=
           addMeasurePoint
             {| point := fst moved; localPoint := snd moved;
                objectUuid := objectUuid0; normal := finalNormal |}
             (measurePoints st) |}.

End Click.

(** [scene.getObjectByProperty('uuid', value)]: the first node with that
    [uuid], in the order of the traversal. *)
Definition getObjectByProperty (scene : Scene) (value : string) : option Object3D :=
  List.find (fun node => String.eqb (uuid node) value) scene.

(** The callback of the [map] in [useFrame]: the world position of a
    stored point in this frame.  [sceneRef] is [None] while [sceneRef.current]
    is not set; an empty [objectUuid] is falsy. *)
Definition worldPoint (sceneRef : option Scene) (mp : MeasurePoint) : Vector3 :=
  match localPoint mp, objectUuid mp, sceneRef with
  | Some lp, Some id, Some scene =>
      if String.eqb id "" then point mp
      else
        match getObjectByProperty scene id with
        | Some targetObj => localToWorld targetObj lp
        | None => point mp
        end
  | _, _, _ => point mp
  end.

(** The value [useFrame] gives to [setCurrentWorldPoints]; the markers
    are drawn at these points. *)
Definition currentWorldPoints (sceneRef : option Scene)
  (measurePoints : list MeasurePoint) : list Vector3 :=
  List.map (worldPoint sceneRef) measurePoints.

End Part001.

(** ** Notions the properties are stated with *)
Module Notions.

Import THREE ThreeCanvas.

(** The distances from the hit point to the six candidate features of the
    hit triangle: its three vertices and the nearest points of its three
    edges. *)
Definition featureDistances (fc : Face) (obj : Object3D) (pt : Vector3) : list R :=
  let vA := localToWorld obj (fromBufferAttribute obj (a fc)) in
  let vB := localToWorld obj (fromBufferAttribute obj (b fc)) in
  let vC := localToWorld obj (fromBufferAttribute obj (c fc)) in
  [ distanceTo vA pt; distanceTo vB pt; distanceTo vC pt;
    distanceTo (closestPointToPoint vA vB pt true) pt;
    distanceTo (closestPointToPoint vB vC pt true) pt;
    distanceTo (closestPointToPoint vC vA pt true) pt ].

(** The distances from the hit point to the three vertices of the hit
    triangle, and to the nearest points of its three edges. *)
Definition vertexDistances (fc : Face) (obj : Object3D) (pt : Vector3) : list R :=
  firstn 3 (featureDistances fc obj pt).

Definition edgeDistances (fc : Face) (obj : Object3D) (pt : Vector3) : list R :=
  skipn 3 (featureDistances fc obj pt).

(** The running minimum of [snapToFeature] is a number at most [d]; it is
    a number whose 90% are at most [d]. *)
Definition minAtMost (acc : option R * Vector3) (d : R) : Prop :=
  match fst acc with
  | Some m => m <= d
  | None => False
  end.

Definition minWithinBias (acc : option R * Vector3) (d : R) : Prop :=
  match fst acc with
  | Some m => m * 0.9 <= d
  | None => False
  end.

(** The running minimum of [snapToFeature] is [Infinity] or one of the six
    feature distances. *)
Definition amongFeatures (fc : Face) (obj : Object3D) (pt : Vector3)
  (acc : option R * Vector3) : Prop :=
  match fst acc with
  | None => True
  | Some m => In m (featureDistances fc obj pt)
  end.

(** A mesh has a baseline position and a direction in the refs. *)
Definition registered (refs : Refs) (child : Object3D) : Prop :=
  isMesh child = true ->
  is_Some (originalPositions refs !! uuid child)
  /\ is_Some (explosionVectors refs !! uuid child).

Definition meshesRegistered (refs : Refs) (scene : Scene) : Prop :=
  Forall (registered refs) scene.

(** Every mesh of the scene is within [eps] of its stored baseline. *)
Definition nearBaseline (refs : Refs) (eps : R) (scene : Scene) : Prop :=
  Forall (fun child =>
            isMesh child = true ->
            exists base,
              originalPositions refs !! uuid child = Some base
              /\ distanceTo (position child) base < eps) scene.

(** The second refs know every key of the first, in the two maps the
    explode frame reads. *)
Definition refsExtend (refs1 refs2 : Refs) : Prop :=
  (forall k, is_Some (originalPositions refs1 !! k) ->
             is_Some (originalPositions refs2 !! k))
  /\ (forall k, is_Some (explosionVectors refs1 !! k) ->
               is_Some (explosionVectors refs2 !! k)).

(** A mesh with a material is normalised within the two limits: opacity
    0.9, double-sided, a numeric metalness of at most [maxMetalness], a
    numeric roughness of at least [minRoughness]. *)
Definition normalizedWithin (maxMetalness minRoughness : R) (child : Object3D) : Prop :=
  isMesh child = true ->
  forall m, material child = Some m ->
    opacity m = 0.9
    /\ side m = DoubleSide
    /\ (forall v, metalness m = Some v -> v <= maxMetalness)
    /\ (forall v, roughness m = Some v -> minRoughness <= v).

(** Every mesh was loaded with a material that has a colour. *)
Definition coloredMesh (child : Object3D) : Prop :=
  isMesh child = true ->
  exists m col, material child = Some m /\ color m = Some col.

(** A mesh is ready for the colour effect: its material has a colour and
    is flagged for update, and its baseline material has a colour. *)
Definition colorReady (refs : Refs) (child : Object3D) : Prop :=
  isMesh child = true ->
  (exists m col,
     material child = Some m /\ color m = Some col /\ needsUpdate m = true)
  /\ (exists orig col,
        originalMaterials refs !! uuid child = Some orig /\ color orig = Some col).

(** Every stored baseline material has a colour. *)
Definition baselinesColored (refs : Refs) : Prop :=
  forall k orig, originalMaterials refs !! k = Some orig -> is_Some (color orig).

(** The second refs hold every baseline material of the first. *)
Definition baselinesKept (refs1 refs2 : Refs) : Prop :=
  forall k orig,
    originalMaterials refs1 !! k = Some orig ->
    originalMaterials refs2 !! k = Some orig.

(** A node after tinting and restoring, against the node before: a mesh
    has the material it had with the colour of its baseline material, and
    nothing else differs. *)
Definition restoredFrom (refs : Refs) (before after : Object3D) : Prop :=
  if isMesh before then
    exists m orig col,
      material before = Some m
      /\ originalMaterials refs !! uuid before = Some orig
      /\ color orig = Some col
      /\ after = withMaterial before (Some (withColor m (Some col)))
  else after = before.

(** The tint of a mesh: the hash colour of its [uuid] on its material. *)
Definition tintedChild (setHSL : R -> R -> R -> Color) (child : Object3D) : Object3D :=
  if isMesh child then
    match material child with
    | Some m =>
        withMaterial child
          (Some (withNeedsUpdate (withColor m (Some (getHashColor setHSL (uuid child))))))
    | None => child
    end
  else child.


(** A world matrix that carries points without a perspective division,
    as every matrix composed from position, rotation and scale does. *)
Definition affine (m : Matrix4) : Prop :=
  e3 m = 0 /\ e7 m = 0 /\ e11 m = 0 /\ e15 m = 1.

(** A quaternion of unit length. *)
Definition unitQuaternion (q : Quaternion) : Prop :=
  qx q * qx q + qy q * qy q + qz q * qz q + qw q * qw q = 1.

(** The factor by which the offset of a view is longer than a unit vector:
    the top and bottom offsets carry the extra 0.0001 along z. *)
Definition offsetStretch (view : string) : R :=
  if (String.eqb view "top" || String.eqb view "bottom")%bool
  then sqrt (1 + 0.0001 * 0.0001) else 1.

(** The [uuid]s of the meshes of a scene, in traversal order. *)
Definition meshUuids (scene : Scene) : list string :=
  List.map uuid (List.filter isMesh scene).

(** The baseline stored for a mesh is the material it was loaded with. *)
Definition baselineIsLoaded (refs : Refs) (child : Object3D) : Prop :=
  isMesh child = true ->
  forall m, material child = Some m ->
    originalMaterials refs !! uuid child = Some m.

End Notions.

(** ** Concrete inputs *)
Module Samples.

Import THREE ThreeCanvas.

Definition samplePoint (k : R) : UIStore.MeasurePoint :=
  {| UIStore.point := mkVector3 k 0 0; UIStore.normal := None |}.

Definition identityMatrix : Matrix4 := makeTranslation 0 0 0.

(** The corners of a right triangle with legs 4 in the plane [z = 0]. *)
Definition trianglePositions (idx : nat) : Vector3 :=
  match idx with
  | 0%nat => mkVector3 0 0 0
  | 1%nat => mkVector3 4 0 0
  | _ => mkVector3 0 4 0
  end.

Definition triangleMesh (m : Matrix4) : Object3D :=
  {| uuid := "mesh-1"; isMesh := true; position := mkVector3 0 0 0;
     material := None; castShadow := true; receiveShadow := true;
     positions := trianglePositions; hasColorAttribute := false;
     matrixWorld := m;
     boundingBox := mkBox3 (mkVector3 0 0 0) (mkVector3 4 4 0);
     parentWorldQuaternion := None |}.

Definition triangleFace : Face :=
  {| a := 0; b := 1; c := 2; faceNormal := mkVector3 0 0 1 |}.

(** A primary-button hit inside the triangle, at [(1, 1, 0)]. *)
Definition hitInside : ThreeEvent :=
  {| point := mkVector3 1 1 0; face := Some triangleFace;
     object := Some (triangleMesh identityMatrix); button := 0 |}.

Definition cameraAt (px py pz : R) : PerspectiveCamera :=
  {| camPosition := mkVector3 px py pz; camUp := mkVector3 0 1 0; fov := 50 |}.

(** A primary-button hit near the corner [(0, 0, 0)] of the triangle, at
    [(0.3, 0.4, 0)]. *)
Definition hitNearCorner : ThreeEvent :=
  {| point := mkVector3 0.3 0.4 0; face := Some triangleFace;
     object := Some (triangleMesh identityMatrix); button := 0 |}.

(** Instances of what three.js decides, for concrete runs: the colour of a
    hex triplet without colour management, and a grey of the given
    lightness for a hue. *)
Definition sampleSetHex (hex : Z) : Color :=
  mkColor (IZR (Z.land (Z.shiftr hex 16) 255) / 255)
          (IZR (Z.land (Z.shiftr hex 8) 255) / 255)
          (IZR (Z.land hex 255) / 255).

Definition sampleSetHSL (h s l : R) : Color := mkColor l l l.

(** An imported CAD material: fairly metallic, fairly smooth, mid grey. *)
Definition steel : Material :=
  {| side := FrontSide; transparent := false; opacity := 1;
     depthWrite := true; depthTest := true;
     metalness := Some 0.8; roughness := Some 0.2;
     envMapIntensity := 1; map := false;
     color := Some (mkColor 0.5 0.5 0.5);
     vertexColors := false; needsUpdate := false |}.

Definition part (id : string) (p : Vector3) (m : option Material) : Object3D :=
  {| uuid := id; isMesh := true; position := p;
     material := m; castShadow := true; receiveShadow := true;
     positions := trianglePositions; hasColorAttribute := false;
     matrixWorld := makeTranslation (x p) (y p) (z p);
     boundingBox := mkBox3 p (add p (mkVector3 4 4 0));
     parentWorldQuaternion := None |}.

(** Two steel parts side by side, and the box around both. *)
Definition twoParts : Scene :=
  [ part "part-a" (mkVector3 0 0 0) (Some steel);
    part "part-b" (mkVector3 10 0 0) (Some steel) ].

Definition twoPartsBox : Box3 := mkBox3 (mkVector3 0 0 0) (mkVector3 14 4 0).

(** A measured point without a face normal. *)
Definition measuredAt (px py pz : R) : UIStore.MeasurePoint :=
  {| UIStore.point := mkVector3 px py pz; UIStore.normal := None |}.

(** The viewer once the canvas has handed over its camera (at
    [(0, 0, 500)]) and its controls (target at the origin). *)
Definition viewerWith (fovDegrees : R) (url : string) (model : option Model)
  (maxDim : R) (cameraSet : bool) : Viewer :=
  {| cameraControls :=
       Some ({| camPosition := mkVector3 0 0 500; camUp := mkVector3 0 1 0;
                fov := fovDegrees |},
             {| target := mkVector3 0 0 0;
                ctlEnableDamping := true; ctlAutoRotate := false |});
     mainModel := model;
     modelMaxDim := maxDim;
     modelUrl := url;
     autoRotate := false;
     enableDamping := true;
     initialCameraSet := cameraSet |}.

Definition unrotated : Model := {| rotation := mkEuler 0 0 0 |}.

(** [controls.update()] on controls at rest, with no auto-rotation, no
    pending input and the camera within the zoom and angle limits: camera and
    target stay where they are. *)
Definition updateAtRest : Update := fun state => state.

(** An update that clamps: a camera farther than 1000 from the target is
    brought back to that distance along its line to the target, as a zoom
    limit of 1000 has it; any other camera stays. *)
Definition updateWithin1000 : Update :=
  fun state =>
    let offset := subVectors (camPosition (fst state)) (target (snd state)) in
    if Rlt_dec 1000 (length offset) then
      ({| camPosition :=
            add (target (snd state)) (multiplyScalar offset (1000 / length offset));
          camUp := camUp (fst state); fov := fov (fst state) |}, snd state)
    else state.

Definition defaultUrl : string := "/models/V3_DIRT_BIKE_3.compressed.glb".

Definition uploadedUrl : string := "/uploads/bracket.glb".

(** The same triangle carried 10 along x by its world matrix, hit at the
    world point [(11, 1, 0)], whose local coordinates are [(1, 1, 0)]. *)
Definition shiftedMesh : Object3D := triangleMesh (makeTranslation 10 0 0).

Definition hitOnShifted : ThreeEvent :=
  {| point := mkVector3 11 1 0; face := Some triangleFace;
     object := Some shiftedMesh; button := 0 |}.

(** The mesh after it has moved on: carried 20 along x. *)
Definition movedMesh : Object3D := triangleMesh (makeTranslation 20 0 0).

(** The normal matrix of a translation leaves a normal as it is. *)
Definition translationNormal (m : Matrix4) (n : Vector3) : Vector3 := n.

(** Measurement mode just switched on, nothing selected. *)
Definition measuring : ClickState :=
  {| selectedFaceVerts := None;
     store := UIStore.setMeasureMode true UIStore.initial |}.

(** The same in the revision [part_001]. *)
Definition sticking : Part001.ClickState :=
  {| Part001.selectedFaceVerts := None; Part001.measureMode := true;
     Part001.measurePoints := [] |}.

(** A drag of the cube in progress, started at the corner of its canvas. *)
Definition dragging : OrientationCube.Drag :=
  {| OrientationCube.isDragging := true;
     OrientationCube.lastX := 0; OrientationCube.lastY := 0;
     OrientationCube.cubeRotation := mkEuler 0 0 0 |}.

Definition canvasRect : OrientationCube.Rect :=
  {| OrientationCube.left := 0; OrientationCube.top := 0 |}.

Definition pointerAt (px py : R) : OrientationCube.PointerEvent :=
  {| OrientationCube.clientX := px; OrientationCube.clientY := py |}.

End Samples.

(** ** [store/uiStore.js]: chat histories and command history *)
Module ChatStore.

(** The property names a plain object inherits from [Object.prototype]: a
    read of one of them on an object that has no own property of that name
    yields the inherited member, not [undefined]. *)
Definition inheritedKeys : list string :=
  [ "constructor"; "hasOwnProperty"; "isPrototypeOf"; "propertyIsEnumerable";
    "toLocaleString"; "toString"; "valueOf"; "__proto__";
    "__defineGetter__"; "__defineSetter__"; "__lookupGetter__";
    "__lookupSetter__" ]%string.

Definition inherited (k : string) : bool :=
  existsb (String.eqb k) inheritedKeys.

Section Chat.

(** The message objects, and [String.prototype.trim]. *)
Variable Message : Type.
Variable trim : string -> string.

Record State : Type := mkState {
  messages : list Message;
  chatHistory : gmap string (list Message);
  commandHistory : list string }.

(** [switchChatHistory]: the current messages are saved under [oldMode],
    those of [newMode] become current, [[]] when there are none.  [None]
    stands for the state in which [messages] is not a list: [newMode] names
    no saved history but an inherited member of the history object. *)
Definition switchChatHistory (oldMode newMode : string) (state : State) : option State :=
  let updatedHistory := <[oldMode := messages state]> (chatHistory state) in
  match updatedHistory !! newMode with
  | Some nextMessages =>
      Some {| messages := nextMessages; chatHistory := updatedHistory;
              commandHistory := commandHistory state |}
  | None =>
      if inherited newMode then None
      else Some {| messages := []; chatHistory := updatedHistory;
                   commandHistory := commandHistory state |}
  end.

Definition addToHistory (cmd : string) (state : State) : State :=
  if (String.eqb cmd "" || String.eqb (trim cmd) "")%bool then state
  else
    let trimmed := trim cmd in
    let appended :=
      {| messages := messages state; chatHistory := chatHistory state;
         commandHistory := commandHistory state ++ [trimmed] |} in
    match last (commandHistory state) with
    | Some lastCmd => if String.eqb lastCmd trimmed then state else appended
    | None => appended
    end.

End Chat.

End ChatStore.

(** ** [features/shapes_front/index.js]: the registry of shape components *)
Module ShapeRegistry.

Section Registry.

(** The React components; every one of them is a truthy value. *)
Variable Component : Type.

(** What a read of [registry[type]] can find: a registered component, or a
    member inherited from [Object.prototype]. *)
Inductive Found : Type :=
| Registered (component : Component)
| Inherited (key : string).

(** [registerShape]: an own property is written, except for ["__proto__"],
    whose assignment replaces the prototype of the registry and is outside
    this model ([None]). *)
Definition registerShape (type : string) (component : Component)
  (registry : gmap string Component) : option (gmap string Component) :=
  if String.eqb type "__proto__" then None
  else Some (<[type := component]> registry).

(** [getShapeComponent]: [registry[type] || null], [None] for [null]. *)
Definition getShapeComponent (type : string) (registry : gmap string Component)
  : option Found :=
  match registry !! type with
  | Some component => Some (Registered component)
  | None => if ChatStore.inherited type then Some (Inherited type) else None
  end.

End Registry.

End ShapeRegistry.

(** ** [components/ThreeCanvas.jsx]: toolbar actions, zoom limits, model loads *)
Module ViewerControls.

Import THREE ThreeCanvas.

Definition withCamera (v : Viewer) (updated : PerspectiveCamera * OrbitControls)
  : Viewer :=
  {| cameraControls := Some updated; mainModel := mainModel v;
     modelMaxDim := modelMaxDim v; modelUrl := modelUrl v;
     autoRotate := autoRotate v; enableDamping := enableDamping v;
     initialCameraSet := initialCameraSet v |}.

Definition handleZoomIn (update : Update) (v : Viewer) : Viewer :=
  match cameraControls v with
  | Some (camera, controls) =>
      let tgt := target controls in
      let direction := multiplyScalar (subVectors (camPosition camera) tgt) 0.7 in
      withCamera v
        (update
           ({| camPosition := add tgt direction; camUp := camUp camera;
               fov := fov camera |},
            controls))
  | None => v
  end.

Definition handleZoomOut (update : Update) (v : Viewer) : Viewer :=
  match cameraControls v with
  | Some (camera, controls) =>
      let tgt := target controls in
      let direction := multiplyScalar (subVectors (camPosition camera) tgt) 1.4 in
      withCamera v
        (update
           ({| camPosition := add tgt direction; camUp := camUp camera;
               fov := fov camera |},
            controls))
  | None => v
  end.

Definition handleResetView (update : Update) (v : Viewer) : Viewer :=
  match cameraControls v with
  | Some (camera, controls) =>
      let position' :=
        if Rgt_dec (modelMaxDim v) 0 then
          mkVector3 0 0 (framingDistance (modelMaxDim v) (fov camera) * 1.5)
        else mkVector3 10 5 10 in
      withCamera v
        (update
           ({| camPosition := position'; camUp := camUp camera; fov := fov camera |},
            {| target := mkVector3 0 0 0;
               ctlEnableDamping := ctlEnableDamping controls;
               ctlAutoRotate := ctlAutoRotate controls |}))
  | None => v
  end.

(** The two zoom limits of the orbit controls. *)
Record ZoomLimits : Type := mkZoomLimits { minDistance : R; maxDistance : R }.

(** The effect of [CameraController] on a change of [modelMaxDim];
    [hasControls] tells whether [controlsRef.current] is set. *)
Definition updateZoomLimits (modelMaxDim : R) (hasControls : bool) (limits : ZoomLimits)
  : ZoomLimits :=
  if (if Rgt_dec modelMaxDim 0 then true else false) && hasControls then
    let min0 := modelMaxDim / 10000 in
    {| minDistance := if Rlt_dec min0 0.01 then 0.01 else min0;
       maxDistance := modelMaxDim * 100 |}
  else limits.

Definition defaultModelUrl : string := "/models/V3_DIRT_BIKE_3.compressed.glb".

(** The effect that runs when [modelUrl] has changed. *)
Definition modelUrlEffect (v : Viewer) : Viewer :=
  {| cameraControls := cameraControls v; mainModel := mainModel v;
     modelMaxDim := modelMaxDim v; modelUrl := modelUrl v;
     autoRotate := String.eqb (modelUrl v) defaultModelUrl;
     enableDamping := enableDamping v;
     initialCameraSet := false |}.

(** The effect that runs on a new [latestResult]; [glbUrl] is [None] when
    there is no result or its [glb_url] is undefined.  The model URL is set,
    the three view modes are reset, and the effect of the URL runs when the
    URL has changed. *)
Definition latestResultEffect (glbUrl : option string)
  (v : Viewer) (store : UIStore.State) : Viewer * UIStore.State :=
  match glbUrl with
  | Some url =>
      let v1 :=
        {| cameraControls := cameraControls v; mainModel := mainModel v;
           modelMaxDim := modelMaxDim v; modelUrl := url;
           autoRotate := autoRotate v; enableDamping := enableDamping v;
           initialCameraSet := initialCameraSet v |} in
      let store' :=
        UIStore.setMeasureMode false
          (UIStore.setColorMode false (UIStore.setExplodeMode false store)) in
      (if String.eqb url (modelUrl v) then v1 else modelUrlEffect v1, store')
  | None => (v, store)
  end.

(** The effect that listens to the view requests of the store: a request is
    handed to [handleViewChange] and cleared; the empty string is falsy. *)
Definition requestedViewEffect (update : Update) (v : Viewer) (store : UIStore.State)
  : Viewer * UIStore.State :=
  match UIStore.requestedView store with
  | Some view =>
      if String.eqb view "" then (v, store)
      else (handleViewChange update view v, UIStore.setRequestedView None store)
  | None => (v, store)
  end.

End ViewerControls.

(** ** [components/OrientationCube.jsx]: the faces and the click *)
Module CubeFaces.

Import THREE.

(** [faceMap], indexed by [userData.faceIndex]. *)
Definition faceMap : list string :=
  [ "right"; "left"; "top"; "bottom"; "front"; "back" ]%string.

(** [faceMap[idx] || 'front'] *)
Definition faceView (idx : nat) : string := nth idx faceMap "front"%string.

(** The calls of [addFace]: index and position of each face. *)
Definition faces : list (nat * Vector3) :=
  [ (0%nat, mkVector3 0.51 0 0); (1%nat, mkVector3 (-0.51) 0 0);
    (2%nat, mkVector3 0 0.51 0); (3%nat, mkVector3 0 (-0.51) 0);
    (4%nat, mkVector3 0 0 0.51); (5%nat, mkVector3 0 0 (-0.51)) ].

(** [onClick]: [intersects] holds, nearest first, the [userData.faceIndex]
    of each object under the pointer ([None] for the central sphere); the
    first face among them decides the view handed to [onViewChange]. *)
Definition onClick {P : Type} (onViewChange : option (string -> P -> P))
  (intersects : list (option nat)) (parent : P) : P :=
  match List.find (fun hit => match hit with Some _ => true | None => false end)
                  intersects with
  | Some (Some idx) =>
      match onViewChange with
      | Some callback => callback (faceView idx) parent
      | None => parent
      end
  | _ => parent
  end.

(** The cube as [ThreeCanvas] mounts it: [onViewChange={handleViewChange}]. *)
Definition clickCube (update : ThreeCanvas.Update) (intersects : list (option nat))
  (v : ThreeCanvas.Viewer) : ThreeCanvas.Viewer :=
  onClick (Some (ThreeCanvas.handleViewChange update)) intersects v.

(** A pointer-down followed by pointer moves, the canvas staying in place. *)
Definition dragThrough (rect : OrientationCube.Rect)
  (start : OrientationCube.PointerEvent) (moves : list OrientationCube.PointerEvent)
  (d : OrientationCube.Drag) (v : ThreeCanvas.Viewer)
  : OrientationCube.Drag * ThreeCanvas.Viewer :=
  fold_left (fun acc e => OrientationCube.dragCube rect e (fst acc) (snd acc))
            moves (OrientationCube.onPointerDown rect start d, v).

End CubeFaces.

(** ** Further notions the properties are stated with *)
Module MoreNotions.

Import THREE ThreeCanvas.

(** No two neighbours of a list are equal. *)
Definition noAdjacentDuplicates (l : list string) : Prop :=
  forall i first second,
    l !! i = Some first -> l !! S i = Some second -> first <> second.

(** The points [snapToFeature] can snap to: the three vertices of the hit
    triangle and the nearest point of each of its edges. *)
Definition candidatePoints (fc : Face) (obj : Object3D) (pt : Vector3) : list Vector3 :=
  let vA := localToWorld obj (fromBufferAttribute obj (a fc)) in
  let vB := localToWorld obj (fromBufferAttribute obj (b fc)) in
  let vC := localToWorld obj (fromBufferAttribute obj (c fc)) in
  [ vA; vB; vC;
    closestPointToPoint vA vB pt true;
    closestPointToPoint vB vC pt true;
    closestPointToPoint vC vA pt true ].

(** The running pair of [snapToFeature] is consistent: the point is a
    candidate at the recorded distance. *)
Definition snapPairOk (fc : Face) (obj : Object3D) (pt : Vector3)
  (acc : option R * Vector3) : Prop :=
  match fst acc with
  | None => True
  | Some m => In (snd acc) (candidatePoints fc obj pt)
              /\ distanceTo (snd acc) pt = m
  end.

(** The world quaternion of the parent of a node, when it has one, is of
    unit length. *)
Definition parentUnit (child : Object3D) : Prop :=
  match parentWorldQuaternion child with
  | Some q => Notions.unitQuaternion q
  | None => True
  end.

(** Every stored explosion direction is of unit length. *)
Definition directionsUnit (refs : Refs) : Prop :=
  forall k dir, explosionVectors refs !! k = Some dir -> lengthSq dir = 1.

(** Every mesh of the scene is within [eps] of its exploded position, which
    lies [dist] away from its stored baseline. *)
Definition nearExploded (refs : Refs) (dist eps : R) (scene : Scene) : Prop :=
  Forall (fun child =>
            isMesh child = true ->
            exists base dir,
              originalPositions refs !! uuid child = Some base
              /\ explosionVectors refs !! uuid child = Some dir
              /\ distanceTo (targetPos base dir dist) base = dist
              /\ distanceTo (position child) (targetPos base dir dist) < eps) scene.

(** The second refs hold every entry of the three maps of the first. *)
Definition capturesKept (refs1 refs2 : Refs) : Prop :=
  (forall k v, originalPositions refs1 !! k = Some v ->
               originalPositions refs2 !! k = Some v)
  /\ (forall k v, explosionVectors refs1 !! k = Some v ->
                 explosionVectors refs2 !! k = Some v)
  /\ (forall k v, originalMaterials refs1 !! k = Some v ->
                 originalMaterials refs2 !! k = Some v).

(** A colour with all three channels above 0.92. *)
Definition nearWhiteColor (col : Color) : Prop :=
  r col > 0.92 /\ g col > 0.92 /\ THREE.b col > 0.92.

(** A mesh shows the colour of the material another node was loaded with. *)
Definition showsLoadedColor (loaded shown : Object3D) : Prop :=
  isMesh loaded = true ->
  exists m0 m',
    material loaded = Some m0 /\ material shown = Some m'
    /\ color m' = color m0.

(** What the toolbar, the cube, a view request and a model-ready event can
    do to the viewer, one at a time; each comes with what its call of
    [controls.update()] does. *)
Inductive ViewerAction : Type :=
| ZoomIn (update : Update)
| ZoomOut (update : Update)
| ResetView (update : Update)
| ViewChange (update : Update) (view : string)
| ModelReady (update : Update) (model : Model) (maxDim : R)
| CubeRotate (rot : Euler).

Definition applyAction (v : Viewer) (action : ViewerAction) : Viewer :=
  match action with
  | ZoomIn update => ViewerControls.handleZoomIn update v
  | ZoomOut update => ViewerControls.handleZoomOut update v
  | ResetView update => ViewerControls.handleResetView update v
  | ViewChange update view => handleViewChange update view v
  | ModelReady update model maxDim => handleModelReady update model maxDim v
  | CubeRotate rot => handleCubeRotate rot v
  end.

(** The sides of the triangle of three points and the diameter the label
    of three points prints. *)
Definition shownDiameter (p1 p2 p3 : Vector3) : R :=
  let la := distanceTo p1 p2 in
  let lb := distanceTo p2 p3 in
  let lc := distanceTo p3 p1 in
  (la * lb * lc) / (4 * heronArea la lb lc) * 2.

End MoreNotions.

(** ** The label of three points in the arithmetic of JavaScript

    The numbers of JavaScript are IEEE 754 binary64 values and its operators
    round to nearest; [PrimFloat] is that arithmetic.  This is the three-point
    branch of the label effect of [MeasurementMarkers] once more, every
    operation being the rounded one. *)
Module Binary64.

Open Scope float_scope.

Record Vector3 : Type := mkVector3 { x : float; y : float; z : float }.

Definition add (a b : Vector3) : Vector3 :=
  mkVector3 (x a + x b) (y a + y b) (z a + z b).

Definition multiplyScalar (v : Vector3) (s : float) : Vector3 :=
  mkVector3 (x v * s) (y v * s) (z v * s).

(** [divideScalar(s)] is [multiplyScalar(1 / s)]. *)
Definition divideScalar (v : Vector3) (s : float) : Vector3 :=
  multiplyScalar v (1 / s).

Definition distanceToSquared (a b : Vector3) : float :=
  let dx := x a - x b in
  let dy := y a - y b in
  let dz := z a - z b in
  dx * dx + dy * dy + dz * dz.

Definition distanceTo (a b : Vector3) : float :=
  PrimFloat.sqrt (distanceToSquared a b).

(** What the literal [0.0001] denotes: the binary64 value nearest to it. *)
Definition epsilon : float := 0x1.a36e2eb1c432dp-14.

Definition heronArea (la lb lc : float) : float :=
  let s := (la + lb + lc) / 2 in
  PrimFloat.sqrt (s * (s - la) * (s - lb) * (s - lc)).

(** A label: its anchor and the number handed to [toFixed(2)]. *)
Record Label : Type := mkLabel { pos : Vector3; diameter : float }.

Definition diameterLabels (p1 p2 p3 : Vector3) : list Label :=
  let la := distanceTo p1 p2 in
  let lb := distanceTo p2 p3 in
  let lc := distanceTo p3 p1 in
  let area := heronArea la lb lc in
  if PrimFloat.ltb epsilon area then
    let R := (la * lb * lc) / (4 * area) in
    let center := divideScalar (add (add p1 p2) p3) 3 in
    [ {| pos := center; diameter := R * 2 |} ]
  else [].

End Binary64.

(** * Properties *)

(** ** The measurement buffer of the store *)

Section StoreProperties.

Import UIStore.

Lemma addMeasurePoint_points (pt : MeasurePoint) (state : State) :
  measurePoints (addMeasurePoint pt state) =
  if (2 <=? List.length (measurePoints state))%nat then [pt]
  else measurePoints state ++ [pt].
Proof. reflexivity. Qed.

Lemma addMeasurePoint_bound (pt : MeasurePoint) (state : State) :
  (List.length (measurePoints (addMeasurePoint pt state)) <= 2)%nat.
Proof.
  rewrite addMeasurePoint_points.
  destruct (Nat.leb_spec 2 (List.length (measurePoints state))) as [Hge | Hlt].
  - simpl. lia.
  - rewrite length_app. simpl. lia.
Qed.

Lemma addMeasurePoint_full (pt : MeasurePoint) (state : State) :
  List.length (measurePoints state) = 2%nat ->
  measurePoints (addMeasurePoint pt state) = [pt].
Proof.
  intros Hlen. rewrite addMeasurePoint_points, Hlen. reflexivity.
Qed.

Lemma step_bound (state : State) (c : Call) :
  (List.length (measurePoints state) <= 2)%nat ->
  (List.length (measurePoints (step state c)) <= 2)%nat.
Proof.
  intros _. destruct c as [pt | active]; simpl.
  - apply addMeasurePoint_bound.
  - lia.
Qed.

Lemma run_bound (calls : list Call) :
  forall state : State,
    (List.length (measurePoints state) <= 2)%nat ->
    (List.length (measurePoints (run calls state)) <= 2)%nat.
Proof.
  induction calls as [| c calls IH]; intros state Hstate.
  - exact Hstate.
  - simpl. apply IH. apply step_bound. exact Hstate.
Qed.

Lemma pushAll_run (pts : list MeasurePoint) (state : State) :
  pushAll pts state = run (List.map CallAddMeasurePoint pts) state.
Proof.
  revert state. induction pts as [| pt pts IH]; intros state.
  - reflexivity.
  - simpl. apply IH.
Qed.

Lemma pushAll_bound (pts : list MeasurePoint) :
  (List.length (measurePoints (pushAll pts initial)) <= 2)%nat.
Proof.
  rewrite pushAll_run. apply run_bound. simpl. lia.
Qed.

End StoreProperties.

(** C1, as the code has it: for every sequence of [addMeasurePoint] calls
    from the empty buffer the buffer holds at most 2 points, two pushes fill
    it, and a push made while 2 points are stored leaves exactly the new
    point. *)
Theorem addMeasurePoint_capacity_two :
  forall pts : list UIStore.MeasurePoint,
    let state := UIStore.pushAll pts UIStore.initial in
    (List.length (UIStore.measurePoints state) <= 2)%nat
    /\ (forall p1 p2,
          UIStore.measurePoints (UIStore.pushAll [p1; p2] UIStore.initial) = [p1; p2])
    /\ (forall pt,
          List.length (UIStore.measurePoints state) = 2%nat ->
          UIStore.measurePoints (UIStore.addMeasurePoint pt state) = [pt]).
Proof.
  intros pts state. split; [| split].
  - apply pushAll_bound.
  - reflexivity.
  - intros pt Hlen. apply addMeasurePoint_full. exact Hlen.
Qed.

Lemma addMeasurePoint_capacity_two_witness :
  UIStore.measurePoints
    (UIStore.addMeasurePoint (Samples.samplePoint 3)
       (UIStore.pushAll [Samples.samplePoint 1; Samples.samplePoint 2] UIStore.initial))
  = [Samples.samplePoint 3].
Proof.
  apply (addMeasurePoint_capacity_two [Samples.samplePoint 1; Samples.samplePoint 2]).
  reflexivity.
Defined.

(** C1, refuted as stated: no sequence of pushes from the empty buffer
    stores 3 points; the third push already leaves only the new point. *)
Lemma buffer_never_holds_three :
  (~ exists pts : list UIStore.MeasurePoint,
       List.length (UIStore.measurePoints (UIStore.pushAll pts UIStore.initial)) = 3%nat)
  /\ UIStore.measurePoints
       (UIStore.pushAll
          [Samples.samplePoint 1; Samples.samplePoint 2; Samples.samplePoint 3]
          UIStore.initial)
     = [Samples.samplePoint 3].
Proof.
  split.
  - intros [pts Hlen]. pose proof (pushAll_bound pts) as Hle. lia.
  - reflexivity.
Qed.

(** C10: from the initial state, after any sequence of [addMeasurePoint] and
    [setMeasureMode] calls the buffer holds at most 2 points; a push made
    while 2 points are stored replaces the buffer by the new point alone;
    [setMeasureMode], enabling or disabling, empties the buffer. *)
Theorem measure_buffer_invariant :
  forall calls : list UIStore.Call,
    let state := UIStore.run calls UIStore.initial in
    (List.length (UIStore.measurePoints state) <= 2)%nat
    /\ (forall pt,
          List.length (UIStore.measurePoints state) = 2%nat ->
          UIStore.measurePoints (UIStore.addMeasurePoint pt state) = [pt])
    /\ (forall active,
          UIStore.measurePoints (UIStore.setMeasureMode active state) = []).
Proof.
  intros calls state. split; [| split].
  - apply run_bound. simpl. lia.
  - intros pt Hlen. apply addMeasurePoint_full. exact Hlen.
  - intros active. reflexivity.
Qed.

Lemma measure_buffer_invariant_witness :
  UIStore.measurePoints
    (UIStore.addMeasurePoint (Samples.samplePoint 3)
       (UIStore.run [UIStore.CallSetMeasureMode true;
                     UIStore.CallAddMeasurePoint (Samples.samplePoint 1);
                     UIStore.CallAddMeasurePoint (Samples.samplePoint 2)] UIStore.initial))
  = [Samples.samplePoint 3].
Proof.
  apply (measure_buffer_invariant
           [UIStore.CallSetMeasureMode true;
            UIStore.CallAddMeasurePoint (Samples.samplePoint 1);
            UIStore.CallAddMeasurePoint (Samples.samplePoint 2)]).
  reflexivity.
Defined.

(** ** Vectors and distances *)

Section VectorFacts.

Import THREE.

Lemma distanceToSquared_nonneg (p q : Vector3) : 0 <= distanceToSquared p q.
Proof.
  unfold distanceToSquared. cbv zeta.
  pose proof (Rle_0_sqr (x p - x q)) as Hx.
  pose proof (Rle_0_sqr (y p - y q)) as Hy.
  pose proof (Rle_0_sqr (z p - z q)) as Hz.
  unfold Rsqr in Hx, Hy, Hz. lra.
Qed.

Lemma distanceTo_nonneg (p q : Vector3) : 0 <= distanceTo p q.
Proof. apply sqrt_pos. Qed.

Lemma distanceTo_square (p q : Vector3) :
  distanceTo p q * distanceTo p q = distanceToSquared p q.
Proof. apply sqrt_sqrt. apply distanceToSquared_nonneg. Qed.

(** A distance is at least [t] as soon as its square is at least [t * t]. *)
Lemma distanceTo_lower (p q : Vector3) (t : R) :
  0 <= t -> t * t <= distanceToSquared p q -> t <= distanceTo p q.
Proof.
  intros Ht Hsq. unfold distanceTo.
  rewrite <- (sqrt_square t Ht). apply sqrt_le_1_alt. exact Hsq.
Qed.

(** A distance is [t] as soon as its square is [t * t]. *)
Lemma distanceTo_exact (p q : Vector3) (t : R) :
  0 <= t -> distanceToSquared p q = t * t -> distanceTo p q = t.
Proof.
  intros Ht Hsq. unfold distanceTo. rewrite Hsq. apply sqrt_square. exact Ht.
Qed.

Lemma clamp_inside (t : R) : 0 <= t <= 1 -> clamp t 0 1 = t.
Proof.
  intros [H0 H1]. unfold clamp.
  rewrite (Rmin_right 1 t H1). apply Rmax_right. exact H0.
Qed.

End VectorFacts.

(** ** Snapping a hit to a feature *)

Section SnapProperties.

Import THREE ThreeCanvas Notions.

Variables (fc : Face) (obj : Object3D) (pt : Vector3).

Lemma checkVertex_among (acc : option R * Vector3) (v : Vector3) :
  In (distanceTo v pt) (featureDistances fc obj pt) ->
  amongFeatures fc obj pt acc -> amongFeatures fc obj pt (checkVertex pt acc v).
Proof.
  intros Hin Hacc. unfold checkVertex.
  destruct (ltMin (distanceTo v pt) (fst acc)); [exact Hin | exact Hacc].
Qed.

Lemma checkEdge_among (acc : option R * Vector3) (edge : Vector3 * Vector3) :
  In (distanceTo (closestPointToPoint (fst edge) (snd edge) pt true) pt)
     (featureDistances fc obj pt) ->
  amongFeatures fc obj pt acc -> amongFeatures fc obj pt (checkEdge pt acc edge).
Proof.
  intros Hin Hacc. unfold checkEdge.
  destruct (fst acc) as [m |] eqn:Hm.
  - destruct (Rlt_dec _ (m * 0.9)).
    + exact Hin.
    + unfold Notions.amongFeatures. rewrite Hm.
      unfold Notions.amongFeatures in Hacc. rewrite Hm in Hacc. exact Hacc.
  - exact Hin.
Qed.

Lemma snapCandidate_among : amongFeatures fc obj pt (snapCandidate fc obj pt).
Proof.
  unfold snapCandidate. cbn [fold_left].
  repeat (apply checkEdge_among; [cbn [fst snd featureDistances In]; tauto |]).
  repeat (apply checkVertex_among; [cbn [featureDistances In]; tauto |]).
  exact I.
Qed.

End SnapProperties.

Section SnapReach.

Import THREE ThreeCanvas Notions.

Variable pt : Vector3.

(** A vertex just checked bounds the running minimum. *)
Lemma checkVertex_reaches (acc : option R * Vector3) (v : Vector3) :
  minAtMost (checkVertex pt acc v) (distanceTo v pt).
Proof.
  unfold minAtMost, checkVertex, ltMin. cbv zeta.
  destruct (fst acc) as [m |] eqn:Hm.
  - destruct (Rlt_dec (distanceTo v pt) m) as [Hlt | Hge].
    + cbn [fst]. lra.
    + rewrite Hm. lra.
  - cbn [fst]. lra.
Qed.

Lemma checkVertex_keeps_bound (acc : option R * Vector3) (v : Vector3) (d : R) :
  minAtMost acc d -> minAtMost (checkVertex pt acc v) d.
Proof.
  unfold minAtMost, checkVertex, ltMin. cbv zeta.
  destruct (fst acc) as [m |] eqn:Hm; [| contradiction].
  intros Hle. destruct (Rlt_dec (distanceTo v pt) m) as [Hlt | Hge].
  - cbn [fst]. lra.
  - rewrite Hm. exact Hle.
Qed.

Lemma checkEdge_keeps_bound (acc : option R * Vector3) (edge : Vector3 * Vector3)
  (d : R) :
  minAtMost acc d -> minAtMost (checkEdge pt acc edge) d.
Proof.
  unfold minAtMost, checkEdge. cbv zeta.
  destruct (fst acc) as [m |] eqn:Hm; [| contradiction].
  intros Hle.
  pose proof (distanceTo_nonneg
                (closestPointToPoint (fst edge) (snd edge) pt true) pt) as Hpos.
  destruct (Rlt_dec _ (m * 0.9)) as [Hlt | Hge].
  - cbn [fst]. lra.
  - rewrite Hm. exact Hle.
Qed.

(** An edge just checked bounds 90% of the running minimum. *)
Lemma checkEdge_reaches (acc : option R * Vector3) (edge : Vector3 * Vector3) :
  minWithinBias (checkEdge pt acc edge)
    (distanceTo (closestPointToPoint (fst edge) (snd edge) pt true) pt).
Proof.
  unfold minWithinBias, checkEdge. cbv zeta.
  pose proof (distanceTo_nonneg
                (closestPointToPoint (fst edge) (snd edge) pt true) pt) as Hpos.
  destruct (fst acc) as [m |] eqn:Hm.
  - destruct (Rlt_dec _ (m * 0.9)) as [Hlt | Hge].
    + cbn [fst]. lra.
    + rewrite Hm. lra.
  - cbn [fst]. lra.
Qed.

Lemma checkEdge_keeps_bias (acc : option R * Vector3) (edge : Vector3 * Vector3)
  (d : R) :
  minWithinBias acc d -> minWithinBias (checkEdge pt acc edge) d.
Proof.
  unfold minWithinBias, checkEdge. cbv zeta.
  destruct (fst acc) as [m |] eqn:Hm; [| contradiction].
  intros Hle.
  pose proof (distanceTo_nonneg
                (closestPointToPoint (fst edge) (snd edge) pt true) pt) as Hpos.
  destruct (Rlt_dec _ (m * 0.9)) as [Hlt | Hge].
  - cbn [fst]. lra.
  - rewrite Hm. exact Hle.
Qed.

(** After both loops the running minimum is at most every vertex distance,
    and 90% of it are at most every edge distance. *)
Lemma snapCandidate_vertex_bound (fc : Face) (obj : Object3D) (d : R) :
  In d (vertexDistances fc obj pt) -> minAtMost (snapCandidate fc obj pt) d.
Proof.
  unfold vertexDistances, featureDistances, snapCandidate. cbv zeta.
  cbn [firstn In fold_left].
  intros [<- | [<- | [<- | []]]]; do 3 apply checkEdge_keeps_bound.
  - do 2 apply checkVertex_keeps_bound. apply checkVertex_reaches.
  - apply checkVertex_keeps_bound. apply checkVertex_reaches.
  - apply checkVertex_reaches.
Qed.

Lemma snapCandidate_edge_bound (fc : Face) (obj : Object3D) (d : R) :
  In d (edgeDistances fc obj pt) -> minWithinBias (snapCandidate fc obj pt) d.
Proof.
  unfold edgeDistances, featureDistances, snapCandidate. cbv zeta.
  cbn [skipn In fold_left].
  intros [<- | [<- | [<- | []]]].
  - do 2 apply checkEdge_keeps_bias.
    apply (checkEdge_reaches _ (_, _)).
  - apply checkEdge_keeps_bias. apply (checkEdge_reaches _ (_, _)).
  - apply (checkEdge_reaches _ (_, _)).
Qed.

End SnapReach.

Section SnapLanding.

Import THREE ThreeCanvas MoreNotions.

Variables (fc : Face) (obj : Object3D) (pt : Vector3).

Lemma checkVertex_pair (acc : option R * Vector3) (v : Vector3) :
  In v (candidatePoints fc obj pt) ->
  snapPairOk fc obj pt acc -> snapPairOk fc obj pt (checkVertex pt acc v).
Proof.
  intros Hin Hacc. unfold checkVertex.
  destruct (ltMin (distanceTo v pt) (fst acc)); [| exact Hacc].
  split; [exact Hin | reflexivity].
Qed.

Lemma checkEdge_pair (acc : option R * Vector3) (edge : Vector3 * Vector3) :
  In (closestPointToPoint (fst edge) (snd edge) pt true) (candidatePoints fc obj pt) ->
  snapPairOk fc obj pt acc -> snapPairOk fc obj pt (checkEdge pt acc edge).
Proof.
  intros Hin Hacc. unfold checkEdge.
  destruct (fst acc) as [m |] eqn:Hm.
  - destruct (Rlt_dec _ (m * 0.9)).
    + split; [exact Hin | reflexivity].
    + exact Hacc.
  - split; [exact Hin | reflexivity].
Qed.

Lemma snapCandidate_pair : snapPairOk fc obj pt (snapCandidate fc obj pt).
Proof.
  unfold snapCandidate. cbn [fold_left].
  repeat (apply checkEdge_pair; [cbn [fst snd candidatePoints In]; tauto |]).
  repeat (apply checkVertex_pair; [cbn [candidatePoints In]; tauto |]).
  exact I.
Qed.

End SnapLanding.

(** When every feature is at or beyond the threshold, the hit point is
    returned as it came. *)
Lemma snapToFeature_far_hit
  (intersect : ThreeCanvas.ThreeEvent) (cam : ThreeCanvas.PerspectiveCamera) :
  (forall fc obj,
     ThreeCanvas.face intersect = Some fc ->
     ThreeCanvas.object intersect = Some obj ->
     Forall (fun d => ThreeCanvas.snapThreshold cam (ThreeCanvas.point intersect) <= d)
            (Notions.featureDistances fc obj (ThreeCanvas.point intersect))) ->
  ThreeCanvas.snapToFeature intersect cam = ThreeCanvas.point intersect.
Proof.
  intros Hfar. unfold ThreeCanvas.snapToFeature.
  destruct (ThreeCanvas.face intersect) as [fc |] eqn:Hface; [| reflexivity].
  destruct (ThreeCanvas.object intersect) as [obj |] eqn:Hobj; [| reflexivity].
  pose proof (snapCandidate_among fc obj (ThreeCanvas.point intersect)) as Hamong.
  destruct (ThreeCanvas.snapCandidate fc obj (ThreeCanvas.point intersect))
    as [[m |] closest]; [| reflexivity].
  unfold Notions.amongFeatures in Hamong. cbn [fst] in Hamong.
  specialize (Hfar fc obj eq_refl eq_refl).
  rewrite List.Forall_forall in Hfar. specialize (Hfar m Hamong).
  destruct (Rlt_dec m (ThreeCanvas.snapThreshold cam (ThreeCanvas.point intersect)))
    as [Hlt | _]; [lra | reflexivity].
Qed.

(** A running minimum below the threshold makes [snapToFeature] return
    the candidate point that goes with it. *)
Lemma snapToFeature_near_hit
  (intersect : ThreeCanvas.ThreeEvent) (cam : ThreeCanvas.PerspectiveCamera)
  (fc : ThreeCanvas.Face) (obj : ThreeCanvas.Object3D) (m : R) :
  ThreeCanvas.face intersect = Some fc ->
  ThreeCanvas.object intersect = Some obj ->
  fst (ThreeCanvas.snapCandidate fc obj (ThreeCanvas.point intersect)) = Some m ->
  m < ThreeCanvas.snapThreshold cam (ThreeCanvas.point intersect) ->
  In (ThreeCanvas.snapToFeature intersect cam)
     (MoreNotions.candidatePoints fc obj (ThreeCanvas.point intersect))
  /\ THREE.distanceTo (ThreeCanvas.snapToFeature intersect cam)
       (ThreeCanvas.point intersect) = m.
Proof.
  intros Hface Hobj Hmin Hnear. unfold ThreeCanvas.snapToFeature.
  rewrite Hface, Hobj.
  pose proof (snapCandidate_pair fc obj (ThreeCanvas.point intersect)) as Hpair.
  unfold MoreNotions.snapPairOk in Hpair. rewrite Hmin in Hpair.
  destruct (ThreeCanvas.snapCandidate fc obj (ThreeCanvas.point intersect))
    as [minMsgDist closest].
  cbn [fst snd] in *. subst minMsgDist.
  destruct (Rlt_dec m (ThreeCanvas.snapThreshold cam (ThreeCanvas.point intersect)))
    as [_ | Hno]; [exact Hpair | contradiction].
Qed.

(** C6: the snap threshold is exactly 2% of the distance from the camera to
    the hit point, so a camera twice as far has twice the threshold.  When
    every candidate feature of the hit triangle (vertex or nearest edge point)
    lies at or beyond the threshold, [snapToFeature] returns the hit point
    itself; when a vertex lies nearer than the threshold, or the nearest point
    of an edge nearer than 90% of it, [snapToFeature] returns one of the six
    candidate points instead, one that is nearer than the threshold, and at
    least as near as every vertex. *)
Theorem snapToFeature_threshold :
  forall (intersect : ThreeCanvas.ThreeEvent) (cam cam' : ThreeCanvas.PerspectiveCamera),
    let pt := ThreeCanvas.point intersect in
    let threshold := ThreeCanvas.snapThreshold cam pt in
    let snapped := ThreeCanvas.snapToFeature intersect cam in
    threshold = 0.02 * THREE.distanceTo (ThreeCanvas.camPosition cam) pt
    /\ (THREE.distanceTo (ThreeCanvas.camPosition cam') pt
          = 2 * THREE.distanceTo (ThreeCanvas.camPosition cam) pt ->
        ThreeCanvas.snapThreshold cam' pt = 2 * threshold)
    /\ ((forall fc obj,
           ThreeCanvas.face intersect = Some fc ->
           ThreeCanvas.object intersect = Some obj ->
           Forall (fun d => threshold <= d) (Notions.featureDistances fc obj pt)) ->
        snapped = pt)
    /\ (forall fc obj d,
          ThreeCanvas.face intersect = Some fc ->
          ThreeCanvas.object intersect = Some obj ->
          (In d (Notions.vertexDistances fc obj pt) /\ d < threshold)
          \/ (In d (Notions.edgeDistances fc obj pt) /\ d < threshold * 0.9) ->
          In snapped (MoreNotions.candidatePoints fc obj pt)
          /\ THREE.distanceTo snapped pt < threshold
          /\ Forall (fun dv => THREE.distanceTo snapped pt <= dv)
                    (Notions.vertexDistances fc obj pt)).
Proof.
  intros intersect cam cam' pt threshold snapped. split; [| split; [| split]].
  - unfold threshold, ThreeCanvas.snapThreshold. lra.
  - intros Hdouble. unfold threshold, ThreeCanvas.snapThreshold. rewrite Hdouble. lra.
  - intros Hfar. apply snapToFeature_far_hit. exact Hfar.
  - intros fc obj d Hface Hobj Hnear.
    assert (Hvertices : forall dv,
               In dv (Notions.vertexDistances fc obj pt) ->
               Notions.minAtMost (ThreeCanvas.snapCandidate fc obj pt) dv).
    { intros dv Hdv. apply snapCandidate_vertex_bound. exact Hdv. }
    assert (Hmin : exists m,
               fst (ThreeCanvas.snapCandidate fc obj pt) = Some m /\ m < threshold).
    { destruct Hnear as [[Hin Hlt] | [Hin Hlt]].
      - pose proof (Hvertices d Hin) as Hbound. unfold Notions.minAtMost in Hbound.
        destruct (fst (ThreeCanvas.snapCandidate fc obj pt)) as [m |];
          [| contradiction].
        exists m. split; [reflexivity | lra].
      - pose proof (snapCandidate_edge_bound pt fc obj d Hin) as Hbound.
        unfold Notions.minWithinBias in Hbound.
        destruct (fst (ThreeCanvas.snapCandidate fc obj pt)) as [m |];
          [| contradiction].
        exists m. split; [reflexivity | lra]. }
    destruct Hmin as [m [Hmin Hlt]].
    destruct (snapToFeature_near_hit intersect cam fc obj m Hface Hobj Hmin Hlt)
      as [Hin Hdist].
    fold snapped pt in Hin, Hdist.
    split; [exact Hin |]. split; [rewrite Hdist; exact Hlt |].
    apply List.Forall_forall. intros dv Hdv.
    pose proof (Hvertices dv Hdv) as Hbound. unfold Notions.minAtMost in Hbound.
    rewrite Hmin in Hbound. rewrite Hdist. exact Hbound.
Qed.

(** *** A concrete hit: the sample triangle seen from [(1, 1, 10)] *)

Ltac vec_unfold :=
  unfold THREE.closestPointToPoint, THREE.closestPointToPointParameter,
    THREE.distanceToSquared, THREE.divideScalar, THREE.add,
    THREE.multiplyScalar, THREE.lengthSq, THREE.cross, THREE.subVectors,
    THREE.dot, THREE.lerp;
  cbn [THREE.x THREE.y THREE.z].

Section SampleHit.

Import THREE ThreeCanvas Notions Samples.

Lemma applyMatrix4_translation (v : Vector3) (tx ty tz : R) :
  applyMatrix4 v (makeTranslation tx ty tz) = add v (mkVector3 tx ty tz).
Proof.
  unfold applyMatrix4, makeTranslation, add. cbn. f_equal; field.
Qed.

Lemma localToWorld_identity (v : Vector3) :
  localToWorld (triangleMesh identityMatrix) v = v.
Proof.
  unfold localToWorld, identityMatrix. cbn [matrixWorld triangleMesh].
  rewrite applyMatrix4_translation. destruct v as [vx vy vz].
  unfold add. cbn. f_equal; lra.
Qed.

Lemma closest_on_AB :
  closestPointToPoint (mkVector3 0 0 0) (mkVector3 4 0 0) (mkVector3 1 1 0) true
  = mkVector3 1 0 0.
Proof.
  unfold closestPointToPoint, closestPointToPointParameter.
  rewrite clamp_inside; vec_unfold; [f_equal; lra | lra].
Qed.

Lemma closest_on_BC :
  closestPointToPoint (mkVector3 4 0 0) (mkVector3 0 4 0) (mkVector3 1 1 0) true
  = mkVector3 2 2 0.
Proof.
  unfold closestPointToPoint, closestPointToPointParameter.
  rewrite clamp_inside; vec_unfold; [f_equal; lra | lra].
Qed.

Lemma closest_on_CA :
  closestPointToPoint (mkVector3 0 4 0) (mkVector3 0 0 0) (mkVector3 1 1 0) true
  = mkVector3 0 1 0.
Proof.
  unfold closestPointToPoint, closestPointToPointParameter.
  rewrite clamp_inside; vec_unfold; [f_equal; lra | lra].
Qed.

Lemma camera_ten_away :
  distanceTo (mkVector3 1 1 10) (mkVector3 1 1 0) = 10.
Proof. apply distanceTo_exact; [lra | vec_unfold; lra]. Qed.

Lemma camera_twenty_away :
  distanceTo (mkVector3 1 1 20) (mkVector3 1 1 0) = 20.
Proof. apply distanceTo_exact; [lra | vec_unfold; lra]. Qed.

Lemma hitInside_features_far :
  Forall (fun d => snapThreshold (cameraAt 1 1 10) (mkVector3 1 1 0) <= d)
         (featureDistances triangleFace (triangleMesh identityMatrix) (mkVector3 1 1 0)).
Proof.
  unfold snapThreshold, featureDistances.
  cbn [camPosition cameraAt a b c triangleFace fromBufferAttribute positions
       triangleMesh trianglePositions].
  rewrite !localToWorld_identity, camera_ten_away.
  rewrite closest_on_AB, closest_on_BC, closest_on_CA.
  repeat (apply List.Forall_cons;
          [apply distanceTo_lower; [lra | vec_unfold; lra] |]).
  apply List.Forall_nil.
Qed.

(** The hit near the corner: the corner is 0.5 away, the threshold is 1. *)
Lemma corner_within_threshold :
  In 0.5 (vertexDistances triangleFace (triangleMesh identityMatrix)
            (point hitNearCorner))
  /\ 0.5 < snapThreshold (cameraAt 0.3 0.4 50) (point hitNearCorner).
Proof.
  split.
  - unfold vertexDistances, featureDistances. cbv zeta. cbn [firstn In].
    left. cbn [a triangleFace fromBufferAttribute positions triangleMesh
               trianglePositions point hitNearCorner].
    rewrite localToWorld_identity.
    apply distanceTo_exact; [lra | vec_unfold; lra].
  - unfold snapThreshold. cbn [camPosition cameraAt point hitNearCorner].
    replace (distanceTo (mkVector3 0.3 0.4 50) (mkVector3 0.3 0.4 0)) with 50
      by (symmetry; apply distanceTo_exact; [lra | vec_unfold; lra]).
    lra.
Qed.

End SampleHit.

Lemma snapToFeature_threshold_witness :
  ThreeCanvas.snapThreshold (Samples.cameraAt 1 1 20) (THREE.mkVector3 1 1 0)
    = 2 * ThreeCanvas.snapThreshold (Samples.cameraAt 1 1 10) (THREE.mkVector3 1 1 0)
  /\ ThreeCanvas.snapToFeature Samples.hitInside (Samples.cameraAt 1 1 10)
     = THREE.mkVector3 1 1 0
  /\ In (ThreeCanvas.snapToFeature Samples.hitNearCorner (Samples.cameraAt 0.3 0.4 50))
        (MoreNotions.candidatePoints Samples.triangleFace
           (Samples.triangleMesh Samples.identityMatrix) (THREE.mkVector3 0.3 0.4 0)).
Proof.
  split; [| split].
  - destruct (snapToFeature_threshold Samples.hitInside
                (Samples.cameraAt 1 1 10) (Samples.cameraAt 1 1 20))
      as [_ [Hdouble _]].
    apply Hdouble. cbn. rewrite camera_ten_away, camera_twenty_away. lra.
  - destruct (snapToFeature_threshold Samples.hitInside
                (Samples.cameraAt 1 1 10) (Samples.cameraAt 1 1 20))
      as [_ [_ [Hfar _]]].
    apply Hfar. intros fc obj Hfc Hobj.
    cbn in Hfc, Hobj. injection Hfc as <-. injection Hobj as <-.
    exact hitInside_features_far.
  - destruct (snapToFeature_threshold Samples.hitNearCorner
                (Samples.cameraAt 0.3 0.4 50) (Samples.cameraAt 0.3 0.4 50))
      as [_ [_ [_ Hnear]]].
    destruct (Hnear Samples.triangleFace (Samples.triangleMesh Samples.identityMatrix)
                0.5 eq_refl eq_refl) as [Hin _]; [| exact Hin].
    left. exact corner_within_threshold.
Defined.

(** ** Explode mode: the damped approach to the target *)

Section ExplodeProperties.

Import THREE ThreeCanvas Notions.

(** With the flag off the target is the stored baseline itself. *)
Lemma targetPos_off (refs : Refs) (originalPos direction : Vector3) :
  targetPos originalPos direction (expandDist false refs) = originalPos.
Proof.
  unfold targetPos, expandDist. cbv zeta. destruct originalPos as [ox oy oz].
  vec_unfold. f_equal; ring.
Qed.

(** One [lerp] by 0.1 leaves 90% of the distance to the target. *)
Lemma lerp_contracts (p t : Vector3) :
  distanceTo (lerp p t 0.1) t = 0.9 * distanceTo p t.
Proof.
  unfold distanceTo.
  replace (distanceToSquared (lerp p t 0.1) t)
    with ((0.9 * 0.9) * distanceToSquared p t)
    by (vec_unfold; cbv zeta; lra).
  rewrite sqrt_mult_alt by lra.
  rewrite sqrt_square by lra. reflexivity.
Qed.

Lemma explodeChild_uuid (mode : bool) (refs : Refs) (child : Object3D) :
  uuid (explodeChild mode refs child) = uuid child.
Proof.
  unfold explodeChild. destruct (isMesh child); [| reflexivity].
  destruct (originalPositions refs !! uuid child); [| reflexivity].
  destruct (explosionVectors refs !! uuid child); reflexivity.
Qed.

Lemma explodeChild_isMesh (mode : bool) (refs : Refs) (child : Object3D) :
  isMesh (explodeChild mode refs child) = isMesh child.
Proof.
  unfold explodeChild. destruct (isMesh child) eqn:Hmesh; [| exact Hmesh].
  destruct (originalPositions refs !! uuid child); [| exact Hmesh].
  destruct (explosionVectors refs !! uuid child); [exact Hmesh | exact Hmesh].
Qed.

Lemma explodeChild_iter_uuid (mode : bool) (refs : Refs) (n : nat) (child : Object3D) :
  uuid (Nat.iter n (explodeChild mode refs) child) = uuid child
  /\ isMesh (Nat.iter n (explodeChild mode refs) child) = isMesh child.
Proof.
  induction n as [| n [IHu IHm]]; [split; reflexivity |].
  rewrite Nat.iter_succ, explodeChild_uuid, explodeChild_isMesh.
  split; assumption.
Qed.

(** One frame with the flag off, on a mesh that has its two entries. *)
Lemma explodeChild_off_position (refs : Refs) (child : Object3D) (base dir : Vector3) :
  isMesh child = true ->
  originalPositions refs !! uuid child = Some base ->
  explosionVectors refs !! uuid child = Some dir ->
  position (explodeChild false refs child) = lerp (position child) base 0.1.
Proof.
  intros Hmesh Hbase Hdir. unfold explodeChild.
  rewrite Hmesh, Hbase, Hdir, targetPos_off. reflexivity.
Qed.

(** After [n] frames with the flag off, [0.9 ^ n] of the distance is left. *)
Lemma explodeChild_off_iter (refs : Refs) (child : Object3D) (base dir : Vector3) (n : nat) :
  isMesh child = true ->
  originalPositions refs !! uuid child = Some base ->
  explosionVectors refs !! uuid child = Some dir ->
  distanceTo (position (Nat.iter n (explodeChild false refs) child)) base
  = 0.9 ^ n * distanceTo (position child) base.
Proof.
  intros Hmesh Hbase Hdir. induction n as [| n IH].
  - cbn. lra.
  - rewrite Nat.iter_succ.
    destruct (explodeChild_iter_uuid false refs n child) as [Hu Hm].
    rewrite (explodeChild_off_position refs _ base dir).
    + rewrite lerp_contracts, IH. cbn [pow]. ring.
    + rewrite Hm. exact Hmesh.
    + rewrite Hu. exact Hbase.
    + rewrite Hu. exact Hdir.
Qed.

(** [0.9 ^ n * d] falls below every positive bound, from some [N] on. *)
Lemma damped_below (d eps : R) :
  0 <= d -> 0 < eps ->
  exists N : nat, forall n : nat, (N <= n)%nat -> 0.9 ^ n * d < eps.
Proof.
  intros Hd Heps.
  assert (Hbound : 0 < eps / (d + 1)) by (apply Rdiv_lt_0_compat; lra).
  destruct (pow_lt_1_zero 0.9 ltac:(rewrite Rabs_pos_eq; lra) _ Hbound) as [N HN].
  exists N. intros n Hn. specialize (HN n Hn).
  assert (Hpow : 0 <= 0.9 ^ n) by (apply pow_le; lra).
  rewrite Rabs_pos_eq in HN by exact Hpow.
  apply Rle_lt_trans with (0.9 ^ n * (d + 1)).
  - apply Rmult_le_compat_l; lra.
  - apply (Rmult_lt_compat_r (d + 1)) in HN; [| lra].
    replace (eps / (d + 1) * (d + 1)) with eps in HN by (field; lra).
    exact HN.
Qed.

Lemma iter_map {A : Type} (f : A -> A) (n : nat) (l : list A) :
  Nat.iter n (List.map f) l = List.map (Nat.iter n f) l.
Proof.
  induction n as [| n IH].
  - cbn. symmetry. apply List.map_id.
  - rewrite Nat.iter_succ, IH, List.map_map.
    apply List.map_ext. intros elt. rewrite Nat.iter_succ. reflexivity.
Qed.

Lemma explodeFrame_iter (mode : bool) (refs : Refs) (n : nat) (scene : Scene) :
  isInitialized refs = true ->
  Nat.iter n (explodeFrame mode refs) scene
  = List.map (Nat.iter n (explodeChild mode refs)) scene.
Proof.
  intros Hinit. rewrite <- iter_map.
  induction n as [| n IH]; [reflexivity |].
  rewrite !Nat.iter_succ, IH. unfold explodeFrame. rewrite Hinit. reflexivity.
Qed.

Lemma explodeFrame_registered (mode : bool) (refs : Refs) (n : nat) (scene : Scene) :
  isInitialized refs = true ->
  meshesRegistered refs scene ->
  meshesRegistered refs (Nat.iter n (explodeFrame mode refs) scene).
Proof.
  intros Hinit Hreg. rewrite explodeFrame_iter by exact Hinit.
  unfold meshesRegistered in *. rewrite List.Forall_map.
  eapply List.Forall_impl; [| exact Hreg].
  intros child Hchild. unfold registered in *.
  destruct (explodeChild_iter_uuid mode refs n child) as [Hu Hm].
  rewrite Hu, Hm. exact Hchild.
Qed.

(** From a registered scene, frames with the flag off bring every mesh
    within [eps] of its baseline, and keep it there. *)
Lemma explode_off_converges (refs : Refs) (eps : R) (scene : Scene) :
  isInitialized refs = true ->
  0 < eps ->
  meshesRegistered refs scene ->
  exists N : nat, forall n : nat, (N <= n)%nat ->
    nearBaseline refs eps (Nat.iter n (explodeFrame false refs) scene).
Proof.
  intros Hinit Heps Hreg.
  assert (Hlist : exists N : nat, forall n : nat, (N <= n)%nat ->
            nearBaseline refs eps (List.map (Nat.iter n (explodeChild false refs)) scene)).
  { induction scene as [| child rest IH].
    - exists 0%nat. intros n _. apply List.Forall_nil.
    - apply List.Forall_cons_iff in Hreg. destruct Hreg as [Hchild Hrest].
      destruct (IH Hrest) as [Nrest HNrest].
      destruct (isMesh child) eqn:Hmesh.
      + destruct (Hchild Hmesh) as [[base Hbase] [dir Hdir]].
        destruct (damped_below (distanceTo (position child) base) eps
                    (distanceTo_nonneg _ _) Heps) as [Nchild HNchild].
        exists (Nat.max Nchild Nrest). intros n Hn.
        cbn [List.map]. apply List.Forall_cons.
        * intros _. exists base.
          destruct (explodeChild_iter_uuid false refs n child) as [Hu _].
          rewrite Hu. split; [exact Hbase |].
          rewrite (explodeChild_off_iter refs child base dir n Hmesh Hbase Hdir).
          apply HNchild. lia.
        * apply HNrest. lia.
      + exists Nrest. intros n Hn. cbn [List.map]. apply List.Forall_cons.
        * destruct (explodeChild_iter_uuid false refs n child) as [_ Hm].
          rewrite Hm, Hmesh. discriminate.
        * apply HNrest. exact Hn. }
  destruct Hlist as [N HN]. exists N. intros n Hn.
  rewrite explodeFrame_iter by exact Hinit. apply HN. exact Hn.
Qed.

End ExplodeProperties.

(** ** The set-up effect registers every mesh *)

Section SetupProperties.

Import THREE ThreeCanvas Notions.

Variable setHex : Z -> Color.

Lemma setIfAbsent_here {V : Type} (k : string) (v : V) (m : gmap string V) :
  is_Some (setIfAbsent k v m !! k).
Proof.
  unfold setIfAbsent. destruct (m !! k) as [old |] eqn:Hk.
  - rewrite Hk. eauto.
  - rewrite lookup_insert_eq. eauto.
Qed.

Lemma setIfAbsent_keeps {V : Type} (k j : string) (v : V) (m : gmap string V) :
  is_Some (m !! j) -> is_Some (setIfAbsent k v m !! j).
Proof.
  intros Hj. unfold setIfAbsent. destruct (m !! k) as [old |] eqn:Hk; [exact Hj |].
  destruct (decide (k = j)) as [-> | Hne].
  - rewrite lookup_insert_eq. eauto.
  - rewrite lookup_insert_ne by exact Hne. exact Hj.
Qed.

(** A key already present keeps its value: the first capture wins. *)
Lemma setIfAbsent_first {V : Type} (k j : string) (v w : V) (m : gmap string V) :
  m !! j = Some w -> setIfAbsent k v m !! j = Some w.
Proof.
  intros Hj. unfold setIfAbsent. destruct (m !! k) as [old |] eqn:Hk; [exact Hj |].
  destruct (decide (k = j)) as [-> | Hne]; [congruence |].
  rewrite lookup_insert_ne by exact Hne. exact Hj.
Qed.

Lemma refsExtend_refl (refs : Refs) : refsExtend refs refs.
Proof. split; intros k Hk; exact Hk. Qed.

Lemma refsExtend_trans (r1 r2 r3 : Refs) :
  refsExtend r1 r2 -> refsExtend r2 r3 -> refsExtend r1 r3.
Proof.
  intros [Hp12 Hv12] [Hp23 Hv23]. split; intros k Hk.
  - apply Hp23, Hp12, Hk.
  - apply Hv23, Hv12, Hk.
Qed.

Lemma registered_extend (r1 r2 : Refs) (child : Object3D) :
  refsExtend r1 r2 -> registered r1 child -> registered r2 child.
Proof.
  intros [Hp Hv] Hreg Hmesh. destruct (Hreg Hmesh) as [H1 H2].
  split; [apply Hp, H1 | apply Hv, H2].
Qed.

Lemma setupChild_shape (gc : Vector3) (refs : Refs) (child : Object3D) :
  uuid (snd (setupChild setHex gc refs child)) = uuid child
  /\ isMesh (snd (setupChild setHex gc refs child)) = isMesh child
  /\ position (snd (setupChild setHex gc refs child)) = position child.
Proof.
  unfold setupChild. destruct (isMesh child) eqn:Hmesh.
  - destruct (material child); cbn; auto.
  - cbn. auto.
Qed.

Lemma setupChild_extends (gc : Vector3) (refs : Refs) (child : Object3D) :
  refsExtend refs (fst (setupChild setHex gc refs child)).
Proof.
  unfold setupChild. destruct (isMesh child); [| apply refsExtend_refl].
  destruct (material child); split; cbn; intros k Hk;
    apply setIfAbsent_keeps; exact Hk.
Qed.

Lemma setupChild_registers (gc : Vector3) (refs : Refs) (child : Object3D) :
  registered (fst (setupChild setHex gc refs child))
             (snd (setupChild setHex gc refs child)).
Proof.
  intros Hmesh. destruct (setupChild_shape gc refs child) as [Hu [Hm _]].
  rewrite Hu. rewrite Hm in Hmesh. unfold setupChild. rewrite Hmesh.
  destruct (material child); cbn; split; apply setIfAbsent_here.
Qed.

Lemma setupChild_flags (gc : Vector3) (refs : Refs) (child : Object3D) :
  isInitialized (fst (setupChild setHex gc refs child)) = isInitialized refs
  /\ modelSize (fst (setupChild setHex gc refs child)) = modelSize refs.
Proof.
  unfold setupChild. destruct (isMesh child); [| split; reflexivity].
  destruct (material child); split; reflexivity.
Qed.

Lemma traverse_cons {S : Type} (f : S -> Object3D -> S * Object3D)
  (s : S) (child : Object3D) (rest : Scene) :
  traverse f s (child :: rest)
  = (fst (traverse f (fst (f s child)) rest),
     snd (f s child) :: snd (traverse f (fst (f s child)) rest)).
Proof.
  cbn [traverse]. destruct (f s child) as [s1 child'].
  cbn [fst snd]. destruct (traverse f s1 rest) as [s2 rest']. reflexivity.
Qed.

Lemma traverse_setup_registers (gc : Vector3) (scene : Scene) :
  forall refs : Refs,
    refsExtend refs (fst (traverse (setupChild setHex gc) refs scene))
    /\ meshesRegistered (fst (traverse (setupChild setHex gc) refs scene))
                        (snd (traverse (setupChild setHex gc) refs scene)).
Proof.
  induction scene as [| child rest IH]; intros refs.
  - cbn. split; [apply refsExtend_refl | apply List.Forall_nil].
  - rewrite traverse_cons. cbn [fst snd].
    destruct (IH (fst (setupChild setHex gc refs child))) as [Hext Hreg].
    split.
    + eapply refsExtend_trans; [apply setupChild_extends | exact Hext].
    + apply List.Forall_cons; [| exact Hreg].
      eapply registered_extend; [exact Hext | apply setupChild_registers].
Qed.

Lemma setupScene_maps (box : Box3) (refs : Refs) (scene : Scene) :
  let refs1 :=
    {| originalMaterials := originalMaterials refs;
       originalPositions := originalPositions refs;
       explosionVectors := explosionVectors refs;
       isInitialized := isInitialized refs;
       modelSize := THREE.length (getSize box) |} in
  let walked := traverse (setupChild setHex (getCenter box)) refs1 scene in
  originalMaterials (fst (setupScene setHex box refs scene)) = originalMaterials (fst walked)
  /\ originalPositions (fst (setupScene setHex box refs scene)) = originalPositions (fst walked)
  /\ explosionVectors (fst (setupScene setHex box refs scene)) = explosionVectors (fst walked)
  /\ isInitialized (fst (setupScene setHex box refs scene)) = true
  /\ snd (setupScene setHex box refs scene) = snd walked.
Proof.
  cbv zeta. unfold setupScene.
  destruct (traverse _ _ scene) as [refs2 scene']. cbn. auto.
Qed.

Lemma setupScene_registers (box : Box3) (refs : Refs) (scene : Scene) :
  isInitialized (fst (setupScene setHex box refs scene)) = true
  /\ meshesRegistered (fst (setupScene setHex box refs scene))
                      (snd (setupScene setHex box refs scene)).
Proof.
  destruct (setupScene_maps box refs scene) as [_ [Hp [Hv [Hinit Hscene]]]].
  split; [exact Hinit |].
  rewrite Hscene.
  match goal with
  | |- meshesRegistered _ (snd (traverse ?f ?r ?l)) =>
      destruct (traverse_setup_registers (getCenter box) l r) as [_ Hreg]
  end.
  unfold meshesRegistered in *.
  eapply List.Forall_impl; [| exact Hreg].
  intros child Hchild Hmesh. unfold registered in Hchild.
  rewrite Hp, Hv. apply Hchild. exact Hmesh.
Qed.

End SetupProperties.

(** C5: after the set-up effect, with the explode flag off the target of a
    mesh is exactly its stored baseline, one frame moves the mesh 10% of the
    way to it and leaves 0.9 of the distance; so after any number of frames
    with the flag on, frames with the flag off bring every mesh within any
    positive epsilon of its baseline, and keep it there. *)
Theorem explode_off_returns_to_baseline :
  forall (setHex : Z -> THREE.Color) (globalBox : THREE.Box3)
         (refs0 : ThreeCanvas.Refs) (clonedScene : ThreeCanvas.Scene)
         (framesOn : nat) (eps : R),
    0 < eps ->
    let refs := fst (ThreeCanvas.setupScene setHex globalBox refs0 clonedScene) in
    let scene := snd (ThreeCanvas.setupScene setHex globalBox refs0 clonedScene) in
    (forall base dir,
       ThreeCanvas.targetPos base dir (ThreeCanvas.expandDist false refs) = base)
    /\ (forall child base dir,
          ThreeCanvas.isMesh child = true ->
          ThreeCanvas.originalPositions refs !! ThreeCanvas.uuid child = Some base ->
          ThreeCanvas.explosionVectors refs !! ThreeCanvas.uuid child = Some dir ->
          ThreeCanvas.position (ThreeCanvas.explodeChild false refs child)
            = THREE.lerp (ThreeCanvas.position child) base 0.1
          /\ THREE.distanceTo
               (ThreeCanvas.position (ThreeCanvas.explodeChild false refs child)) base
             = 0.9 * THREE.distanceTo (ThreeCanvas.position child) base)
    /\ exists N : nat, forall n : nat, (N <= n)%nat ->
         Notions.nearBaseline refs eps
           (Nat.iter n (ThreeCanvas.explodeFrame false refs)
              (Nat.iter framesOn (ThreeCanvas.explodeFrame true refs) scene)).
Proof.
  intros setHex globalBox refs0 clonedScene framesOn eps Heps refs scene.
  destruct (setupScene_registers setHex globalBox refs0 clonedScene) as [Hinit Hreg].
  fold refs in Hinit, Hreg. fold scene in Hreg.
  split; [| split].
  - intros base dir. apply targetPos_off.
  - intros child base dir Hmesh Hbase Hdir.
    rewrite (explodeChild_off_position refs child base dir Hmesh Hbase Hdir).
    split; [reflexivity | apply lerp_contracts].
  - apply explode_off_converges; [exact Hinit | exact Heps |].
    apply explodeFrame_registered; assumption.
Qed.

Lemma explode_off_returns_to_baseline_witness :
  let refs :=
    fst (ThreeCanvas.setupScene Samples.sampleSetHex Samples.twoPartsBox
           ThreeCanvas.emptyRefs Samples.twoParts) in
  let scene :=
    snd (ThreeCanvas.setupScene Samples.sampleSetHex Samples.twoPartsBox
           ThreeCanvas.emptyRefs Samples.twoParts) in
  exists N : nat, forall n : nat, (N <= n)%nat ->
    Notions.nearBaseline refs (1 / 100)
      (Nat.iter n (ThreeCanvas.explodeFrame false refs)
         (Nat.iter 5 (ThreeCanvas.explodeFrame true refs) scene)).
Proof.
  intros refs scene.
  apply (explode_off_returns_to_baseline Samples.sampleSetHex Samples.twoPartsBox
           ThreeCanvas.emptyRefs Samples.twoParts 5 (1 / 100)).
  lra.
Defined.

(** ** Normalisation of the materials *)

Section NormalizeProperties.

Import THREE ThreeCanvas Notions.

Variable setHex : Z -> Color.

Lemma setupChild_material (gc : Vector3) (refs : Refs) (child : Object3D) :
  material (snd (setupChild setHex gc refs child))
  = if isMesh child
    then option_map (normalizeMaterial setHex (hasColorAttribute child)) (material child)
    else material child.
Proof.
  unfold setupChild. destruct (isMesh child); [| reflexivity].
  destruct (material child) as [m |] eqn:Hm; cbn; [reflexivity | exact Hm].
Qed.

(** What holds of every set-up node holds of the whole set-up scene. *)
Lemma traverse_setup_Forall (Q : Object3D -> Prop) (gc : Vector3) :
  (forall refs child, Q (snd (setupChild setHex gc refs child))) ->
  forall scene refs, Forall Q (snd (traverse (setupChild setHex gc) refs scene)).
Proof.
  intros HQ scene. induction scene as [| child rest IH]; intros refs.
  - apply List.Forall_nil.
  - rewrite traverse_cons. cbn [snd]. apply List.Forall_cons; [apply HQ | apply IH].
Qed.

Lemma normalizeMaterial_metalness (attr : bool) (m : Material) (v : R) :
  metalness (normalizeMaterial setHex attr m) = Some v -> v <= 0.9.
Proof.
  cbn [normalizeMaterial metalness]. destruct (metalness m) as [v0 |]; [| discriminate].
  destruct (Rgt_dec v0 0.9) as [Hgt | Hle]; intros [= <-]; lra.
Qed.

Lemma normalizeMaterial_roughness (attr : bool) (m : Material) (v : R) :
  roughness (normalizeMaterial setHex attr m) = Some v -> 0.1 <= v.
Proof.
  cbn [normalizeMaterial roughness]. destruct (roughness m) as [v0 |]; [| discriminate].
  destruct (Rlt_dec v0 0.1) as [Hlt | Hge]; intros [= <-]; lra.
Qed.

End NormalizeProperties.

(** C2, as the code has it: after the set-up effect every mesh of the
    working clone that has a material has opacity 0.9 and is double-sided; a
    numeric metalness above 0.9 has become 0.6 and any other is unchanged, so
    metalness is at most 0.9; a numeric roughness below 0.1 has become 0.3 and
    any other is unchanged, so roughness is at least 0.1. *)
Theorem normalization_limits :
  forall (setHex : Z -> THREE.Color) (globalBox : THREE.Box3)
         (refs0 : ThreeCanvas.Refs) (clonedScene : ThreeCanvas.Scene),
    Forall (Notions.normalizedWithin 0.9 0.1)
           (snd (ThreeCanvas.setupScene setHex globalBox refs0 clonedScene))
    /\ (forall attr m,
          ThreeCanvas.metalness (ThreeCanvas.normalizeMaterial setHex attr m)
            = option_map (fun v => if Rgt_dec v 0.9 then 0.6 else v)
                         (ThreeCanvas.metalness m)
          /\ ThreeCanvas.roughness (ThreeCanvas.normalizeMaterial setHex attr m)
             = option_map (fun v => if Rlt_dec v 0.1 then 0.3 else v)
                          (ThreeCanvas.roughness m)).
Proof.
  intros setHex globalBox refs0 clonedScene. split.
  - destruct (setupScene_maps setHex globalBox refs0 clonedScene)
      as [_ [_ [_ [_ Hscene]]]].
    rewrite Hscene. apply traverse_setup_Forall.
    intros refs child Hmesh m Hm.
    destruct (setupChild_shape setHex (THREE.getCenter globalBox) refs child)
      as [_ [Hshape _]].
    rewrite Hshape in Hmesh.
    rewrite setupChild_material, Hmesh in Hm.
    destruct (ThreeCanvas.material child) as [m0 |]; [| discriminate].
    injection Hm as <-.
    split; [reflexivity | split; [reflexivity | split]].
    + apply normalizeMaterial_metalness.
    + apply normalizeMaterial_roughness.
  - intros attr m. cbn [ThreeCanvas.normalizeMaterial ThreeCanvas.metalness
                         ThreeCanvas.roughness].
    split.
    + destruct (ThreeCanvas.metalness m) as [v |]; [| reflexivity].
      cbn. destruct (Rgt_dec v 0.9); reflexivity.
    + destruct (ThreeCanvas.roughness m) as [v |]; [| reflexivity].
      cbn. destruct (Rlt_dec v 0.1); reflexivity.
Qed.

(** C2, refuted as stated: two steel parts of metalness 0.8 and roughness
    0.2 keep both values through the set-up effect, above 0.6 and below
    0.3. *)
Lemma normalization_misses_spec_limits :
  ~ Forall (Notions.normalizedWithin 0.6 0.3)
      (snd (ThreeCanvas.setupScene Samples.sampleSetHex Samples.twoPartsBox
              ThreeCanvas.emptyRefs Samples.twoParts)).
Proof.
  intros Hall.
  destruct (setupScene_maps Samples.sampleSetHex Samples.twoPartsBox
              ThreeCanvas.emptyRefs Samples.twoParts) as [_ [_ [_ [_ Hscene]]]].
  rewrite Hscene in Hall. unfold Samples.twoParts in Hall.
  rewrite traverse_cons in Hall. cbn [snd] in Hall.
  apply List.Forall_cons_iff in Hall. destruct Hall as [Hfirst _].
  specialize (Hfirst eq_refl _ eq_refl).
  destruct Hfirst as [_ [_ [Hmetal _]]].
  cbn in Hmetal.
  destruct (Rgt_dec 0.8 0.9) as [Hgt | _]; [lra |].
  specialize (Hmetal 0.8 eq_refl). lra.
Qed.

(** ** Colour mode: tint, then restore *)

Section ColorProperties.

Import THREE ThreeCanvas Notions.

Variable setHex : Z -> Color.
Variable setHSL : R -> R -> R -> Color.

Lemma normalizeMaterial_color (attr : bool) (m : Material) (col : Color) :
  color m = Some col -> is_Some (color (normalizeMaterial setHex attr m)).
Proof.
  intros Hcol. cbn [normalizeMaterial color].
  destruct (nearWhite m); [eauto | rewrite Hcol; eauto].
Qed.

Lemma baselinesKept_refl (refs : Refs) : baselinesKept refs refs.
Proof. intros k orig Hk. exact Hk. Qed.

Lemma baselinesKept_trans (r1 r2 r3 : Refs) :
  baselinesKept r1 r2 -> baselinesKept r2 r3 -> baselinesKept r1 r3.
Proof. intros H12 H23 k orig Hk. apply H23, H12, Hk. Qed.

Lemma setupChild_keeps_baselines (gc : Vector3) (refs : Refs) (child : Object3D) :
  baselinesKept refs (fst (setupChild setHex gc refs child)).
Proof.
  unfold setupChild. destruct (isMesh child); [| apply baselinesKept_refl].
  destruct (material child) as [m |]; cbn; intros k orig Hk; cbn.
  - apply setIfAbsent_first. exact Hk.
  - exact Hk.
Qed.

Lemma setupChild_baselines_colored (gc : Vector3) (refs : Refs) (child : Object3D) :
  coloredMesh child -> baselinesColored refs ->
  baselinesColored (fst (setupChild setHex gc refs child)).
Proof.
  intros Hchild Hrefs. unfold setupChild.
  destruct (isMesh child) eqn:Hmesh; [| exact Hrefs].
  destruct (Hchild Hmesh) as [m [col [Hm Hcol]]]. rewrite Hm. cbn.
  intros k orig Hk. cbn in Hk. unfold setIfAbsent in Hk.
  destruct (originalMaterials refs !! uuid child) as [old |] eqn:Hold.
  - apply (Hrefs k orig Hk).
  - destruct (decide (uuid child = k)) as [<- | Hne].
    + rewrite lookup_insert_eq in Hk. injection Hk as <-. rewrite Hcol. eauto.
    + rewrite lookup_insert_ne in Hk by exact Hne. apply (Hrefs k orig Hk).
Qed.

(** A coloured mesh leaves the set-up callback ready for the colour effect. *)
Lemma setupChild_ready (gc : Vector3) (refs : Refs) (child : Object3D) :
  coloredMesh child -> baselinesColored refs ->
  colorReady (fst (setupChild setHex gc refs child))
             (snd (setupChild setHex gc refs child)).
Proof.
  intros Hchild Hrefs Hmesh.
  destruct (setupChild_shape setHex gc refs child) as [Hu [Hm _]].
  rewrite Hm in Hmesh.
  destruct (Hchild Hmesh) as [m [col [Hmat Hcol]]].
  split.
  - rewrite setupChild_material, Hmesh, Hmat. cbn [option_map].
    destruct (normalizeMaterial_color (hasColorAttribute child) m col Hcol)
      as [col' Hcol'].
    eexists _, col'. split; [reflexivity | split; [exact Hcol' | reflexivity]].
  - pose proof (setupChild_baselines_colored gc refs child Hchild Hrefs) as Hcolored.
    rewrite Hu.
    assert (Hhere : is_Some (originalMaterials (fst (setupChild setHex gc refs child))
                               !! uuid child)).
    { unfold setupChild. rewrite Hmesh, Hmat. cbn. apply setIfAbsent_here. }
    destruct Hhere as [orig Horig].
    destruct (Hcolored _ _ Horig) as [col' Hcol'].
    exists orig, col'. split; assumption.
Qed.

Lemma colorReady_kept (r1 r2 : Refs) (child : Object3D) :
  baselinesKept r1 r2 -> colorReady r1 child -> colorReady r2 child.
Proof.
  intros Hkept Hready Hmesh. destruct (Hready Hmesh) as [Hmat [orig [col [Horig Hcol]]]].
  split; [exact Hmat |]. exists orig, col. split; [apply Hkept, Horig | exact Hcol].
Qed.

Lemma traverse_setup_ready (gc : Vector3) (scene : Scene) :
  forall refs : Refs,
    Forall coloredMesh scene ->
    baselinesColored refs ->
    baselinesKept refs (fst (traverse (setupChild setHex gc) refs scene))
    /\ Forall (colorReady (fst (traverse (setupChild setHex gc) refs scene)))
              (snd (traverse (setupChild setHex gc) refs scene)).
Proof.
  induction scene as [| child rest IH]; intros refs Hscene Hrefs.
  - cbn. split; [apply baselinesKept_refl | apply List.Forall_nil].
  - apply List.Forall_cons_iff in Hscene. destruct Hscene as [Hchild Hrest].
    rewrite traverse_cons. cbn [fst snd].
    destruct (IH (fst (setupChild setHex gc refs child)) Hrest
                (setupChild_baselines_colored gc refs child Hchild Hrefs))
      as [Hkept Hready].
    split.
    + eapply baselinesKept_trans; [apply setupChild_keeps_baselines | exact Hkept].
    + apply List.Forall_cons; [| exact Hready].
      eapply colorReady_kept; [exact Hkept |].
      apply setupChild_ready; assumption.
Qed.

Lemma setupScene_ready (box : Box3) (scene : Scene) :
  Forall coloredMesh scene ->
  Forall (colorReady (fst (setupScene setHex box emptyRefs scene)))
         (snd (setupScene setHex box emptyRefs scene)).
Proof.
  intros Hscene.
  destruct (setupScene_maps setHex box emptyRefs scene) as [Hmats [_ [_ [_ Hsc]]]].
  rewrite Hsc.
  match goal with
  | |- Forall _ (snd (traverse ?f ?r ?l)) =>
      destruct (traverse_setup_ready (getCenter box) l r Hscene) as [_ Hready]
  end.
  { intros k orig Hk. cbn in Hk. rewrite lookup_empty in Hk. discriminate. }
  eapply List.Forall_impl; [| exact Hready].
  intros child Hchild Hmesh. destruct (Hchild Hmesh) as [Hmat Horig].
  split; [exact Hmat |]. rewrite Hmats. exact Horig.
Qed.

Lemma colorChild_tints (refs : Refs) (child : Object3D) :
  colorReady refs child ->
  colorChild setHSL true refs child = Some (tintedChild setHSL child).
Proof.
  intros Hready. unfold colorChild, tintedChild.
  destruct (isMesh child) eqn:Hmesh; [| reflexivity].
  destruct (Hready Hmesh) as [[m [col [Hm [Hcol _]]]] _].
  rewrite Hm, Hcol. reflexivity.
Qed.

Lemma withColor_twice (m : Material) (c1 c2 : option Color) :
  needsUpdate m = true ->
  withNeedsUpdate (withColor (withNeedsUpdate (withColor m c1)) c2) = withColor m c2.
Proof.
  intros Hflag. destruct m. cbn in Hflag. subst. reflexivity.
Qed.

Lemma colorChild_restores (refs : Refs) (child : Object3D) :
  colorReady refs child ->
  exists after,
    colorChild setHSL false refs (tintedChild setHSL child) = Some after
    /\ restoredFrom refs child after.
Proof.
  intros Hready. unfold colorChild, tintedChild, restoredFrom.
  destruct (isMesh child) eqn:Hmesh.
  - destruct (Hready Hmesh) as [[m [col [Hm [Hcol Hflag]]]] [orig [ocol [Horig Hocol]]]].
    rewrite Hm. cbn [isMesh withMaterial uuid material]. rewrite Hmesh, Horig, Hocol.
    cbn [color withNeedsUpdate withColor].
    eexists. split; [reflexivity |].
    exists m, orig, ocol. repeat split; try assumption.
    rewrite <- (withColor_twice m (Some (getHashColor setHSL (uuid child))) (Some ocol) Hflag).
    reflexivity.
  - rewrite Hmesh. eexists. split; reflexivity.
Qed.

Lemma mapM_all_Some {A B : Type} (f : A -> option B) (g : A -> B) (l : list A) :
  Forall (fun elt => f elt = Some (g elt)) l ->
  mapM f l = Some (List.map g l).
Proof.
  induction 1 as [| elt rest Helt _ IH]; [reflexivity |].
  cbn. rewrite Helt. cbn. rewrite IH. reflexivity.
Qed.

End ColorProperties.

Section BaselineProperties.

Import THREE ThreeCanvas Notions.

Variable setHex : Z -> Color.

Lemma setupChild_materials (gc : Vector3) (refs : Refs) (child : Object3D) :
  originalMaterials (fst (setupChild setHex gc refs child))
  = if isMesh child then
      match material child with
      | Some m => setIfAbsent (uuid child) m (originalMaterials refs)
      | None => originalMaterials refs
      end
    else originalMaterials refs.
Proof.
  unfold setupChild. destruct (isMesh child); [| reflexivity].
  destruct (material child); reflexivity.
Qed.

Lemma traverse_keeps_baselines (gc : Vector3) (scene : Scene) :
  forall refs : Refs,
    baselinesKept refs (fst (traverse (setupChild setHex gc) refs scene)).
Proof.
  induction scene as [| child rest IH]; intros refs.
  - apply baselinesKept_refl.
  - rewrite traverse_cons. cbn [fst].
    eapply baselinesKept_trans; [apply setupChild_keeps_baselines | apply IH].
Qed.

Lemma meshUuids_cons (child : Object3D) (rest : Scene) :
  meshUuids (child :: rest)
  = if isMesh child then uuid child :: meshUuids rest else meshUuids rest.
Proof. unfold meshUuids. cbn [List.filter]. destruct (isMesh child); reflexivity. Qed.

Lemma meshUuids_In (child : Object3D) (scene : Scene) :
  In child scene -> isMesh child = true -> In (uuid child) (meshUuids scene).
Proof.
  intros Hin Hmesh. unfold meshUuids. apply List.in_map.
  apply List.filter_In. split; assumption.
Qed.

(** With distinct mesh [uuid]s, none of them stored yet, the set-up effect
    stores for each mesh the material it was loaded with. *)
Lemma traverse_setup_baselines (gc : Vector3) (scene : Scene) :
  forall refs : Refs,
    List.NoDup (meshUuids scene) ->
    (forall child, In child scene -> isMesh child = true ->
                   originalMaterials refs !! uuid child = None) ->
    Forall (baselineIsLoaded (fst (traverse (setupChild setHex gc) refs scene))) scene.
Proof.
  induction scene as [| child rest IH]; intros refs Hnodup Hfresh.
  - apply List.Forall_nil.
  - rewrite traverse_cons. cbn [fst].
    rewrite meshUuids_cons in Hnodup.
    apply List.Forall_cons.
    + intros Hmesh m Hm.
      apply traverse_keeps_baselines.
      rewrite setupChild_materials, Hmesh, Hm.
      unfold setIfAbsent.
      rewrite (Hfresh child (or_introl eq_refl) Hmesh).
      apply lookup_insert_eq.
    + apply IH.
      * destruct (isMesh child); [| exact Hnodup].
        apply List.NoDup_cons_iff in Hnodup. tauto.
      * intros other Hin Hmesh.
        rewrite setupChild_materials.
        pose proof (Hfresh other (or_intror Hin) Hmesh) as Hother.
        destruct (isMesh child) eqn:Hhead; [| exact Hother].
        destruct (material child) as [m |]; [| exact Hother].
        unfold setIfAbsent.
        destruct (originalMaterials refs !! uuid child); [exact Hother |].
        rewrite lookup_insert_ne; [exact Hother |].
        apply List.NoDup_cons_iff in Hnodup. destruct Hnodup as [Hnotin _].
        intros Heq. apply Hnotin. rewrite Heq.
        apply meshUuids_In; assumption.
Qed.

Lemma setupScene_baselines (box : Box3) (scene : Scene) :
  List.NoDup (meshUuids scene) ->
  Forall (baselineIsLoaded (fst (setupScene setHex box emptyRefs scene))) scene.
Proof.
  intros Hnodup.
  destruct (setupScene_maps setHex box emptyRefs scene) as [Hmats _].
  match type of Hmats with
  | _ = originalMaterials (fst (traverse ?f ?r ?l)) =>
      pose proof (traverse_setup_baselines (getCenter box) l r Hnodup) as Hloaded
  end.
  eapply List.Forall_impl; [| apply Hloaded].
  - intros child Hchild Hmesh m Hm. rewrite Hmats. apply Hchild; assumption.
  - intros child _ _. cbn. apply lookup_empty.
Qed.

End BaselineProperties.

Section ColorToggle.

Import THREE ThreeCanvas Notions.

Variable setHSL : R -> R -> R -> Color.

Lemma restore_after_tint (refs : Refs) (scene : Scene) :
  Forall (colorReady refs) scene ->
  exists restored,
    mapM (colorChild setHSL false refs) (List.map (tintedChild setHSL) scene)
      = Some restored
    /\ Forall2 (restoredFrom refs) scene restored.
Proof.
  induction 1 as [| child rest Hchild _ [restored [Hrest Hrel]]].
  - exists []. split; [reflexivity | apply List.Forall2_nil].
  - destruct (colorChild_restores setHSL refs child Hchild) as [after [Hafter Hfrom]].
    exists (after :: restored). split.
    + cbn. rewrite Hafter. cbn.
      rewrite Hrest. reflexivity.
    + apply List.Forall2_cons; assumption.
Qed.

End ColorToggle.

(** C8: on a scene whose meshes all have a coloured material, set up from
    fresh refs, turning colour mode on and then off succeeds, and afterwards
    every mesh has the material it had before the toggle with its colour
    replaced by the colour of its baseline material in [originalMaterials];
    no other field of the material or of the node differs, and nodes that
    are not meshes are untouched.  When the meshes have distinct [uuid]s,
    the baseline of a mesh is the material it was loaded with. *)
Theorem color_toggle_restores_baseline :
  forall (setHex : Z -> THREE.Color) (setHSL : R -> R -> R -> THREE.Color)
         (globalBox : THREE.Box3) (clonedScene : ThreeCanvas.Scene),
    Forall Notions.coloredMesh clonedScene ->
    let refs :=
      fst (ThreeCanvas.setupScene setHex globalBox ThreeCanvas.emptyRefs clonedScene) in
    let scene :=
      snd (ThreeCanvas.setupScene setHex globalBox ThreeCanvas.emptyRefs clonedScene) in
    (exists tinted restored,
       ThreeCanvas.colorEffect setHSL true refs scene = Some tinted
       /\ ThreeCanvas.colorEffect setHSL false refs tinted = Some restored
       /\ Forall2 (Notions.restoredFrom refs) scene restored)
    /\ (List.NoDup (Notions.meshUuids clonedScene) ->
        Forall (Notions.baselineIsLoaded refs) clonedScene).
Proof.
  intros setHex setHSL globalBox clonedScene Hcolored refs scene.
  split; [| apply setupScene_baselines].
  pose proof (setupScene_ready setHex globalBox clonedScene Hcolored) as Hready.
  destruct (setupScene_maps setHex globalBox ThreeCanvas.emptyRefs clonedScene)
    as [_ [_ [_ [Hinit _]]]].
  fold refs in Hready, Hinit. fold scene in Hready.
  destruct (restore_after_tint setHSL refs scene Hready) as [restored [Hrestored Hrel]].
  exists (List.map (Notions.tintedChild setHSL) scene), restored.
  unfold ThreeCanvas.colorEffect. rewrite Hinit.
  split; [| split; assumption].
  apply mapM_all_Some.
  eapply List.Forall_impl; [| exact Hready].
  intros child Hchild. apply colorChild_tints. exact Hchild.
Qed.

Lemma twoParts_colored : Forall Notions.coloredMesh Samples.twoParts.
Proof.
  unfold Samples.twoParts.
  repeat (apply List.Forall_cons;
          [intros _; exists Samples.steel, (THREE.mkColor 0.5 0.5 0.5);
           split; reflexivity |]).
  apply List.Forall_nil.
Qed.

Lemma color_toggle_restores_baseline_witness :
  let refs :=
    fst (ThreeCanvas.setupScene Samples.sampleSetHex Samples.twoPartsBox
           ThreeCanvas.emptyRefs Samples.twoParts) in
  let scene :=
    snd (ThreeCanvas.setupScene Samples.sampleSetHex Samples.twoPartsBox
           ThreeCanvas.emptyRefs Samples.twoParts) in
  exists tinted restored,
    ThreeCanvas.colorEffect Samples.sampleSetHSL true refs scene = Some tinted
    /\ ThreeCanvas.colorEffect Samples.sampleSetHSL false refs tinted = Some restored
    /\ Forall2 (Notions.restoredFrom refs) scene restored.
Proof.
  intros refs scene.
  apply (color_toggle_restores_baseline Samples.sampleSetHex Samples.sampleSetHSL
           Samples.twoPartsBox Samples.twoParts twoParts_colored).
Defined.

(** ** Labels of the measurement *)

Section LabelProperties.

Import THREE ThreeCanvas Notions.

Lemma Int_part_half (n : Z) : Int_part (IZR n + 1 / 2) = n.
Proof. symmetry. apply Int_part_spec. lra. Qed.

(** [toFixed(2)] of a non-negative number of hundredths. *)
Lemma toFixed2_hundredths (n : Z) (v : R) :
  (0 <= n)%Z -> v = IZR n / 100 ->
  JS.toFixed2 v
  = (JS.decimal (n / 100) ++ "." ++ JS.twoDigits (n mod 100))%string.
Proof.
  intros Hn ->. unfold JS.toFixed2.
  assert (Hpos : 0 <= IZR n / 100).
  { apply IZR_le in Hn. lra. }
  destruct (Rlt_dec (IZR n / 100) 0) as [Hneg | _]; [lra |].
  rewrite (Rabs_pos_eq _ Hpos).
  replace (IZR n / 100 * 100 + 1 / 2) with (IZR n + 1 / 2) by field.
  rewrite Int_part_half. reflexivity.
Qed.



End LabelProperties.

(** The rule of the label of three points over the reals: with sides [a],
    [b], [c] and Heron area [Area], the labels are exactly one diameter label
    [2 * (a*b*c)/(4*Area)] at the centroid when [Area > 0.0001], and none
    otherwise; the points (0,0,0), (3,0,0), (0,4,0) get the label 5.00 at
    their centroid. *)
Lemma three_point_label_over_reals :
  forall m1 m2 m3 : UIStore.MeasurePoint,
    let p1 := UIStore.point m1 in
    let p2 := UIStore.point m2 in
    let p3 := UIStore.point m3 in
    let la := THREE.distanceTo p1 p2 in
    let lb := THREE.distanceTo p2 p3 in
    let lc := THREE.distanceTo p3 p1 in
    let area := ThreeCanvas.heronArea la lb lc in
    (area > 0.0001 ->
     ThreeCanvas.labels [m1; m2; m3]
     = [ {| ThreeCanvas.pos := THREE.divideScalar (THREE.add (THREE.add p1 p2) p3) 3;
            ThreeCanvas.text :=
              ("⌀ " ++ JS.toFixed2 (2 * ((la * lb * lc) / (4 * area))))%string;
            ThreeCanvas.subText := None |} ])
    /\ (~ area > 0.0001 -> ThreeCanvas.labels [m1; m2; m3] = [])
    /\ ThreeCanvas.labels
         [Samples.measuredAt 0 0 0; Samples.measuredAt 3 0 0; Samples.measuredAt 0 4 0]
       = [ {| ThreeCanvas.pos := THREE.mkVector3 1 (4 / 3) 0;
              ThreeCanvas.text := "⌀ 5.00"%string;
              ThreeCanvas.subText := None |} ].
Proof.
  intros m1 m2 m3 p1 p2 p3 la lb lc area.
  split; [| split].
  - intros Harea. cbn [ThreeCanvas.labels]. unfold ThreeCanvas.diameterLabels.
    cbv zeta. fold p1 p2 p3. fold la lb lc. fold area.
    destruct (Rgt_dec area 0.0001) as [_ | Hno]; [| contradiction].
    replace (la * lb * lc / (4 * area) * 2) with (2 * (la * lb * lc / (4 * area)))
      by ring.
    reflexivity.
  - intros Harea. cbn [ThreeCanvas.labels]. unfold ThreeCanvas.diameterLabels.
    cbv zeta. fold p1 p2 p3. fold la lb lc. fold area.
    destruct (Rgt_dec area 0.0001) as [Hyes | _]; [contradiction | reflexivity].
  - cbn [ThreeCanvas.labels Samples.measuredAt UIStore.point].
    unfold ThreeCanvas.diameterLabels. cbv zeta.
    replace (THREE.distanceTo (THREE.mkVector3 0 0 0) (THREE.mkVector3 3 0 0)) with 3
      by (symmetry; apply distanceTo_exact; [lra | vec_unfold; lra]).
    replace (THREE.distanceTo (THREE.mkVector3 3 0 0) (THREE.mkVector3 0 4 0)) with 5
      by (symmetry; apply distanceTo_exact; [lra | vec_unfold; lra]).
    replace (THREE.distanceTo (THREE.mkVector3 0 4 0) (THREE.mkVector3 0 0 0)) with 4
      by (symmetry; apply distanceTo_exact; [lra | vec_unfold; lra]).
    replace (ThreeCanvas.heronArea 3 5 4) with 6.
    2:{ unfold ThreeCanvas.heronArea. cbv zeta. symmetry.
        apply sqrt_lem_1; lra. }
    destruct (Rgt_dec 6 0.0001) as [_ | Hno]; [| lra].
    rewrite (toFixed2_hundredths 500 (3 * 5 * 4 / (4 * 6) * 2)) by (lia || lra).
    replace (THREE.divideScalar
               (THREE.add (THREE.add (THREE.mkVector3 0 0 0) (THREE.mkVector3 3 0 0))
                          (THREE.mkVector3 0 4 0)) 3)
      with (THREE.mkVector3 1 (4 / 3) 0)
      by (vec_unfold; f_equal; lra).
    reflexivity.
Qed.


(** ** Rotations keep lengths *)

Section QuaternionFacts.

Import THREE ThreeCanvas Notions.

Lemma applyQuaternion_identity (v : Vector3) :
  applyQuaternion v identityQuaternion = v.
Proof.
  destruct v as [vx vy vz]. unfold applyQuaternion, identityQuaternion.
  cbn. f_equal; ring.
Qed.

Lemma applyQuaternion_lengthSq (v : Vector3) (q : Quaternion) :
  unitQuaternion q -> lengthSq (applyQuaternion v q) = lengthSq v.
Proof.
  intros Hunit. unfold unitQuaternion in Hunit.
  destruct v as [vx vy vz]. destruct q as [a b c w]. cbn in Hunit.
  unfold applyQuaternion, lengthSq. cbn.
  transitivity
    (vx * vx + vy * vy + vz * vz
     + (1 - (a * a + b * b + c * c + w * w))
       * (4 * (a * vx + b * vy + c * vz) * (a * vx + b * vy + c * vz)
          - 4 * (a * a + b * b + c * c) * (vx * vx + vy * vy + vz * vz))).
  - ring.
  - rewrite Hunit. ring.
Qed.

Lemma setFromEuler_unit (e : Euler) : unitQuaternion (setFromEuler e).
Proof.
  unfold unitQuaternion, setFromEuler. cbn.
  pose proof (sin2_cos2 (ex e / 2)) as H1.
  pose proof (sin2_cos2 (ey e / 2)) as H2.
  pose proof (sin2_cos2 (ez e / 2)) as H3.
  unfold Rsqr in H1, H2, H3.
  set (s1 := sin (ex e / 2)) in *. set (c1 := cos (ex e / 2)) in *.
  set (s2 := sin (ey e / 2)) in *. set (c2 := cos (ey e / 2)) in *.
  set (s3 := sin (ez e / 2)) in *. set (c3 := cos (ez e / 2)) in *.
  transitivity ((s1 * s1 + c1 * c1) * (s2 * s2 + c2 * c2) * (s3 * s3 + c3 * c3)).
  - ring.
  - rewrite H1, H2, H3. ring.
Qed.

Lemma setFromEuler_zero : setFromEuler (mkEuler 0 0 0) = identityQuaternion.
Proof.
  unfold setFromEuler, identityQuaternion. cbn.
  replace (0 / 2) with 0 by field. rewrite sin_0, cos_0. f_equal; ring.
Qed.

Lemma modelQuat_unit (v : Viewer) : unitQuaternion (modelQuat v).
Proof.
  unfold modelQuat. destruct (mainModel v) as [m |].
  - apply setFromEuler_unit.
  - unfold unitQuaternion, identityQuaternion. cbn. ring.
Qed.

(** The camera sits at [|dist|] times the length of the offset. *)
Lemma distanceTo_offset (tgt offset : Vector3) (dist : R) :
  distanceTo (add tgt (multiplyScalar offset dist)) tgt = Rabs dist * length offset.
Proof.
  unfold distanceTo, length.
  replace (distanceToSquared (add tgt (multiplyScalar offset dist)) tgt)
    with ((dist * dist) * lengthSq offset)
    by (vec_unfold; cbv zeta; ring).
  rewrite sqrt_mult_alt by nra.
  fold (Rsqr dist). rewrite sqrt_Rsqr_abs. reflexivity.
Qed.

End QuaternionFacts.

(** ** The tangent of 25 degrees *)

Section TangentBounds.

Lemma PI_above : 3.1415 < PI.
Proof.
  destruct (PI_2_3_7_ineq 1) as [Hlow _].
  unfold sum_f_R0, tg_alt, PI_2_3_7_tg, Ratan_seq in Hlow.
  simpl in Hlow. lra.
Qed.

Lemma PI_below : PI < 3.1416.
Proof.
  destruct (PI_2_3_7_ineq 2) as [_ Hhigh].
  unfold sum_f_R0, tg_alt, PI_2_3_7_tg, Ratan_seq in Hhigh.
  simpl in Hhigh. lra.
Qed.

Lemma INR_fact_S (n : nat) : INR (fact (S n)) = INR (S n) * INR (fact n).
Proof. rewrite fact_simpl, mult_INR. reflexivity. Qed.

Ltac expand_approx :=
  change (2 * 0 + 1)%nat with 1%nat; change (2 * 1 + 1)%nat with 3%nat;
  change (2 * 2 + 1)%nat with 5%nat; change (2 * 3 + 1)%nat with 7%nat;
  change (2 * 4 + 1)%nat with 9%nat;
  change (2 * 0)%nat with 0%nat; change (2 * 1)%nat with 2%nat;
  change (2 * 2)%nat with 4%nat; change (2 * 3)%nat with 6%nat;
  change (2 * 4)%nat with 8%nat;
  rewrite !INR_fact_S; change (fact 0) with 1%nat;
  simpl INR; simpl pow; field.

Lemma sin_lb_value (t : R) :
  sin_lb t = t - t ^ 3 / 6 + t ^ 5 / 120 - t ^ 7 / 5040.
Proof. unfold sin_lb, sin_approx, sum_f_R0, sin_term. expand_approx. Qed.

Lemma sin_ub_value (t : R) :
  sin_ub t = t - t ^ 3 / 6 + t ^ 5 / 120 - t ^ 7 / 5040 + t ^ 9 / 362880.
Proof. unfold sin_ub, sin_approx, sum_f_R0, sin_term. expand_approx. Qed.

Lemma cos_lb_value (t : R) :
  cos_lb t = 1 - t ^ 2 / 2 + t ^ 4 / 24 - t ^ 6 / 720.
Proof. unfold cos_lb, cos_approx, sum_f_R0, cos_term. expand_approx. Qed.

Lemma cos_ub_value (t : R) :
  cos_ub t = 1 - t ^ 2 / 2 + t ^ 4 / 24 - t ^ 6 / 720 + t ^ 8 / 40320.
Proof. unfold cos_ub, cos_approx, sum_f_R0, cos_term. expand_approx. Qed.

(** Half of 50 degrees, in radians. *)
Lemma half_fov_50 : 0.4363 < 50 * (PI / 180) / 2 < 0.4364.
Proof. pose proof PI_above. pose proof PI_below. lra. Qed.

Lemma tan_25_below : tan (50 * (PI / 180) / 2) < 7.5 / 16.08.
Proof.
  pose proof half_fov_50 as [Hlow Hhigh]. pose proof PI_above as Hpi.
  set (t := 50 * (PI / 180) / 2) in *.
  assert (Hs : sin t <= sin_ub 0.4364).
  { apply Rle_trans with (sin 0.4364); [apply sin_incr_1; lra | apply SIN; lra]. }
  assert (Hc : cos_lb 0.4364 <= cos t).
  { apply Rle_trans with (cos 0.4364); [apply COS; lra | apply cos_decr_1; lra]. }
  rewrite sin_ub_value in Hs. rewrite cos_lb_value in Hc.
  simpl pow in Hs, Hc.
  assert (Hcpos : 0 < cos t) by lra.
  unfold tan. apply (Rmult_lt_reg_r (cos t)); [exact Hcpos |].
  unfold Rdiv at 1. rewrite Rmult_assoc, Rinv_l by lra. rewrite Rmult_1_r.
  nra.
Qed.

Lemma tan_25_above : 7.5 / 16.09 < tan (50 * (PI / 180) / 2).
Proof.
  pose proof half_fov_50 as [Hlow Hhigh]. pose proof PI_above as Hpi.
  set (t := 50 * (PI / 180) / 2) in *.
  assert (Hs : sin_lb 0.4363 <= sin t).
  { apply Rle_trans with (sin 0.4363); [apply SIN; lra | apply sin_incr_1; lra]. }
  assert (Hc : cos t <= cos_ub 0.4363).
  { apply Rle_trans with (cos 0.4363); [apply cos_decr_1; lra | apply COS; lra]. }
  assert (Hcpos : 0 < cos t) by (apply cos_gt_0; lra).
  rewrite sin_lb_value in Hs. rewrite cos_ub_value in Hc.
  simpl pow in Hs, Hc.
  unfold tan. apply (Rmult_lt_reg_r (cos t)); [exact Hcpos |].
  unfold Rdiv at 2. rewrite Rmult_assoc, Rinv_l by lra. rewrite Rmult_1_r.
  nra.
Qed.

(** The fit distance of the example: size 10, field of view 50 degrees. *)
Lemma fit_distance_example :
  16.08 < ThreeCanvas.framingDistance 10 50 * 1.5 < 16.09.
Proof.
  unfold ThreeCanvas.framingDistance. cbv zeta.
  pose proof tan_25_below as Hup. pose proof tan_25_above as Hlow.
  set (tn := tan (50 * (PI / 180) / 2)) in *.
  assert (Htn : 0 < tn) by lra.
  assert (Hinv : 0 < / tn) by (apply Rinv_0_lt_compat; exact Htn).
  assert (Hone : / tn * tn = 1) by (apply Rinv_l; lra).
  unfold Rdiv. set (u := / tn) in *.
  split; nra.
Qed.

End TangentBounds.

(** ** Canonical views and initial framing *)

Section ViewProperties.

Import THREE ThreeCanvas Notions.

(** The offset of each view has the length [offsetStretch] names. *)
Lemma viewVectors_length (view : string) (offset up : Vector3) :
  viewVectors view = Some (offset, up) ->
  length offset = offsetStretch view.
Proof.
  unfold viewVectors, offsetStretch.
  destruct (String.eqb view "front") eqn:Efront.
  { apply String.eqb_eq in Efront. subst view. intros [= <- _].
    cbn [String.eqb Ascii.eqb Bool.eqb orb]. unfold length.
    vec_unfold. replace (0 * 0 + 0 * 0 + 1 * 1) with 1 by ring. apply sqrt_1. }
  destruct (String.eqb view "back") eqn:Eback.
  { apply String.eqb_eq in Eback. subst view. intros [= <- _].
    cbn [String.eqb Ascii.eqb Bool.eqb orb]. unfold length.
    vec_unfold. replace (0 * 0 + 0 * 0 + -1 * -1) with 1 by ring. apply sqrt_1. }
  destruct (String.eqb view "left") eqn:Eleft.
  { apply String.eqb_eq in Eleft. subst view. intros [= <- _].
    cbn [String.eqb Ascii.eqb Bool.eqb orb]. unfold length.
    vec_unfold. replace (-1 * -1 + 0 * 0 + 0 * 0) with 1 by ring. apply sqrt_1. }
  destruct (String.eqb view "right") eqn:Eright.
  { apply String.eqb_eq in Eright. subst view. intros [= <- _].
    cbn [String.eqb Ascii.eqb Bool.eqb orb]. unfold length.
    vec_unfold. replace (1 * 1 + 0 * 0 + 0 * 0) with 1 by ring. apply sqrt_1. }
  destruct (String.eqb view "top") eqn:Etop.
  { intros [= <- _]. cbn [orb]. unfold length. vec_unfold. f_equal. lra. }
  destruct (String.eqb view "bottom") eqn:Ebottom.
  { intros [= <- _]. cbn [orb]. unfold length. vec_unfold. f_equal. lra. }
  discriminate.
Qed.

Lemma viewDistance_positive (v : Viewer) (camera : PerspectiveCamera) :
  0 < fov camera < 180 -> 0 < viewDistance v camera.
Proof.
  intros [Hlow Hhigh]. unfold viewDistance, framingDistance. cbv zeta.
  pose proof PI_RGT_0 as Hpi.
  assert (Htan : 0 < tan (fov camera * (PI / 180) / 2)).
  { apply tan_gt_0; nra. }
  assert (Hsize : 0 < (if Rgt_dec (modelMaxDim v) 0 then modelMaxDim v else 10)).
  { destruct (Rgt_dec (modelMaxDim v) 0); lra. }
  apply Rmult_lt_0_compat; [| lra].
  apply Rdiv_lt_0_compat; [lra | exact Htan].
Qed.

End ViewProperties.

(** C3, as the code has it.  A canonical view request sets the camera
    position to [target + d * offset], the offset of the view rotated by the
    orientation of the model, with [d = (size / 2) / tan(fov / 2) * 1.5] and
    [size] the largest dimension of the model, or 10 when that is not
    positive, and hands camera and controls to [controls.update()]; the
    position set is at distance [d] from the target for front, back, left and
    right, and at [d * sqrt (1 + 0.0001^2)] for top and bottom.  Initial
    framing of a model whose URL does not contain ["V3_DIRT_BIKE_3"] sets the
    camera position to [(0, 0, (maxDim / 2) / tan(fov / 2) * 1.5)] and the
    target to the origin, and hands them to [controls.update()].  With model
    size 10 and a field of view of 50 degrees, a front request on an unrotated
    model sets the position [target + (0, 0, z)] with [16.08 < z < 16.09], and
    the camera is there when the update leaves it. *)
Theorem view_and_framing_placement :
  (forall (update : ThreeCanvas.Update) (view : string) (v : ThreeCanvas.Viewer)
          (camera : ThreeCanvas.PerspectiveCamera) (controls : ThreeCanvas.OrbitControls)
          (offset up : THREE.Vector3),
     ThreeCanvas.cameraControls v = Some (camera, controls) ->
     ThreeCanvas.viewVectors view = Some (offset, up) ->
     let size :=
       if Rgt_dec (ThreeCanvas.modelMaxDim v) 0 then ThreeCanvas.modelMaxDim v else 10 in
     let d := (size / 2) / tan (ThreeCanvas.fov camera * (PI / 180) / 2) * 1.5 in
     let placed :=
       THREE.add (ThreeCanvas.target controls)
         (THREE.multiplyScalar
            (THREE.applyQuaternion offset (ThreeCanvas.modelQuat v)) d) in
     ThreeCanvas.cameraControls (ThreeCanvas.handleViewChange update view v)
     = Some (update
               ({| ThreeCanvas.camPosition := placed;
                   ThreeCanvas.camUp :=
                     THREE.applyQuaternion up (ThreeCanvas.modelQuat v);
                   ThreeCanvas.fov := ThreeCanvas.fov camera |},
                {| ThreeCanvas.target := ThreeCanvas.target controls;
                   ThreeCanvas.ctlEnableDamping := false;
                   ThreeCanvas.ctlAutoRotate := false |}))
     /\ THREE.distanceTo placed (ThreeCanvas.target controls)
        = Rabs d * Notions.offsetStretch view
     /\ (0 < ThreeCanvas.fov camera < 180 -> 0 < d))
  /\ (forall (update : ThreeCanvas.Update) (model : ThreeCanvas.Model) (maxDim : R)
             (v : ThreeCanvas.Viewer)
             (camera : ThreeCanvas.PerspectiveCamera)
             (controls : ThreeCanvas.OrbitControls),
        ThreeCanvas.cameraControls v = Some (camera, controls) ->
        maxDim > 0 ->
        ThreeCanvas.initialCameraSet v = false ->
        JS.includes (ThreeCanvas.modelUrl v) "V3_DIRT_BIKE_3" = false ->
        ThreeCanvas.cameraControls (ThreeCanvas.handleModelReady update model maxDim v)
        = Some (update
                  ({| ThreeCanvas.camPosition :=
                        THREE.mkVector3 0 0
                          ((maxDim / 2)
                           / tan (ThreeCanvas.fov camera * (PI / 180) / 2) * 1.5);
                      ThreeCanvas.camUp := ThreeCanvas.camUp camera;
                      ThreeCanvas.fov := ThreeCanvas.fov camera |},
                   {| ThreeCanvas.target := THREE.mkVector3 0 0 0;
                      ThreeCanvas.ctlEnableDamping :=
                        ThreeCanvas.ctlEnableDamping controls;
                      ThreeCanvas.ctlAutoRotate :=
                        ThreeCanvas.ctlAutoRotate controls |})))
  /\ (forall (update : ThreeCanvas.Update) (v : ThreeCanvas.Viewer)
             (camera : ThreeCanvas.PerspectiveCamera)
             (controls : ThreeCanvas.OrbitControls),
        ThreeCanvas.cameraControls v = Some (camera, controls) ->
        ThreeCanvas.fov camera = 50 ->
        ThreeCanvas.modelMaxDim v = 10 ->
        ThreeCanvas.mainModel v = Some {| ThreeCanvas.rotation := THREE.mkEuler 0 0 0 |} ->
        exists zc,
          16.08 < zc < 16.09
          /\ let placed :=
               ({| ThreeCanvas.camPosition :=
                     THREE.add (ThreeCanvas.target controls) (THREE.mkVector3 0 0 zc);
                   ThreeCanvas.camUp := THREE.mkVector3 0 1 0;
                   ThreeCanvas.fov := 50 |},
                {| ThreeCanvas.target := ThreeCanvas.target controls;
                   ThreeCanvas.ctlEnableDamping := false;
                   ThreeCanvas.ctlAutoRotate := false |}) in
             ThreeCanvas.cameraControls (ThreeCanvas.handleViewChange update "front" v)
             = Some (update placed)
             /\ (update placed = placed ->
                 ThreeCanvas.cameraControls
                   (ThreeCanvas.handleViewChange update "front" v)
                 = Some placed)).
Proof.
  split; [| split].
  - intros update view v camera controls offset up Hcc Hview size d placed.
    unfold ThreeCanvas.handleViewChange. rewrite Hcc, Hview.
    cbn [ThreeCanvas.cameraControls].
    split; [reflexivity |]. split.
    + unfold placed. rewrite distanceTo_offset.
      unfold THREE.length.
      rewrite (applyQuaternion_lengthSq offset _ (modelQuat_unit v)).
      fold (THREE.length offset).
      rewrite (viewVectors_length view offset up Hview). reflexivity.
    + intros Hfov. apply (viewDistance_positive v camera Hfov).
  - intros update model maxDim v camera controls Hcc Hdim Hset Hurl.
    unfold ThreeCanvas.handleModelReady. rewrite Hcc, Hset, Hurl.
    destruct (Rgt_dec maxDim 0) as [_ | Hno]; [| contradiction].
    cbn [andb negb ThreeCanvas.cameraControls]. reflexivity.
  - intros update v camera controls Hcc Hfov Hdim Hmodel.
    exists (ThreeCanvas.framingDistance 10 50 * 1.5).
    split; [exact fit_distance_example |].
    assert (Hplaced :
              ThreeCanvas.cameraControls (ThreeCanvas.handleViewChange update "front" v)
              = Some (update
                        ({| ThreeCanvas.camPosition :=
                              THREE.add (ThreeCanvas.target controls)
                                (THREE.mkVector3 0 0
                                   (ThreeCanvas.framingDistance 10 50 * 1.5));
                            ThreeCanvas.camUp := THREE.mkVector3 0 1 0;
                            ThreeCanvas.fov := 50 |},
                         {| ThreeCanvas.target := ThreeCanvas.target controls;
                            ThreeCanvas.ctlEnableDamping := false;
                            ThreeCanvas.ctlAutoRotate := false |}))).
    { unfold ThreeCanvas.handleViewChange. rewrite Hcc.
      cbn [ThreeCanvas.viewVectors String.eqb Ascii.eqb Bool.eqb
           ThreeCanvas.cameraControls].
      unfold ThreeCanvas.modelQuat. rewrite Hmodel.
      unfold ThreeCanvas.quaternion. cbn [ThreeCanvas.rotation].
      rewrite setFromEuler_zero, !applyQuaternion_identity.
      unfold ThreeCanvas.viewDistance. rewrite Hdim, Hfov.
      destruct (Rgt_dec 10 0) as [_ | Hno]; [| lra].
      do 4 f_equal. vec_unfold. f_equal; ring. }
    cbv zeta. split; [exact Hplaced |].
    intros Hrest. rewrite Hplaced, Hrest. reflexivity.
Qed.

Lemma view_and_framing_placement_witness :
  exists zc,
    16.08 < zc < 16.09
    /\ ThreeCanvas.cameraControls
         (ThreeCanvas.handleViewChange Samples.updateAtRest "front"
            (Samples.viewerWith 50 Samples.uploadedUrl (Some Samples.unrotated) 10 true))
       = Some ({| ThreeCanvas.camPosition :=
                    THREE.add (THREE.mkVector3 0 0 0) (THREE.mkVector3 0 0 zc);
                  ThreeCanvas.camUp := THREE.mkVector3 0 1 0;
                  ThreeCanvas.fov := 50 |},
               {| ThreeCanvas.target := THREE.mkVector3 0 0 0;
                  ThreeCanvas.ctlEnableDamping := false;
                  ThreeCanvas.ctlAutoRotate := false |}).
Proof.
  destruct view_and_framing_placement as [_ [_ Hexample]].
  destruct (Hexample Samples.updateAtRest
              (Samples.viewerWith 50 Samples.uploadedUrl (Some Samples.unrotated) 10 true)
              _ _ eq_refl eq_refl eq_refl eq_refl) as [zc [Hzc [_ Hrest]]].
  exists zc. split; [exact Hzc |]. apply Hrest. reflexivity.
Defined.

Section ViewCounterexamples.

Import THREE ThreeCanvas Notions Samples.

(** The top request of the example, with the controls at rest. *)
Lemma top_view_camera :
  cameraControls
    (handleViewChange updateAtRest "top"
       (viewerWith 50 uploadedUrl (Some unrotated) 10 true))
  = Some ({| camPosition :=
               mkVector3 0 (framingDistance 10 50 * 1.5)
                 (0.0001 * (framingDistance 10 50 * 1.5));
             camUp := mkVector3 0 0 (-1); fov := 50 |},
          {| target := mkVector3 0 0 0;
             ctlEnableDamping := false; ctlAutoRotate := false |}).
Proof.
  unfold handleViewChange, viewerWith, updateAtRest.
  cbn [cameraControls viewVectors String.eqb Ascii.eqb Bool.eqb target fov].
  unfold modelQuat, quaternion, viewDistance, unrotated.
  cbn [mainModel rotation modelMaxDim fov].
  rewrite setFromEuler_zero, !applyQuaternion_identity.
  destruct (Rgt_dec 10 0) as [_ | Hno]; [| lra].
  f_equal. f_equal. f_equal. vec_unfold. f_equal; ring.
Qed.

(** A front request before any model has reported its size. *)
Lemma front_view_without_size :
  cameraControls
    (handleViewChange updateAtRest "front" (viewerWith 50 uploadedUrl None 0 false))
  = Some ({| camPosition := mkVector3 0 0 (framingDistance 10 50 * 1.5);
             camUp := mkVector3 0 1 0; fov := 50 |},
          {| target := mkVector3 0 0 0;
             ctlEnableDamping := false; ctlAutoRotate := false |}).
Proof.
  unfold handleViewChange, viewerWith, updateAtRest.
  cbn [cameraControls viewVectors String.eqb Ascii.eqb Bool.eqb target fov].
  unfold modelQuat, viewDistance.
  cbn [mainModel modelMaxDim fov].
  rewrite !applyQuaternion_identity.
  destruct (Rgt_dec 0 0) as [Hpos | _]; [lra |].
  f_equal. f_equal. f_equal. vec_unfold. f_equal; ring.
Qed.

End ViewCounterexamples.

(** C3, refuted as stated, at the field of view of the canvas camera, 50
    degrees, with the controls at rest.  A top request on an unrotated model
    of size 10 leaves the camera off the y axis through the target and
    farther from the target than the distance of the formula; a front request
    made before any model has reported a size, its largest dimension still 0,
    puts the camera more than 16 away, where the formula gives distance 0. *)
Lemma placement_deviates_from_formula :
  (exists camera' controls',
     ThreeCanvas.cameraControls
       (ThreeCanvas.handleViewChange Samples.updateAtRest "top"
          (Samples.viewerWith 50 Samples.uploadedUrl (Some Samples.unrotated) 10 true))
       = Some (camera', controls')
     /\ THREE.z (ThreeCanvas.camPosition camera') <> THREE.z (ThreeCanvas.target controls')
     /\ THREE.distanceTo (ThreeCanvas.camPosition camera') (ThreeCanvas.target controls')
        > 10 / 2 / tan (50 * (PI / 180) / 2) * 1.5)
  /\ (exists camera' controls',
        ThreeCanvas.cameraControls
          (ThreeCanvas.handleViewChange Samples.updateAtRest "front"
             (Samples.viewerWith 50 Samples.uploadedUrl None 0 false))
          = Some (camera', controls')
        /\ 0 / 2 / tan (50 * (PI / 180) / 2) * 1.5 = 0
        /\ THREE.distanceTo (ThreeCanvas.camPosition camera') (ThreeCanvas.target controls')
           > 16).
Proof.
  pose proof fit_distance_example as [Hlow Hhigh].
  split.
  - eexists _, _. split; [apply top_view_camera |].
    cbn [ThreeCanvas.camPosition ThreeCanvas.target THREE.z].
    change (10 / 2 / tan (50 * (PI / 180) / 2) * 1.5)
      with (ThreeCanvas.framingDistance 10 50 * 1.5).
    set (d := ThreeCanvas.framingDistance 10 50 * 1.5) in *.
    split; [lra |].
    apply Rlt_gt. unfold THREE.distanceTo.
    rewrite <- (sqrt_square d) at 1 by lra.
    apply sqrt_lt_1_alt. vec_unfold. cbv zeta. nra.
  - eexists _, _. split; [apply front_view_without_size |].
    cbn [ThreeCanvas.camPosition ThreeCanvas.target].
    split; [unfold Rdiv; ring |].
    apply Rlt_gt. apply Rlt_le_trans with (ThreeCanvas.framingDistance 10 50 * 1.5);
      [lra |].
    apply distanceTo_lower; [lra |]. vec_unfold. cbv zeta. nra.
Qed.

(** ** What a click stores *)

Section ShiftedHit.

Import THREE ThreeCanvas Notions Samples.

Lemma localToWorld_shifted (v : Vector3) :
  localToWorld shiftedMesh v = add v (mkVector3 10 0 0).
Proof.
  unfold localToWorld, shiftedMesh. cbn [matrixWorld triangleMesh].
  apply applyMatrix4_translation.
Qed.

Lemma localToWorld_moved (v : Vector3) :
  localToWorld movedMesh v = add v (mkVector3 20 0 0).
Proof.
  unfold localToWorld, movedMesh. cbn [matrixWorld triangleMesh].
  apply applyMatrix4_translation.
Qed.

Lemma shifted_closest_on_AB :
  closestPointToPoint (mkVector3 10 0 0) (mkVector3 14 0 0) (mkVector3 11 1 0) true
  = mkVector3 11 0 0.
Proof.
  unfold closestPointToPoint, closestPointToPointParameter.
  rewrite clamp_inside; vec_unfold; [f_equal; lra | lra].
Qed.

Lemma shifted_closest_on_BC :
  closestPointToPoint (mkVector3 14 0 0) (mkVector3 10 4 0) (mkVector3 11 1 0) true
  = mkVector3 12 2 0.
Proof.
  unfold closestPointToPoint, closestPointToPointParameter.
  rewrite clamp_inside; vec_unfold; [f_equal; lra | lra].
Qed.

Lemma shifted_closest_on_CA :
  closestPointToPoint (mkVector3 10 4 0) (mkVector3 10 0 0) (mkVector3 11 1 0) true
  = mkVector3 10 1 0.
Proof.
  unfold closestPointToPoint, closestPointToPointParameter.
  rewrite clamp_inside; vec_unfold; [f_equal; lra | lra].
Qed.

Lemma hitOnShifted_not_snapped :
  snapToFeature hitOnShifted (cameraAt 11 1 10) = mkVector3 11 1 0.
Proof.
  apply snapToFeature_far_hit. intros fc obj Hfc Hobj.
  cbn in Hfc, Hobj. injection Hfc as <-. injection Hobj as <-.
  unfold snapThreshold, featureDistances.
  cbn [point hitOnShifted camPosition cameraAt a b c triangleFace
       fromBufferAttribute].
  rewrite !localToWorld_shifted.
  cbn [fromBufferAttribute positions shiftedMesh triangleMesh trianglePositions].
  replace (add (mkVector3 0 0 0) (mkVector3 10 0 0)) with (mkVector3 10 0 0)
    by (vec_unfold; f_equal; lra).
  replace (add (mkVector3 4 0 0) (mkVector3 10 0 0)) with (mkVector3 14 0 0)
    by (vec_unfold; f_equal; lra).
  replace (add (mkVector3 0 4 0) (mkVector3 10 0 0)) with (mkVector3 10 4 0)
    by (vec_unfold; f_equal; lra).
  replace (distanceTo (mkVector3 11 1 10) (mkVector3 11 1 0)) with 10
    by (symmetry; apply distanceTo_exact; [lra | vec_unfold; lra]).
  rewrite shifted_closest_on_AB, shifted_closest_on_BC, shifted_closest_on_CA.
  repeat (apply List.Forall_cons;
          [apply distanceTo_lower; [lra | vec_unfold; lra] |]).
  apply List.Forall_nil.
Qed.

(** The store after the click on the shifted triangle. *)
Lemma click_on_shifted :
  UIStore.measurePoints
    (store (handleClick translationNormal hitOnShifted (cameraAt 11 1 10) measuring))
  = [ {| UIStore.point := mkVector3 11 1 0;
         UIStore.normal := Some (normalize (mkVector3 0 0 1)) |} ].
Proof.
  unfold handleClick.
  cbn [button hitOnShifted Z.eqb negb store measuring UIStore.measureMode
       UIStore.setMeasureMode face object].
  rewrite hitOnShifted_not_snapped. reflexivity.
Qed.

End ShiftedHit.

Section StickyProperties.

Import THREE ThreeCanvas Notions.

Lemma equals_true (v w : Vector3) : Part001.equals v w = true -> v = w.
Proof.
  unfold Part001.equals. destruct v as [vx vy vz], w as [wx wy wz]. cbn [x y z].
  destruct (Req_EM_T vx wx) as [-> |]; [| discriminate].
  destruct (Req_EM_T vy wy) as [-> |]; [| discriminate].
  destruct (Req_EM_T vz wz) as [-> |]; [| discriminate].
  reflexivity.
Qed.

(** The inverse of an affine world matrix brings a point back. *)
Lemma localToWorld_worldToLocal (object : Object3D) (v : Vector3) :
  affine (matrixWorld object) ->
  determinant (matrixWorld object) <> 0 ->
  localToWorld object (Part001.worldToLocal object v) = v.
Proof.
  unfold localToWorld, Part001.worldToLocal, affine.
  destruct (matrixWorld object)
    as [m0 m1 m2 m3 m4 m5 m6 m7 m8 m9 m10 m11 m12 m13 m14 m15].
  cbn [e3 e7 e11 e15]. intros [-> [-> [-> ->]]] Hdet.
  unfold determinant in Hdet. cbn in Hdet.
  unfold invertMatrix4.
  cbn [e0 e1 e2 e3 e4 e5 e6 e7 e8 e9 e10 e11 e12 e13 e14 e15].
  destruct (Req_EM_T _ 0) as [Hzero | Hnz]; [exfalso; apply Hdet; exact Hzero |].
  destruct v as [vx vy vz]. unfold applyMatrix4.
  cbn [e0 e1 e2 e3 e4 e5 e6 e7 e8 e9 e10 e11 e12 e13 e14 e15 x y z].
  f_equal; field; intros Heq; apply Hnz; (etransitivity; [| exact Heq]); ring.
Qed.

Variable applyNormalMatrix : Matrix4 -> Vector3 -> Vector3.

(** In [part_001] a primary click in measurement mode on an object
    pushes the snapped point with its local coordinates and the [uuid]. *)
Lemma handleClick_sticky (e : ThreeEvent) (camera : PerspectiveCamera)
  (st : Part001.ClickState) (obj : Object3D) :
  button e = 0%Z ->
  Part001.measureMode st = true ->
  object e = Some obj ->
  Part001.measurePoints (Part001.handleClick applyNormalMatrix e camera st)
  = Part001.addMeasurePoint
      {| Part001.point := snapToFeature e camera;
         Part001.localPoint := Some (Part001.worldToLocal obj (snapToFeature e camera));
         Part001.objectUuid := Some (uuid obj);
         Part001.normal :=
           match face e with
           | Some fc =>
               Some (normalize (applyNormalMatrix (matrixWorld obj) (faceNormal fc)))
           | None => None
           end |}
      (Part001.measurePoints st).
Proof.
  intros Hbutton Hmode Hobj. unfold Part001.handleClick.
  rewrite Hbutton, Hmode, Hobj. cbn [Z.eqb negb option_map Part001.measurePoints].
  destruct (Part001.equals (snapToFeature e camera) (point e)) eqn:Hsame.
  - apply equals_true in Hsame. rewrite <- Hsame. cbn [fst snd].
    destruct (face e); reflexivity.
  - cbn [fst snd]. destruct (face e); reflexivity.
Qed.

End StickyProperties.

(** C7, as the code has it.  In [components/ThreeCanvas.jsx] a primary
    click in measurement mode pushes the snapped point as it is, in world
    space, with the face normal carried to world space (none without face or
    object); markers and line are drawn at the stored world points, and the
    label of a second point shows the distance between the two stored points
    at their midpoint; a click with another button or outside measurement mode
    leaves the store as it was.  In [src/unnamed/part_001] such a click on an
    object pushes, with that world point and normal, the snapped point in the
    local space of the object and the [uuid] of the object; in every frame the
    world position of each stored point is worked out anew, that of the point
    just stored being its local point carried by the world matrix of the node
    found under that [uuid], and the stored world point when there is no scene
    or no such node; while the world matrix of the node
    is the invertible affine matrix it was at the click, that position is the
    snapped point. *)
Theorem click_stores_world_point :
  forall (applyNormalMatrix : THREE.Matrix4 -> THREE.Vector3 -> THREE.Vector3)
         (e : ThreeCanvas.ThreeEvent) (camera : ThreeCanvas.PerspectiveCamera),
    let snapped := ThreeCanvas.snapToFeature e camera in
    (forall st : ThreeCanvas.ClickState,
       let st' := ThreeCanvas.handleClick applyNormalMatrix e camera st in
       let old := UIStore.measurePoints (ThreeCanvas.store st) in
       let new :=
         {| UIStore.point := snapped;
            UIStore.normal :=
              match ThreeCanvas.face e, ThreeCanvas.object e with
              | Some fc, Some obj =>
                  Some (THREE.normalize
                          (applyNormalMatrix (ThreeCanvas.matrixWorld obj)
                             (ThreeCanvas.faceNormal fc)))
              | _, _ => None
              end |} in
       (ThreeCanvas.button e = 0%Z ->
        UIStore.measureMode (ThreeCanvas.store st) = true ->
        ThreeCanvas.store st' = UIStore.addMeasurePoint new (ThreeCanvas.store st)
        /\ ThreeCanvas.markerPositions (UIStore.measurePoints (ThreeCanvas.store st'))
           = (if (2 <=? List.length old)%nat then []
              else List.map UIStore.point old) ++ [snapped]
        /\ ThreeCanvas.linePoints (UIStore.measurePoints (ThreeCanvas.store st'))
           = ThreeCanvas.markerPositions (UIStore.measurePoints (ThreeCanvas.store st'))
        /\ (forall m1,
              old = [m1] ->
              exists label,
                ThreeCanvas.labels (UIStore.measurePoints (ThreeCanvas.store st'))
                = [label]
                /\ ThreeCanvas.pos label
                   = THREE.multiplyScalar (THREE.add (UIStore.point m1) snapped) 0.5
                /\ ThreeCanvas.text label
                   = (JS.toFixed2 (THREE.distanceTo (UIStore.point m1) snapped)
                      ++ " mm")%string))
       /\ (ThreeCanvas.button e <> 0%Z
           \/ UIStore.measureMode (ThreeCanvas.store st) = false ->
           ThreeCanvas.store st' = ThreeCanvas.store st))
    /\ (forall (st : Part001.ClickState) (obj : ThreeCanvas.Object3D),
          let st' := Part001.handleClick applyNormalMatrix e camera st in
          let new :=
            {| Part001.point := snapped;
               Part001.localPoint := Some (Part001.worldToLocal obj snapped);
               Part001.objectUuid := Some (ThreeCanvas.uuid obj);
               Part001.normal :=
                 match ThreeCanvas.face e with
                 | Some fc =>
                     Some (THREE.normalize
                             (applyNormalMatrix (ThreeCanvas.matrixWorld obj)
                                (ThreeCanvas.faceNormal fc)))
                 | None => None
                 end |} in
          (ThreeCanvas.button e = 0%Z ->
           Part001.measureMode st = true ->
           ThreeCanvas.object e = Some obj ->
           Part001.measurePoints st'
           = Part001.addMeasurePoint new (Part001.measurePoints st)
           /\ (forall sceneRef,
                 Part001.currentWorldPoints sceneRef (Part001.measurePoints st')
                 = (if (2 <=? List.length (Part001.measurePoints st))%nat then []
                    else Part001.currentWorldPoints sceneRef (Part001.measurePoints st))
                   ++ [Part001.worldPoint sceneRef new])
           /\ (ThreeCanvas.uuid obj <> ""%string ->
               (forall scene node,
                  Part001.getObjectByProperty scene (ThreeCanvas.uuid obj) = Some node ->
                  Part001.worldPoint (Some scene) new
                  = ThreeCanvas.localToWorld node (Part001.worldToLocal obj snapped)
                  /\ (ThreeCanvas.matrixWorld node = ThreeCanvas.matrixWorld obj ->
                      Notions.affine (ThreeCanvas.matrixWorld obj) ->
                      THREE.determinant (ThreeCanvas.matrixWorld obj) <> 0 ->
                      Part001.worldPoint (Some scene) new = snapped))
               /\ (forall scene,
                     Part001.getObjectByProperty scene (ThreeCanvas.uuid obj) = None ->
                     Part001.worldPoint (Some scene) new = snapped)
               /\ Part001.worldPoint None new = snapped))
          /\ (ThreeCanvas.button e <> 0%Z \/ Part001.measureMode st = false ->
              Part001.measurePoints st' = Part001.measurePoints st)).
Proof.
  intros applyNormalMatrix e camera snapped. split.
  - intros st st' old new. split.
    + intros Hbutton Hmode.
      assert (Hstore : ThreeCanvas.store st'
                       = UIStore.addMeasurePoint new (ThreeCanvas.store st)).
      { unfold st', ThreeCanvas.handleClick. rewrite Hbutton, Hmode.
        cbn [Z.eqb negb ThreeCanvas.store]. reflexivity. }
      assert (Hpoints : UIStore.measurePoints (ThreeCanvas.store st')
                        = (if (2 <=? List.length old)%nat then [] else old) ++ [new]).
      { rewrite Hstore, addMeasurePoint_points. fold old.
        destruct (2 <=? List.length old)%nat; reflexivity. }
      split; [exact Hstore |]. split; [| split].
      * rewrite Hpoints. unfold ThreeCanvas.markerPositions.
        rewrite List.map_app. cbn [List.map]. unfold new. cbn [UIStore.point].
        destruct (2 <=? List.length old)%nat; reflexivity.
      * rewrite Hpoints. unfold ThreeCanvas.linePoints, ThreeCanvas.markerPositions.
        destruct (2 <=? List.length old)%nat eqn:Hfull; [reflexivity |].
        apply Nat.leb_gt in Hfull.
        destruct old as [| m1 [| m2 rest]]; [reflexivity | reflexivity |].
        cbn [List.length] in Hfull. lia.
      * intros m1 Hold. rewrite Hpoints, Hold. cbn [List.length Nat.leb app].
        eexists. split; [reflexivity |].
        unfold ThreeCanvas.distanceLabel. cbv zeta.
        cbn [ThreeCanvas.pos ThreeCanvas.text]. unfold new. cbn [UIStore.point].
        split; reflexivity.
    + intros [Hbutton | Hmode]; unfold st', ThreeCanvas.handleClick.
      * apply Z.eqb_neq in Hbutton. rewrite Hbutton. reflexivity.
      * destruct (ThreeCanvas.button e =? 0)%Z; [| reflexivity].
        rewrite Hmode. reflexivity.
  - intros st obj st' new. split.
    + intros Hbutton Hmode Hobj.
      pose proof (handleClick_sticky applyNormalMatrix e camera st obj
                    Hbutton Hmode Hobj) as Hpushed.
      fold snapped in Hpushed. fold new in Hpushed. fold st' in Hpushed.
      split; [exact Hpushed |]. split.
      * intros sceneRef. rewrite Hpushed.
        unfold Part001.addMeasurePoint, Part001.currentWorldPoints.
        destruct (2 <=? List.length (Part001.measurePoints st))%nat;
          [reflexivity |].
        rewrite List.map_app. reflexivity.
      * intros Huuid. apply String.eqb_neq in Huuid.
        split; [| split].
        -- intros scene node Hfound.
           assert (Hpoint : Part001.worldPoint (Some scene) new
                            = ThreeCanvas.localToWorld node
                                (Part001.worldToLocal obj snapped)).
           { unfold Part001.worldPoint, new.
             cbn [Part001.localPoint Part001.objectUuid Part001.point].
             rewrite Huuid, Hfound. reflexivity. }
           split; [exact Hpoint |].
           intros Hmatrix Haffine Hdet. rewrite Hpoint.
           unfold ThreeCanvas.localToWorld at 1. rewrite Hmatrix.
           apply (localToWorld_worldToLocal obj snapped Haffine Hdet).
        -- intros scene Hnone. unfold Part001.worldPoint, new.
           cbn [Part001.localPoint Part001.objectUuid Part001.point].
           rewrite Huuid, Hnone. reflexivity.
        -- reflexivity.
    + intros [Hbutton | Hmode]; unfold st', Part001.handleClick.
      * apply Z.eqb_neq in Hbutton. rewrite Hbutton. reflexivity.
      * destruct (ThreeCanvas.button e =? 0)%Z; [| reflexivity].
        rewrite Hmode. reflexivity.
Qed.

Lemma click_stores_world_point_witness :
  ThreeCanvas.markerPositions
    (UIStore.measurePoints
       (ThreeCanvas.store
          (ThreeCanvas.handleClick Samples.translationNormal Samples.hitOnShifted
             (Samples.cameraAt 11 1 10) Samples.measuring)))
  = [] ++ [ThreeCanvas.snapToFeature Samples.hitOnShifted (Samples.cameraAt 11 1 10)]
  /\ Part001.worldPoint (Some [Samples.movedMesh])
       {| Part001.point :=
            ThreeCanvas.snapToFeature Samples.hitOnShifted (Samples.cameraAt 11 1 10);
          Part001.localPoint :=
            Some (Part001.worldToLocal Samples.shiftedMesh
                    (ThreeCanvas.snapToFeature Samples.hitOnShifted
                       (Samples.cameraAt 11 1 10)));
          Part001.objectUuid := Some (ThreeCanvas.uuid Samples.shiftedMesh);
          Part001.normal :=
            Some (THREE.normalize
                    (Samples.translationNormal
                       (ThreeCanvas.matrixWorld Samples.shiftedMesh)
                       (ThreeCanvas.faceNormal Samples.triangleFace))) |}
     = ThreeCanvas.localToWorld Samples.movedMesh
         (Part001.worldToLocal Samples.shiftedMesh
            (ThreeCanvas.snapToFeature Samples.hitOnShifted (Samples.cameraAt 11 1 10))).
Proof.
  destruct (click_stores_world_point Samples.translationNormal Samples.hitOnShifted
              (Samples.cameraAt 11 1 10)) as [Hcited Hlater].
  split.
  - destruct (Hcited Samples.measuring) as [Hclick _].
    destruct (Hclick eq_refl eq_refl) as [_ [Hmarkers _]]. exact Hmarkers.
  - destruct (Hlater Samples.sticking Samples.shiftedMesh) as [Hclick _].
    destruct (Hclick eq_refl eq_refl eq_refl) as [_ [_ Hframes]].
    destruct Hframes as [Hfound _]; [discriminate |].
    destruct (Hfound [Samples.movedMesh] Samples.movedMesh eq_refl) as [Hpoint _].
    exact Hpoint.
Defined.

(** C7, refuted as stated: the click at world point [(11, 1, 0)] on the
    triangle carried 10 along x stores [(11, 1, 0)], not the local point
    [(1, 1, 0)]; taken through the world matrix of the object the stored point
    lands on [(21, 1, 0)], away from the snapped point; and once the object
    has moved to 20 along x its local point [(1, 1, 0)] is at [(21, 1, 0)]
    while the marker is still drawn at [(11, 1, 0)]. *)
Lemma stored_point_is_not_local :
  let st' :=
    ThreeCanvas.handleClick Samples.translationNormal Samples.hitOnShifted
      (Samples.cameraAt 11 1 10) Samples.measuring in
  let stored := List.map UIStore.point (UIStore.measurePoints (ThreeCanvas.store st')) in
  ThreeCanvas.snapToFeature Samples.hitOnShifted (Samples.cameraAt 11 1 10)
    = THREE.mkVector3 11 1 0
  /\ ThreeCanvas.localToWorld Samples.shiftedMesh (THREE.mkVector3 1 1 0)
     = THREE.mkVector3 11 1 0
  /\ stored = [THREE.mkVector3 11 1 0]
  /\ stored <> [THREE.mkVector3 1 1 0]
  /\ List.map (ThreeCanvas.localToWorld Samples.shiftedMesh) stored
     <> [ThreeCanvas.snapToFeature Samples.hitOnShifted (Samples.cameraAt 11 1 10)]
  /\ ThreeCanvas.markerPositions (UIStore.measurePoints (ThreeCanvas.store st'))
     <> [ThreeCanvas.localToWorld Samples.movedMesh (THREE.mkVector3 1 1 0)].
Proof.
  intros st' stored.
  assert (Hstored : stored = [THREE.mkVector3 11 1 0]).
  { unfold stored, st'. rewrite click_on_shifted. reflexivity. }
  split; [exact hitOnShifted_not_snapped |].
  split; [rewrite localToWorld_shifted; vec_unfold; f_equal; lra |].
  split; [exact Hstored |].
  split; [| split].
  - rewrite Hstored. intros [= Hx]. lra.
  - rewrite Hstored, hitOnShifted_not_snapped. cbn [List.map].
    rewrite localToWorld_shifted. vec_unfold. intros [= Hx]. lra.
  - unfold ThreeCanvas.markerPositions. fold stored. rewrite Hstored.
    rewrite localToWorld_moved. vec_unfold. intros [= Hx]. lra.
Qed.

(** ** Dragging the orientation cube *)

Section CubeProperties.

Import THREE ThreeCanvas OrientationCube.

Lemma handleCubeRotate_camera (rot : Euler) (v : Viewer) :
  cameraControls (handleCubeRotate rot v) = cameraControls v.
Proof. unfold handleCubeRotate. destruct (mainModel v); reflexivity. Qed.

Lemma handleCubeRotate_model (rot : Euler) (v : Viewer) :
  mainModel (handleCubeRotate rot v)
  = match mainModel v with
    | Some _ => Some {| rotation := rot |}
    | None => None
    end.
Proof.
  unfold handleCubeRotate. destruct (mainModel v) as [m |] eqn:Hm.
  - destruct rot. reflexivity.
  - exact Hm.
Qed.

End CubeProperties.

(** C9, as the code has it: while a drag is in progress, a pointer move by
    [(dx, dy)] adds [dx * 0.01] to the yaw (y) and [dy * 0.01] to the pitch
    (x) of the Euler rotation of the cube, without any clamp, and copies that
    rotation to the main model when there is one; the camera and its orbit
    target are left as they were.  Outside a drag nothing changes. *)
Theorem cube_drag_rotates_model :
  forall (rect : OrientationCube.Rect) (e : OrientationCube.PointerEvent)
         (d : OrientationCube.Drag) (v : ThreeCanvas.Viewer),
    let d' := fst (OrientationCube.dragCube rect e d v) in
    let v' := snd (OrientationCube.dragCube rect e d v) in
    let dx := OrientationCube.clientX e - OrientationCube.left rect
              - OrientationCube.lastX d in
    let dy := OrientationCube.clientY e - OrientationCube.top rect
              - OrientationCube.lastY d in
    (OrientationCube.isDragging d = true ->
     OrientationCube.cubeRotation d'
       = THREE.mkEuler (THREE.ex (OrientationCube.cubeRotation d) + dy * 0.01)
                       (THREE.ey (OrientationCube.cubeRotation d) + dx * 0.01)
                       (THREE.ez (OrientationCube.cubeRotation d))
     /\ ThreeCanvas.mainModel v'
        = match ThreeCanvas.mainModel v with
          | Some _ => Some {| ThreeCanvas.rotation := OrientationCube.cubeRotation d' |}
          | None => None
          end
     /\ ThreeCanvas.cameraControls v' = ThreeCanvas.cameraControls v)
    /\ (OrientationCube.isDragging d = false -> d' = d /\ v' = v).
Proof.
  intros rect e d v d' v' dx dy. split.
  - intros Hdrag. unfold d', v', OrientationCube.dragCube, OrientationCube.onPointerMove.
    rewrite Hdrag. cbn [negb fst snd OrientationCube.cubeRotation].
    split; [reflexivity |]. split.
    + rewrite handleCubeRotate_model. reflexivity.
    + apply handleCubeRotate_camera.
  - intros Hidle. unfold d', v', OrientationCube.dragCube, OrientationCube.onPointerMove.
    rewrite Hidle. split; reflexivity.
Qed.

Lemma cube_drag_rotates_model_witness :
  ThreeCanvas.cameraControls
    (snd (OrientationCube.dragCube Samples.canvasRect (Samples.pointerAt 100 1000)
            Samples.dragging
            (Samples.viewerWith 50 Samples.uploadedUrl (Some Samples.unrotated) 10 true)))
  = ThreeCanvas.cameraControls
      (Samples.viewerWith 50 Samples.uploadedUrl (Some Samples.unrotated) 10 true).
Proof.
  destruct (cube_drag_rotates_model Samples.canvasRect (Samples.pointerAt 100 1000)
              Samples.dragging
              (Samples.viewerWith 50 Samples.uploadedUrl (Some Samples.unrotated) 10 true))
    as [Hdrag _].
  destruct (Hdrag eq_refl) as [_ [_ Hcamera]]. exact Hcamera.
Defined.

(** C9, refuted as stated: a drag by 100 pixels across and 1000 pixels down
    leaves the camera at [(0, 0, 500)] about its target, so its offset gets no
    spherical adjustment, while the model is turned to a pitch of 10 radians,
    beyond pi: no angle is clamped. *)
Lemma cube_drag_leaves_camera :
  let v := Samples.viewerWith 50 Samples.uploadedUrl (Some Samples.unrotated) 10 true in
  let v' :=
    snd (OrientationCube.dragCube Samples.canvasRect (Samples.pointerAt 100 1000)
           Samples.dragging v) in
  ThreeCanvas.cameraControls v' = ThreeCanvas.cameraControls v
  /\ (exists camera controls,
        ThreeCanvas.cameraControls v' = Some (camera, controls)
        /\ ThreeCanvas.camPosition camera = THREE.mkVector3 0 0 500
        /\ ThreeCanvas.target controls = THREE.mkVector3 0 0 0)
  /\ (exists pitch yaw,
        ThreeCanvas.mainModel v'
          = Some {| ThreeCanvas.rotation := THREE.mkEuler pitch yaw 0 |}
        /\ pitch = 10 /\ yaw = 1 /\ pitch > PI).
Proof.
  intros v v'.
  assert (Hcamera : ThreeCanvas.cameraControls v' = ThreeCanvas.cameraControls v).
  { unfold v', OrientationCube.dragCube, OrientationCube.onPointerMove.
    cbn [Samples.dragging OrientationCube.isDragging negb snd].
    apply handleCubeRotate_camera. }
  split; [exact Hcamera |]. split.
  - rewrite Hcamera. eexists _, _. split; [reflexivity |]. split; reflexivity.
  - unfold v', OrientationCube.dragCube, OrientationCube.onPointerMove.
    cbn [Samples.dragging OrientationCube.isDragging negb snd].
    rewrite handleCubeRotate_model. cbn [v Samples.viewerWith ThreeCanvas.mainModel].
    eexists _, _. split; [reflexivity |].
    cbn [Samples.dragging Samples.pointerAt Samples.canvasRect OrientationCube.clientX
         OrientationCube.clientY OrientationCube.left OrientationCube.top
         OrientationCube.lastX OrientationCube.lastY OrientationCube.cubeRotation
         THREE.ex THREE.ey].
    pose proof PI_4 as Hpi. repeat split; lra.
Qed.

(** * Further properties of the store, the viewer and the cube *)

(** ** Command history and chat histories *)

Section ChatProperties.

Import ChatStore MoreNotions.

Variable Message : Type.
Variable trim : string -> string.

Lemma noAdjacentDuplicates_snoc (l : list string) (t : string) :
  noAdjacentDuplicates l ->
  last l <> Some t ->
  noAdjacentDuplicates (l ++ [t]).
Proof.
  intros Hl Hlast i first second Hi Hsi.
  destruct (decide (S i < List.length l)%nat) as [Hin | Hout].
  - rewrite lookup_app_l in Hi by lia. rewrite lookup_app_l in Hsi by lia.
    apply (Hl i); assumption.
  - assert (Hlen : S i = List.length l).
    { apply lookup_lt_Some in Hsi. rewrite length_app in Hsi. cbn in Hsi. lia. }
    rewrite lookup_app_l in Hi by lia.
    rewrite lookup_app_r in Hsi by lia.
    replace (S i - List.length l)%nat with 0%nat in Hsi by lia.
    cbn in Hsi. injection Hsi as <-.
    intros ->. apply Hlast. rewrite last_lookup.
    replace (Init.Nat.pred (List.length l)) with i by lia. exact Hi.
Qed.

Lemma addToHistory_keeps (cmd : string) (state : State Message) :
  Forall (fun entry => entry <> ""%string) (commandHistory Message state) ->
  noAdjacentDuplicates (commandHistory Message state) ->
  Forall (fun entry => entry <> ""%string)
         (commandHistory Message (addToHistory Message trim cmd state))
  /\ noAdjacentDuplicates (commandHistory Message (addToHistory Message trim cmd state)).
Proof.
  intros Hfull Hdup. unfold addToHistory.
  destruct (String.eqb cmd "") eqn:Hcmd; [split; assumption |].
  destruct (String.eqb (trim cmd) "") eqn:Htrim; [split; assumption |].
  cbn [orb]. apply String.eqb_neq in Htrim.
  destruct (last (commandHistory Message state)) as [lastCmd |] eqn:Hlast.
  - destruct (String.eqb lastCmd (trim cmd)) eqn:Hsame; [split; assumption |].
    apply String.eqb_neq in Hsame. cbn [commandHistory]. split.
    + apply List.Forall_app. split; [exact Hfull |].
      apply List.Forall_cons; [exact Htrim | apply List.Forall_nil].
    + apply noAdjacentDuplicates_snoc; [exact Hdup |].
      rewrite Hlast. intros [= Heq]. apply Hsame. exact Heq.
  - cbn [commandHistory]. split.
    + apply List.Forall_app. split; [exact Hfull |].
      apply List.Forall_cons; [exact Htrim | apply List.Forall_nil].
    + apply noAdjacentDuplicates_snoc; [exact Hdup |].
      rewrite Hlast. discriminate.
Qed.

(** One command leaves the history or appends its trimmed form; either
    way the trimmed form of a command that is neither empty nor blank is in
    the history afterwards. *)
Lemma addToHistory_appends (cmd : string) (state : State Message) :
  (commandHistory Message (addToHistory Message trim cmd state)
   = commandHistory Message state
   \/ commandHistory Message (addToHistory Message trim cmd state)
      = commandHistory Message state ++ [trim cmd])
  /\ (cmd <> ""%string -> trim cmd <> ""%string ->
      In (trim cmd) (commandHistory Message (addToHistory Message trim cmd state))).
Proof.
  unfold addToHistory.
  destruct (String.eqb cmd "") eqn:Hcmd.
  { apply String.eqb_eq in Hcmd. split; [left; reflexivity | contradiction]. }
  destruct (String.eqb (trim cmd) "") eqn:Htrim.
  { apply String.eqb_eq in Htrim. split; [left; reflexivity | contradiction]. }
  cbn [orb].
  destruct (last (commandHistory Message state)) as [lastCmd |] eqn:Hlast.
  - destruct (String.eqb lastCmd (trim cmd)) eqn:Hsame.
    + apply String.eqb_eq in Hsame. subst lastCmd.
      split; [left; reflexivity |]. intros _ _.
      rewrite last_lookup in Hlast. apply list_elem_of_lookup_2 in Hlast.
      apply list_elem_of_In. exact Hlast.
    + cbn [commandHistory]. split; [right; reflexivity |].
      intros _ _. apply in_or_app. right. left. reflexivity.
  - cbn [commandHistory]. split; [right; reflexivity |].
    intros _ _. apply in_or_app. right. left. reflexivity.
Qed.

(** A run of commands extends the history by a subsequence of their
    trimmed forms. *)
Lemma history_grows (cmds : list string) :
  forall state : State Message,
    let final := fold_left (fun st cmd => addToHistory Message trim cmd st) cmds state in
    exists added,
      commandHistory Message final = commandHistory Message state ++ added
      /\ sublist added (List.map trim cmds)
      /\ (forall cmd,
            In cmd cmds -> cmd <> ""%string -> trim cmd <> ""%string ->
            In (trim cmd) (commandHistory Message final)).
Proof.
  induction cmds as [| cmd rest IH]; intros state; cbv zeta;
    cbn [fold_left List.map].
  - exists []. rewrite app_nil_r. split; [reflexivity |].
    split; [constructor |]. intros cmd [].
  - pose proof (IH (addToHistory Message trim cmd state)) as Hrest.
    cbv zeta in Hrest. destruct Hrest as [added [Hfinal [Hsub Hall]]].
    destruct (addToHistory_appends cmd state) as [Hstep Hin].
    assert (Hhere : cmd <> ""%string -> trim cmd <> ""%string ->
                    In (trim cmd)
                       (commandHistory Message
                          (fold_left (fun st c => addToHistory Message trim c st) rest
                             (addToHistory Message trim cmd state)))).
    { intros Hne Htrim. rewrite Hfinal. apply in_or_app. left.
      apply Hin; assumption. }
    destruct Hstep as [Hsame | Happ].
    + exists added. split; [rewrite Hfinal, Hsame; reflexivity |].
      split; [apply sublist_cons; exact Hsub |].
      intros cmd' [<- | Hin'] Hne Htrim; [apply Hhere | apply Hall]; assumption.
    + exists (trim cmd :: added).
      split; [rewrite Hfinal, Happ, <- app_assoc; reflexivity |].
      split; [apply sublist_skip; exact Hsub |].
      intros cmd' [<- | Hin'] Hne Htrim; [apply Hhere | apply Hall]; assumption.
Qed.

End ChatProperties.

(** X1: whatever commands are added to an empty command history, in whatever
    order, the history holds trimmed commands in the order they were added:
    it is a subsequence of the trimmed commands, it holds the trimmed form of
    every command that is neither empty nor blank, and it never holds an empty
    entry or the same entry twice in a row. *)
Theorem command_history_clean :
  forall (Message : Type) (trim : string -> string)
         (messages : list Message) (chatHistory : gmap string (list Message))
         (cmds : list string),
    let final :=
      fold_left (fun state cmd => ChatStore.addToHistory Message trim cmd state) cmds
        (ChatStore.mkState Message messages chatHistory []) in
    sublist (ChatStore.commandHistory Message final) (List.map trim cmds)
    /\ (forall cmd,
          In cmd cmds -> cmd <> ""%string -> trim cmd <> ""%string ->
          In (trim cmd) (ChatStore.commandHistory Message final))
    /\ Forall (fun entry => entry <> ""%string) (ChatStore.commandHistory Message final)
    /\ MoreNotions.noAdjacentDuplicates (ChatStore.commandHistory Message final).
Proof.
  intros Message trim messages chatHistory cmds.
  assert (Hgen : forall state,
             Forall (fun entry => entry <> ""%string)
                    (ChatStore.commandHistory Message state) ->
             MoreNotions.noAdjacentDuplicates (ChatStore.commandHistory Message state) ->
             let final :=
               fold_left (fun st cmd => ChatStore.addToHistory Message trim cmd st)
                         cmds state in
             Forall (fun entry => entry <> ""%string)
                    (ChatStore.commandHistory Message final)
             /\ MoreNotions.noAdjacentDuplicates
                  (ChatStore.commandHistory Message final)).
  { induction cmds as [| cmd rest IH]; intros state Hfull Hdup.
    - split; assumption.
    - cbn [fold_left].
      destruct (addToHistory_keeps Message trim cmd state Hfull Hdup) as [H1 H2].
      apply IH; assumption. }
  destruct (history_grows Message trim cmds
              (ChatStore.mkState Message messages chatHistory []))
    as [added [Hfinal [Hsub Hall]]].
  cbn [ChatStore.commandHistory app] in Hfinal.
  cbv zeta. split; [rewrite Hfinal; exact Hsub |]. split; [exact Hall |].
  apply Hgen.
  - apply List.Forall_nil.
  - intros i first second Hi. cbn in Hi. rewrite lookup_nil in Hi. discriminate.
Qed.

(** X2: switching the chat from one mode to a different one and back
    succeeds and restores the messages that were current before, with each
    mode's messages saved under its name.  A mode with no saved history and
    an ordinary name starts from an empty list of messages. *)
Theorem chat_history_round_trip :
  forall (Message : Type) (modeA modeB : string)
         (state there : ChatStore.State Message),
    modeA <> modeB ->
    ChatStore.switchChatHistory Message modeA modeB state = Some there ->
    (exists back,
       ChatStore.switchChatHistory Message modeB modeA there = Some back
       /\ ChatStore.messages Message back = ChatStore.messages Message state
       /\ ChatStore.chatHistory Message back !! modeA
          = Some (ChatStore.messages Message state)
       /\ ChatStore.chatHistory Message back !! modeB
          = Some (ChatStore.messages Message there))
    /\ (ChatStore.chatHistory Message state !! modeB = None ->
        ChatStore.messages Message there = []).
Proof.
  intros Message modeA modeB state there Hne Hthere.
  unfold ChatStore.switchChatHistory in Hthere.
  rewrite lookup_insert_ne in Hthere by exact Hne.
  assert (Hhist : ChatStore.chatHistory Message there
                  = <[modeA := ChatStore.messages Message state]>
                      (ChatStore.chatHistory Message state)).
  { destruct (ChatStore.chatHistory Message state !! modeB);
      [| destruct (ChatStore.inherited modeB); [discriminate |]];
      injection Hthere as <-; reflexivity. }
  split.
  - unfold ChatStore.switchChatHistory. rewrite Hhist.
    rewrite lookup_insert_ne by congruence.
    rewrite lookup_insert_eq.
    eexists. split; [reflexivity |]. cbn [ChatStore.messages ChatStore.chatHistory].
    split; [reflexivity |]. split.
    + rewrite lookup_insert_ne by congruence. apply lookup_insert_eq.
    + rewrite <- Hhist. apply lookup_insert_eq.
  - intros Hnone. rewrite Hnone in Hthere.
    destruct (ChatStore.inherited modeB); [discriminate |].
    injection Hthere as <-. reflexivity.
Qed.

Lemma chat_history_round_trip_witness :
  exists back,
    ChatStore.switchChatHistory nat "CATIA_COPILOT" "INHOUSE_CAD"
      (ChatStore.mkState nat []
         (<["INHOUSE_CAD"%string := [1%nat; 2%nat]]> ∅) [])
    = Some back
    /\ ChatStore.messages nat back = [1%nat; 2%nat].
Proof.
  destruct (chat_history_round_trip nat "INHOUSE_CAD" "CATIA_COPILOT"
              (ChatStore.mkState nat [1%nat; 2%nat] ∅ [])
              (ChatStore.mkState nat []
                 (<["INHOUSE_CAD"%string := [1%nat; 2%nat]]> ∅) []))
    as [[back [Hback [Hmsgs _]]] _].
  - discriminate.
  - reflexivity.
  - exists back. split; [exact Hback | exact Hmsgs].
Defined.

(** ** The measurement buffer as the markers see it *)

Section BufferProperties.

Import UIStore.

Lemma pushAll_snoc (pts : list MeasurePoint) (pt : MeasurePoint) (state : State) :
  pushAll (pts ++ [pt]) state = addMeasurePoint pt (pushAll pts state).
Proof. unfold pushAll. rewrite fold_left_app. reflexivity. Qed.

End BufferProperties.

(** X3: whatever calls are made on the store, the labels computed from its
    buffer are either none or the single distance label of the two stored
    points; the diameter label of three points is never among them. *)
Theorem store_never_yields_diameter_label :
  forall calls : list UIStore.Call,
    let stored := UIStore.measurePoints (UIStore.run calls UIStore.initial) in
    ThreeCanvas.labels stored = []
    \/ exists m1 m2,
         stored = [m1; m2]
         /\ ThreeCanvas.labels stored = [ThreeCanvas.distanceLabel m1 m2].
Proof.
  intros calls stored.
  assert (Hlen : (List.length stored <= 2)%nat).
  { unfold stored. apply run_bound. cbn. lia. }
  destruct stored as [| m1 [| m2 [| m3 rest]]].
  - left. reflexivity.
  - left. reflexivity.
  - right. exists m1, m2. split; reflexivity.
  - cbn in Hlen. lia.
Qed.

(** X4: after [n] pushes into the empty buffer, [n >= 1], the buffer holds
    one point when [n] is odd and two when [n] is even, and its last point is
    the point pushed last. *)
Theorem buffer_alternates :
  forall (pts : list UIStore.MeasurePoint) (pt : UIStore.MeasurePoint),
    let stored :=
      UIStore.measurePoints (UIStore.pushAll (pts ++ [pt]) UIStore.initial) in
    List.length stored = (if Nat.even (List.length pts) then 1 else 2)%nat
    /\ last stored = Some pt.
Proof.
  intros pts. induction pts as [| prev pts IH] using rev_ind; intros pt stored.
  - split; reflexivity.
  - unfold stored. rewrite pushAll_snoc, addMeasurePoint_points.
    destruct (IH prev) as [Hlen _]. rewrite Hlen.
    rewrite length_app. cbn [List.length].
    replace (List.length pts + 1)%nat with (S (List.length pts)) by lia.
    rewrite Nat.even_succ, <- Nat.negb_even.
    destruct (Nat.even (List.length pts)); cbn [negb Nat.leb].
    + split; [rewrite length_app; rewrite Hlen; reflexivity | apply last_snoc].
    + split; reflexivity.
Qed.

(** ** Where a snapped point can land *)

(** X5: [snapToFeature] returns the hit point itself, or else a vertex of
    the hit triangle or the nearest point of one of its edges that lies closer
    to the hit point than the threshold, 2% of the camera distance: a snap
    never displaces the pick by the threshold or more. *)
Theorem snapToFeature_lands_near :
  forall (intersect : ThreeCanvas.ThreeEvent) (cam : ThreeCanvas.PerspectiveCamera),
    let pt := ThreeCanvas.point intersect in
    let snapped := ThreeCanvas.snapToFeature intersect cam in
    snapped = pt
    \/ exists fc obj,
         ThreeCanvas.face intersect = Some fc
         /\ ThreeCanvas.object intersect = Some obj
         /\ In snapped (MoreNotions.candidatePoints fc obj pt)
         /\ THREE.distanceTo snapped pt < ThreeCanvas.snapThreshold cam pt.
Proof.
  intros intersect cam pt snapped. unfold snapped, ThreeCanvas.snapToFeature.
  fold pt.
  destruct (ThreeCanvas.face intersect) as [fc |] eqn:Hface; [| left; reflexivity].
  destruct (ThreeCanvas.object intersect) as [obj |] eqn:Hobj; [| left; reflexivity].
  pose proof (snapCandidate_pair fc obj pt) as Hpair.
  destruct (ThreeCanvas.snapCandidate fc obj pt) as [[m |] closest];
    [| left; reflexivity].
  destruct (Rlt_dec m (ThreeCanvas.snapThreshold cam pt)) as [Hlt | _];
    [| left; reflexivity].
  right. exists fc, obj. destruct Hpair as [Hin Hdist]. cbn [fst snd] in *.
  repeat split; try assumption. rewrite Hdist. exact Hlt.
Qed.

(** ** Explosion directions and the exploded position *)

Section DirectionProperties.

Import THREE ThreeCanvas Notions MoreNotions.

Lemma lengthSq_nonneg (v : Vector3) : 0 <= lengthSq v.
Proof.
  unfold lengthSq.
  pose proof (Rle_0_sqr (x v)) as Hx. pose proof (Rle_0_sqr (y v)) as Hy.
  pose proof (Rle_0_sqr (z v)) as Hz. unfold Rsqr in Hx, Hy, Hz. lra.
Qed.

Lemma length_square (v : Vector3) : length v * length v = lengthSq v.
Proof. apply sqrt_sqrt. apply lengthSq_nonneg. Qed.

Lemma lengthSq_scaled (v : Vector3) (s : R) :
  lengthSq (multiplyScalar v s) = lengthSq v * (s * s).
Proof. unfold lengthSq, multiplyScalar. cbn [x y z]. ring. Qed.

(** A vector that is not of length 0 is normalised to length 1. *)
Lemma normalize_unit (v : Vector3) :
  length v <> 0 -> lengthSq (normalize v) = 1.
Proof.
  intros Hlen. unfold normalize.
  destruct (Req_dec_T (length v) 0) as [Hzero | _]; [contradiction |].
  unfold divideScalar. rewrite lengthSq_scaled, <- length_square. field. exact Hlen.
Qed.

(** A vector of length 0 is left as it is, with squared length 0. *)
Lemma normalize_null (v : Vector3) :
  length v = 0 -> lengthSq (normalize v) = 0.
Proof.
  intros Hlen. unfold normalize.
  destruct (Req_dec_T (length v) 0) as [_ | Hno]; [| contradiction].
  unfold divideScalar. rewrite lengthSq_scaled, <- length_square, Hlen. field.
Qed.

Lemma lengthSq_one_length (v : Vector3) : lengthSq v = 1 -> length v = 1.
Proof. intros Hsq. unfold length. rewrite Hsq. apply sqrt_1. Qed.

Lemma invert_unit (q : Quaternion) : unitQuaternion q -> unitQuaternion (invert q).
Proof.
  unfold unitQuaternion, invert. cbn [qx qy qz qw]. intros Hq. rewrite <- Hq. ring.
Qed.

(** Step C of the set-up: the world direction is of unit length. *)
Lemma world_direction_unit (v : Vector3) :
  lengthSq (if Rlt_dec (lengthSq (normalize v)) 0.0001
            then mkVector3 0 1 0 else normalize v) = 1.
Proof.
  destruct (Req_dec_T (length v) 0) as [Hzero | Hpos].
  - rewrite (normalize_null v Hzero).
    destruct (Rlt_dec 0 0.0001) as [_ | Hno]; [| lra].
    unfold lengthSq. cbn [x y z]. ring.
  - rewrite (normalize_unit v Hpos).
    destruct (Rlt_dec 1 0.0001) as [Hno | _]; [lra |].
    apply normalize_unit. exact Hpos.
Qed.

Lemma explosionVector_lengthSq (gc : Vector3) (child : Object3D) :
  parentUnit child -> lengthSq (explosionVector gc child) = 1.
Proof.
  intros Hparent. unfold explosionVector. cbv zeta.
  set (dirWorld := if Rlt_dec _ 0.0001 then mkVector3 0 1 0 else _).
  assert (Hworld : lengthSq dirWorld = 1) by apply world_direction_unit.
  unfold parentUnit in Hparent.
  destruct (parentWorldQuaternion child) as [q |].
  - assert (Hlocal : lengthSq (applyQuaternion dirWorld (invert q)) = 1).
    { rewrite applyQuaternion_lengthSq; [exact Hworld | apply invert_unit, Hparent]. }
    apply normalize_unit. rewrite (lengthSq_one_length _ Hlocal). lra.
  - apply normalize_unit. rewrite (lengthSq_one_length _ Hworld). lra.
Qed.

End DirectionProperties.

(** X6: the explosion direction computed for a node is of length 1 whenever
    the world quaternion of its parent is of unit length; for a node without a
    parent whose box is centred on the centre of the assembly it is
    [(0, 1, 0)]. *)
Theorem explosionVector_unit :
  forall (globalCenter : THREE.Vector3) (child : ThreeCanvas.Object3D),
    (MoreNotions.parentUnit child ->
     THREE.length (ThreeCanvas.explosionVector globalCenter child) = 1)
    /\ (THREE.getCenter (ThreeCanvas.boundingBox child) = globalCenter ->
        ThreeCanvas.parentWorldQuaternion child = None ->
        ThreeCanvas.explosionVector globalCenter child = THREE.mkVector3 0 1 0).
Proof.
  intros globalCenter child. split.
  - intros Hparent. apply lengthSq_one_length.
    apply explosionVector_lengthSq. exact Hparent.
  - intros Hcentre Hroot. unfold ThreeCanvas.explosionVector. cbv zeta.
    rewrite Hcentre, Hroot.
    assert (Hnull : THREE.length (THREE.subVectors globalCenter globalCenter) = 0).
    { unfold THREE.length. replace (THREE.lengthSq _) with 0; [apply sqrt_0 |].
      vec_unfold. ring. }
    rewrite (normalize_null _ Hnull).
    destruct (Rlt_dec 0 0.0001) as [_ | Hno]; [| lra].
    unfold THREE.normalize.
    assert (Hone : THREE.length (THREE.mkVector3 0 1 0) = 1).
    { apply lengthSq_one_length. vec_unfold. ring. }
    rewrite Hone. destruct (Req_dec_T 1 0) as [Habs | _]; [lra |].
    vec_unfold. f_equal; field.
Qed.

Lemma explosionVector_unit_witness :
  THREE.length
    (ThreeCanvas.explosionVector (THREE.mkVector3 7 2 0)
       (Samples.part "part-a" (THREE.mkVector3 0 0 0) (Some Samples.steel))) = 1.
Proof.
  apply (explosionVector_unit (THREE.mkVector3 7 2 0)
           (Samples.part "part-a" (THREE.mkVector3 0 0 0) (Some Samples.steel))).
  exact I.
Defined.

(** ** Explode mode on: where the parts go *)

Section ExplodeOnProperties.

Import THREE ThreeCanvas Notions MoreNotions.

Variable setHex : Z -> Color.

(** One frame, with either flag, on a mesh that has its two entries. *)
Lemma explodeChild_position (mode : bool) (refs : Refs) (child : Object3D)
  (base dir : Vector3) :
  isMesh child = true ->
  originalPositions refs !! uuid child = Some base ->
  explosionVectors refs !! uuid child = Some dir ->
  position (explodeChild mode refs child)
  = lerp (position child) (targetPos base dir (expandDist mode refs)) 0.1.
Proof.
  intros Hmesh Hbase Hdir. unfold explodeChild.
  rewrite Hmesh, Hbase, Hdir. reflexivity.
Qed.

Lemma explodeChild_iter_distance (mode : bool) (refs : Refs) (child : Object3D)
  (base dir : Vector3) (n : nat) :
  isMesh child = true ->
  originalPositions refs !! uuid child = Some base ->
  explosionVectors refs !! uuid child = Some dir ->
  distanceTo (position (Nat.iter n (explodeChild mode refs) child))
             (targetPos base dir (expandDist mode refs))
  = 0.9 ^ n * distanceTo (position child) (targetPos base dir (expandDist mode refs)).
Proof.
  intros Hmesh Hbase Hdir. induction n as [| n IH].
  - cbn. lra.
  - rewrite Nat.iter_succ.
    destruct (explodeChild_iter_uuid mode refs n child) as [Hu Hm].
    rewrite (explodeChild_position mode refs _ base dir).
    + rewrite lerp_contracts, IH. cbn [pow]. ring.
    + rewrite Hm. exact Hmesh.
    + rewrite Hu. exact Hbase.
    + rewrite Hu. exact Hdir.
Qed.

Lemma expandDist_on_positive (refs : Refs) : 0 < expandDist true refs.
Proof.
  unfold expandDist. cbv zeta. destruct (Rgt_dec (modelSize refs) 0); lra.
Qed.

(** The exploded position lies the expansion distance from the baseline. *)
Lemma targetPos_distance (base dir : Vector3) (dist : R) :
  lengthSq dir = 1 -> 0 <= dist ->
  distanceTo (targetPos base dir dist) base = dist.
Proof.
  intros Hunit Hdist. unfold targetPos. rewrite distanceTo_offset.
  rewrite (lengthSq_one_length dir Hunit), (Rabs_pos_eq dist Hdist). ring.
Qed.

Lemma explode_on_converges (refs : Refs) (eps : R) (scene : Scene) :
  isInitialized refs = true ->
  0 < eps ->
  directionsUnit refs ->
  meshesRegistered refs scene ->
  exists N : nat, forall n : nat, (N <= n)%nat ->
    nearExploded refs (expandDist true refs) eps
      (Nat.iter n (explodeFrame true refs) scene).
Proof.
  intros Hinit Heps Hunit Hreg.
  assert (Hlist : exists N : nat, forall n : nat, (N <= n)%nat ->
            nearExploded refs (expandDist true refs) eps
              (List.map (Nat.iter n (explodeChild true refs)) scene)).
  { induction scene as [| child rest IH].
    - exists 0%nat. intros n _. apply List.Forall_nil.
    - apply List.Forall_cons_iff in Hreg. destruct Hreg as [Hchild Hrest].
      destruct (IH Hrest) as [Nrest HNrest].
      destruct (isMesh child) eqn:Hmesh.
      + destruct (Hchild Hmesh) as [[base Hbase] [dir Hdir]].
        destruct (damped_below
                    (distanceTo (position child)
                       (targetPos base dir (expandDist true refs))) eps
                    (distanceTo_nonneg _ _) Heps) as [Nchild HNchild].
        exists (Nat.max Nchild Nrest). intros n Hn.
        cbn [List.map]. apply List.Forall_cons.
        * intros _. exists base, dir.
          destruct (explodeChild_iter_uuid true refs n child) as [Hu _].
          rewrite Hu. split; [exact Hbase |]. split; [exact Hdir |]. split.
          -- apply targetPos_distance; [apply (Hunit _ _ Hdir) |].
             apply Rlt_le, expandDist_on_positive.
          -- rewrite (explodeChild_iter_distance true refs child base dir n
                        Hmesh Hbase Hdir).
             apply HNchild. lia.
        * apply HNrest. lia.
      + exists Nrest. intros n Hn. cbn [List.map]. apply List.Forall_cons.
        * destruct (explodeChild_iter_uuid true refs n child) as [_ Hm].
          rewrite Hm, Hmesh. discriminate.
        * apply HNrest. exact Hn. }
  destruct Hlist as [N HN]. exists N. intros n Hn.
  rewrite explodeFrame_iter by exact Hinit. apply HN. exact Hn.
Qed.

Lemma setIfAbsent_value {V : Type} (k j : string) (v w : V) (m : gmap string V) :
  setIfAbsent k v m !! j = Some w -> m !! j = Some w \/ w = v.
Proof.
  unfold setIfAbsent. destruct (m !! k) eqn:Hk; [auto |].
  destruct (decide (k = j)) as [-> | Hne].
  - rewrite lookup_insert_eq. intros [= <-]. auto.
  - rewrite lookup_insert_ne by exact Hne. auto.
Qed.

Lemma setupChild_directions (gc : Vector3) (refs : Refs) (child : Object3D) :
  parentUnit child -> directionsUnit refs ->
  directionsUnit (fst (setupChild setHex gc refs child)).
Proof.
  intros Hparent Hrefs. unfold setupChild.
  destruct (isMesh child); [| exact Hrefs].
  destruct (material child); cbn; intros k dir Hk; cbn in Hk;
    apply setIfAbsent_value in Hk; destruct Hk as [Hold | ->];
    try apply (Hrefs k dir Hold); apply explosionVector_lengthSq; exact Hparent.
Qed.

Lemma traverse_directions (gc : Vector3) (scene : Scene) :
  forall refs : Refs,
    Forall parentUnit scene -> directionsUnit refs ->
    directionsUnit (fst (traverse (setupChild setHex gc) refs scene)).
Proof.
  induction scene as [| child rest IH]; intros refs Hscene Hrefs.
  - exact Hrefs.
  - apply List.Forall_cons_iff in Hscene. destruct Hscene as [Hchild Hrest].
    rewrite traverse_cons. cbn [fst]. apply IH; [exact Hrest |].
    apply setupChild_directions; assumption.
Qed.

Lemma traverse_flags (gc : Vector3) (scene : Scene) :
  forall refs : Refs,
    modelSize (fst (traverse (setupChild setHex gc) refs scene)) = modelSize refs.
Proof.
  induction scene as [| child rest IH]; intros refs.
  - reflexivity.
  - rewrite traverse_cons. cbn [fst]. rewrite IH.
    apply (setupChild_flags setHex gc refs child).
Qed.

Lemma setupScene_modelSize (box : Box3) (refs : Refs) (scene : Scene) :
  modelSize (fst (setupScene setHex box refs scene)) = THREE.length (getSize box).
Proof.
  unfold setupScene.
  match goal with
  | |- context [traverse ?f ?r scene] =>
      pose proof (traverse_flags (getCenter box) scene r) as Hsize;
      destruct (traverse f r scene) as [refs2 scene']
  end.
  cbn in *. exact Hsize.
Qed.

Lemma setupScene_directions (box : Box3) (scene : Scene) :
  Forall parentUnit scene ->
  directionsUnit (fst (setupScene setHex box emptyRefs scene)).
Proof.
  intros Hscene.
  destruct (setupScene_maps setHex box emptyRefs scene) as [_ [_ [Hv _]]].
  intros k dir Hk. rewrite Hv in Hk.
  revert k dir Hk. apply traverse_directions; [exact Hscene |].
  intros k dir Hk. cbn in Hk. rewrite lookup_empty in Hk. discriminate.
Qed.

(** The three maps only grow: a key keeps the value it was first given. *)
Lemma setupChild_captures (gc : Vector3) (refs : Refs) (child : Object3D) :
  capturesKept refs (fst (setupChild setHex gc refs child)).
Proof.
  unfold setupChild. destruct (isMesh child).
  - destruct (material child); repeat split; cbn; intros k v Hk;
      try apply setIfAbsent_first; exact Hk.
  - repeat split; intros k v Hk; exact Hk.
Qed.

Lemma capturesKept_trans (r1 r2 r3 : Refs) :
  capturesKept r1 r2 -> capturesKept r2 r3 -> capturesKept r1 r3.
Proof.
  intros [Hp12 [Hv12 Hm12]] [Hp23 [Hv23 Hm23]]. repeat split; intros k v Hk.
  - apply Hp23, Hp12, Hk.
  - apply Hv23, Hv12, Hk.
  - apply Hm23, Hm12, Hk.
Qed.

Lemma traverse_captures (gc : Vector3) (scene : Scene) :
  forall refs : Refs,
    capturesKept refs (fst (traverse (setupChild setHex gc) refs scene)).
Proof.
  induction scene as [| child rest IH]; intros refs.
  - repeat split; intros k v Hk; exact Hk.
  - rewrite traverse_cons. cbn [fst].
    eapply capturesKept_trans; [apply setupChild_captures | apply IH].
Qed.

End ExplodeOnProperties.

(** X7: on a scene set up from fresh refs, all parent quaternions being of
    unit length, the exploded position of each mesh lies exactly the expansion
    distance from its baseline: half the diagonal of the model, or 175 when
    the diagonal is 0; and frames with the explode flag on bring every mesh
    within any positive epsilon of that position, and keep it there. *)
Theorem explode_on_reaches_target :
  forall (setHex : Z -> THREE.Color) (globalBox : THREE.Box3)
         (clonedScene : ThreeCanvas.Scene) (eps : R),
    0 < eps ->
    Forall MoreNotions.parentUnit clonedScene ->
    let refs :=
      fst (ThreeCanvas.setupScene setHex globalBox ThreeCanvas.emptyRefs clonedScene) in
    let scene :=
      snd (ThreeCanvas.setupScene setHex globalBox ThreeCanvas.emptyRefs clonedScene) in
    let diagonal := THREE.length (THREE.getSize globalBox) in
    let dist := (if Rgt_dec diagonal 0 then diagonal else 350) * 0.5 in
    ThreeCanvas.expandDist true refs = dist
    /\ 0 < dist
    /\ exists N : nat, forall n : nat, (N <= n)%nat ->
         MoreNotions.nearExploded refs dist eps
           (Nat.iter n (ThreeCanvas.explodeFrame true refs) scene).
Proof.
  intros setHex globalBox clonedScene eps Heps Hparents refs scene diagonal dist.
  assert (Hdist : ThreeCanvas.expandDist true refs = dist).
  { unfold ThreeCanvas.expandDist, refs. cbv zeta.
    rewrite setupScene_modelSize. reflexivity. }
  split; [exact Hdist |]. split.
  - rewrite <- Hdist. apply expandDist_on_positive.
  - rewrite <- Hdist.
    destruct (setupScene_registers setHex globalBox ThreeCanvas.emptyRefs clonedScene)
      as [Hinit Hreg].
    apply explode_on_converges; try assumption.
    apply setupScene_directions. exact Hparents.
Qed.

Lemma twoParts_parents : Forall MoreNotions.parentUnit Samples.twoParts.
Proof.
  unfold Samples.twoParts.
  repeat (apply List.Forall_cons; [exact I |]). apply List.Forall_nil.
Qed.

Lemma explode_on_reaches_target_witness :
  let refs :=
    fst (ThreeCanvas.setupScene Samples.sampleSetHex Samples.twoPartsBox
           ThreeCanvas.emptyRefs Samples.twoParts) in
  0 < ThreeCanvas.expandDist true refs.
Proof.
  intros refs.
  destruct (explode_on_reaches_target Samples.sampleSetHex Samples.twoPartsBox
              Samples.twoParts 1 Rlt_0_1 twoParts_parents) as [Hdist [Hpos _]].
  fold refs in Hdist. rewrite Hdist. exact Hpos.
Defined.

(** X8: the set-up effect never overwrites what it has captured: a baseline
    position, an explosion direction or a baseline material stored under a
    [uuid] is still stored under it after the effect has run again, on any
    scene. *)
Theorem setup_keeps_captures :
  forall (setHex : Z -> THREE.Color) (globalBox : THREE.Box3)
         (refs : ThreeCanvas.Refs) (clonedScene : ThreeCanvas.Scene),
    MoreNotions.capturesKept refs
      (fst (ThreeCanvas.setupScene setHex globalBox refs clonedScene)).
Proof.
  intros setHex globalBox refs clonedScene.
  destruct (setupScene_maps setHex globalBox refs clonedScene)
    as [Hm [Hp [Hv _]]].
  match type of Hm with
  | _ = ThreeCanvas.originalMaterials (fst (ThreeCanvas.traverse ?f ?r ?l)) =>
      destruct (traverse_captures setHex (THREE.getCenter globalBox) l r)
        as [Kp [Kv Km]]
  end.
  repeat split; intros k v Hk.
  - rewrite Hp. apply Kp. exact Hk.
  - rewrite Hv. apply Kv. exact Hk.
  - rewrite Hm. apply Km. exact Hk.
Qed.

(** ** Normalising twice, tinting, restoring at once *)

Section MaterialProperties.

Import THREE ThreeCanvas Notions MoreNotions.

Variable setHex : Z -> Color.
Variable setHSL : R -> R -> R -> Color.

Lemma nearWhite_spec (m : Material) :
  nearWhite m = true ->
  map m = false /\ exists col, color m = Some col /\ nearWhiteColor col.
Proof.
  unfold nearWhite, nearWhiteColor. destruct (color m) as [col |]; [| discriminate].
  destruct (map m); [discriminate |]. cbn [negb andb].
  destruct (Rgt_dec (r col) 0.92); [| discriminate].
  destruct (Rgt_dec (g col) 0.92); [| discriminate].
  destruct (Rgt_dec (THREE.b col) 0.92); [| discriminate].
  intros _. split; [reflexivity |]. exists col. auto.
Qed.

Lemma nearWhite_normalized (attr : bool) (m : Material) :
  ~ nearWhiteColor (setHex 0xc0c0c0%Z) ->
  nearWhite (normalizeMaterial setHex attr m) = false.
Proof.
  intros Hgrey.
  destruct (nearWhite (normalizeMaterial setHex attr m)) eqn:Hagain; [| reflexivity].
  apply nearWhite_spec in Hagain. destruct Hagain as [Hmap [col [Hcol Hwhite]]].
  cbn [normalizeMaterial color map] in Hcol, Hmap.
  destruct (nearWhite m) eqn:Hfirst.
  - injection Hcol as <-. contradiction.
  - unfold nearWhite in Hfirst. rewrite Hcol, Hmap in Hfirst.
    destruct Hwhite as [Hr [Hg Hb]]. cbn [negb andb] in Hfirst.
    destruct (Rgt_dec (r col) 0.92); [| contradiction].
    destruct (Rgt_dec (g col) 0.92); [| contradiction].
    destruct (Rgt_dec (THREE.b col) 0.92); [discriminate | contradiction].
Qed.

(** A mesh of a set-up scene keeps the [uuid] and the kind of the node it
    was made from. *)
Lemma traverse_setup_Forall2 (Q : Object3D -> Object3D -> Prop) (gc : Vector3) :
  (forall refs child, Q child (snd (setupChild setHex gc refs child))) ->
  forall scene refs,
    Forall2 Q scene (snd (traverse (setupChild setHex gc) refs scene)).
Proof.
  intros HQ scene. induction scene as [| child rest IH]; intros refs.
  - apply List.Forall2_nil.
  - rewrite traverse_cons. cbn [snd]. apply List.Forall2_cons; [apply HQ | apply IH].
Qed.

Lemma colorChild_tint_succeeds (refs : Refs) (child : Object3D) :
  is_Some (colorChild setHSL true refs child) <-> coloredMesh child.
Proof.
  unfold colorChild, coloredMesh. destruct (isMesh child).
  - destruct (material child) as [m |].
    + destruct (color m) as [col |] eqn:Hcol.
      * split; [intros _ _; exists m, col; auto | intros _; eauto].
      * split; [intros [? Habs]; discriminate |].
        intros Hc. destruct (Hc eq_refl) as [m' [col [[= <-] Hcol']]]. congruence.
    + split; [intros [? Habs]; discriminate |].
      intros Hc. destruct (Hc eq_refl) as [m' [col [Habs _]]]. discriminate.
  - split; [intros _ Habs; discriminate | intros _; eauto].
Qed.

(** The restore branch on a ready mesh, straight after the set-up. *)
Lemma colorChild_restore_fresh (refs : Refs) (loaded child : Object3D) :
  uuid child = uuid loaded -> isMesh child = isMesh loaded ->
  colorReady refs child -> baselineIsLoaded refs loaded -> coloredMesh loaded ->
  exists shown,
    colorChild setHSL false refs child = Some shown
    /\ showsLoadedColor loaded shown.
Proof.
  intros Hu Hm Hready Hbase Hcolored. unfold colorChild, showsLoadedColor.
  destruct (isMesh child) eqn:Hmesh.
  - symmetry in Hm.
    destruct (Hready Hmesh) as [[m [col [Hmat [Hcol _]]]] _].
    destruct (Hcolored Hm) as [m0 [col0 [Hm0 Hcol0]]].
    rewrite Hu, (Hbase Hm m0 Hm0), Hcol0, Hmat, Hcol.
    eexists. split; [reflexivity |]. intros _.
    exists m0. eexists. split; [exact Hm0 |]. split; [reflexivity |].
    cbn [color withNeedsUpdate withColor]. symmetry. exact Hcol0.
  - eexists. split; [reflexivity |]. rewrite <- Hm. discriminate.
Qed.

Lemma restore_fresh_scene (refs : Refs) (loaded scene : Scene) :
  Forall2 (fun c0 c => uuid c = uuid c0 /\ isMesh c = isMesh c0) loaded scene ->
  Forall (colorReady refs) scene ->
  Forall (baselineIsLoaded refs) loaded ->
  Forall coloredMesh loaded ->
  exists shown,
    mapM (colorChild setHSL false refs) scene = Some shown
    /\ Forall2 showsLoadedColor loaded shown.
Proof.
  induction 1 as [| c0 c rest0 rest [Hu Hm] _ IH]; intros Hready Hbase Hcolored.
  - exists []. split; [reflexivity | apply List.Forall2_nil].
  - apply List.Forall_cons_iff in Hready. destruct Hready as [Hr Hready].
    apply List.Forall_cons_iff in Hbase. destruct Hbase as [Hb Hbase].
    apply List.Forall_cons_iff in Hcolored. destruct Hcolored as [Hc Hcolored].
    destruct (IH Hready Hbase Hcolored) as [shown [Hshown Hrel]].
    destruct (colorChild_restore_fresh refs c0 c Hu Hm Hr Hb Hc) as [first [Hfirst Hf]].
    exists (first :: shown). split.
    + cbn. rewrite Hfirst. cbn. rewrite Hshown. reflexivity.
    + apply List.Forall2_cons; assumption.
Qed.

End MaterialProperties.

(** X9: normalising a material a second time changes nothing, provided the
    grey that replaces a near-white colour is not itself near-white. *)
Theorem normalizeMaterial_idempotent :
  forall (setHex : Z -> THREE.Color) (attr : bool) (m : ThreeCanvas.Material),
    ~ MoreNotions.nearWhiteColor (setHex 0xc0c0c0%Z) ->
    ThreeCanvas.normalizeMaterial setHex attr (ThreeCanvas.normalizeMaterial setHex attr m)
    = ThreeCanvas.normalizeMaterial setHex attr m.
Proof.
  intros setHex attr m Hgrey.
  pose proof (nearWhite_normalized setHex attr m Hgrey) as Hnot.
  unfold ThreeCanvas.normalizeMaterial at 1. rewrite Hnot.
  unfold ThreeCanvas.normalizeMaterial.
  cbn [ThreeCanvas.metalness ThreeCanvas.roughness ThreeCanvas.map
       ThreeCanvas.color ThreeCanvas.vertexColors].
  f_equal.
  - destruct (ThreeCanvas.metalness m) as [v |]; [| reflexivity].
    destruct (Rgt_dec v 0.9) as [Hgt | Hle].
    + destruct (Rgt_dec 0.6 0.9) as [Habs | _]; [lra | reflexivity].
    + destruct (Rgt_dec v 0.9) as [Habs | _]; [contradiction | reflexivity].
  - destruct (ThreeCanvas.roughness m) as [v |]; [| reflexivity].
    destruct (Rlt_dec v 0.1) as [Hlt | Hge].
    + destruct (Rlt_dec 0.3 0.1) as [Habs | _]; [lra | reflexivity].
    + destruct (Rlt_dec v 0.1) as [Habs | _]; [contradiction | reflexivity].
  - destruct attr; [reflexivity |]. reflexivity.
Qed.

Lemma sample_grey_not_white : ~ MoreNotions.nearWhiteColor (Samples.sampleSetHex 0xc0c0c0%Z).
Proof.
  unfold MoreNotions.nearWhiteColor, Samples.sampleSetHex. cbn [THREE.r THREE.g THREE.b].
  change (Z.land (Z.shiftr 12632256 16) 255) with 192%Z.
  intros [Hr _]. lra.
Qed.

Lemma normalizeMaterial_idempotent_witness :
  ThreeCanvas.normalizeMaterial Samples.sampleSetHex false
    (ThreeCanvas.normalizeMaterial Samples.sampleSetHex false Samples.steel)
  = ThreeCanvas.normalizeMaterial Samples.sampleSetHex false Samples.steel.
Proof.
  apply (normalizeMaterial_idempotent Samples.sampleSetHex false Samples.steel).
  exact sample_grey_not_white.
Defined.

(** X10: once the viewer is initialised, turning colour mode on succeeds
    exactly when every mesh of the scene has a material with a colour; a mesh
    without either makes the effect fail.  Before initialisation the effect
    leaves the scene as it is, in either mode. *)
Theorem tint_succeeds_iff_colored :
  forall (setHSL : R -> R -> R -> THREE.Color) (refs : ThreeCanvas.Refs)
         (clonedScene : ThreeCanvas.Scene),
    (ThreeCanvas.isInitialized refs = true ->
     (is_Some (ThreeCanvas.colorEffect setHSL true refs clonedScene)
      <-> Forall Notions.coloredMesh clonedScene))
    /\ (ThreeCanvas.isInitialized refs = false ->
        forall mode, ThreeCanvas.colorEffect setHSL mode refs clonedScene
                     = Some clonedScene).
Proof.
  intros setHSL refs clonedScene. split.
  - intros Hinit. unfold ThreeCanvas.colorEffect. rewrite Hinit. cbv iota.
    split.
    + intros Hsome. apply mapM_is_Some_1 in Hsome.
      eapply List.Forall_impl; [| exact Hsome].
      intros child Hchild. apply (colorChild_tint_succeeds setHSL refs child).
      exact Hchild.
    + intros Hall. apply mapM_is_Some_2.
      eapply List.Forall_impl; [| exact Hall].
      intros child Hchild. apply (colorChild_tint_succeeds setHSL refs child).
      exact Hchild.
  - intros Hinit mode. unfold ThreeCanvas.colorEffect. rewrite Hinit. reflexivity.
Qed.

Lemma tint_succeeds_iff_colored_witness :
  is_Some
    (ThreeCanvas.colorEffect Samples.sampleSetHSL true
       (fst (ThreeCanvas.setupScene Samples.sampleSetHex Samples.twoPartsBox
               ThreeCanvas.emptyRefs Samples.twoParts))
       Samples.twoParts).
Proof.
  destruct (tint_succeeds_iff_colored Samples.sampleSetHSL
              (fst (ThreeCanvas.setupScene Samples.sampleSetHex Samples.twoPartsBox
                      ThreeCanvas.emptyRefs Samples.twoParts))
              Samples.twoParts) as [Hinit _].
  apply Hinit; [reflexivity | exact twoParts_colored].
Defined.

(** X11: on a scene whose meshes have distinct [uuid]s and coloured
    materials, set up from fresh refs, the colour effect with colour mode off
    succeeds and leaves every mesh with the colour of the material it was
    loaded with; the grey the set-up puts on a near-white mesh does not
    survive it. *)
Theorem restore_after_setup_shows_loaded_color :
  forall (setHex : Z -> THREE.Color) (setHSL : R -> R -> R -> THREE.Color)
         (globalBox : THREE.Box3) (clonedScene : ThreeCanvas.Scene),
    Forall Notions.coloredMesh clonedScene ->
    List.NoDup (Notions.meshUuids clonedScene) ->
    let refs :=
      fst (ThreeCanvas.setupScene setHex globalBox ThreeCanvas.emptyRefs clonedScene) in
    let scene :=
      snd (ThreeCanvas.setupScene setHex globalBox ThreeCanvas.emptyRefs clonedScene) in
    exists shown,
      ThreeCanvas.colorEffect setHSL false refs scene = Some shown
      /\ Forall2 MoreNotions.showsLoadedColor clonedScene shown.
Proof.
  intros setHex setHSL globalBox clonedScene Hcolored Hnodup refs scene.
  destruct (setupScene_maps setHex globalBox ThreeCanvas.emptyRefs clonedScene)
    as [_ [_ [_ [Hinit Hscene]]]].
  unfold ThreeCanvas.colorEffect. fold refs in Hinit. rewrite Hinit.
  apply (restore_fresh_scene setHSL refs clonedScene scene).
  - unfold scene. rewrite Hscene. apply traverse_setup_Forall2.
    intros r child.
    destruct (setupChild_shape setHex (THREE.getCenter globalBox) r child)
      as [Hu [Hm _]].
    split; assumption.
  - apply setupScene_ready. exact Hcolored.
  - apply setupScene_baselines. exact Hnodup.
  - exact Hcolored.
Qed.

Lemma twoParts_distinct : List.NoDup (Notions.meshUuids Samples.twoParts).
Proof.
  unfold Notions.meshUuids, Samples.twoParts. cbn.
  apply List.NoDup_cons.
  - intros [Heq | []]. discriminate.
  - apply List.NoDup_cons; [intros [] | apply List.NoDup_nil].
Qed.

Lemma restore_after_setup_shows_loaded_color_witness :
  let refs :=
    fst (ThreeCanvas.setupScene Samples.sampleSetHex Samples.twoPartsBox
           ThreeCanvas.emptyRefs Samples.twoParts) in
  let scene :=
    snd (ThreeCanvas.setupScene Samples.sampleSetHex Samples.twoPartsBox
           ThreeCanvas.emptyRefs Samples.twoParts) in
  exists shown,
    ThreeCanvas.colorEffect Samples.sampleSetHSL false refs scene = Some shown
    /\ Forall2 MoreNotions.showsLoadedColor Samples.twoParts shown.
Proof.
  intros refs scene.
  apply (restore_after_setup_shows_loaded_color Samples.sampleSetHex
           Samples.sampleSetHSL Samples.twoPartsBox Samples.twoParts
           twoParts_colored twoParts_distinct).
Defined.

(** ** Toolbar actions *)

Section ToolbarProperties.

Import THREE ThreeCanvas ViewerControls.

Lemma length_sub_distance (p q : Vector3) : length (subVectors p q) = distanceTo p q.
Proof. reflexivity. Qed.

Lemma offset_of_scaled (tgt p : Vector3) (s : R) :
  subVectors (add tgt (multiplyScalar (subVectors p tgt) s)) tgt
  = multiplyScalar (subVectors p tgt) s.
Proof. vec_unfold. f_equal; ring. Qed.

Lemma scaled_twice (v : Vector3) (s t : R) :
  multiplyScalar (multiplyScalar v s) t = multiplyScalar v (s * t).
Proof. vec_unfold. f_equal; ring. Qed.

End ToolbarProperties.

(** X12: zooming in hands [controls.update()] the camera moved along its
    line to the orbit target to 0.7 of its distance, zooming out to 1.4 of it,
    with the controls as they were; the viewer then holds what the update
    returns.  When the update after a zoom in leaves the camera there, a zoom
    out that follows hands over the camera at 0.98 of its first offset: the
    two steps do not cancel. *)
Theorem zoom_scales_offset :
  forall (update update' : ThreeCanvas.Update) (v : ThreeCanvas.Viewer)
         (camera : ThreeCanvas.PerspectiveCamera)
         (controls : ThreeCanvas.OrbitControls),
    ThreeCanvas.cameraControls v = Some (camera, controls) ->
    let tgt := ThreeCanvas.target controls in
    let offset := THREE.subVectors (ThreeCanvas.camPosition camera) tgt in
    let scaled := fun (s : R) =>
      {| ThreeCanvas.camPosition := THREE.add tgt (THREE.multiplyScalar offset s);
         ThreeCanvas.camUp := ThreeCanvas.camUp camera;
         ThreeCanvas.fov := ThreeCanvas.fov camera |} in
    ThreeCanvas.cameraControls (ViewerControls.handleZoomIn update v)
    = Some (update (scaled 0.7, controls))
    /\ ThreeCanvas.cameraControls (ViewerControls.handleZoomOut update v)
       = Some (update (scaled 1.4, controls))
    /\ (forall s, 0 <= s ->
          THREE.subVectors (ThreeCanvas.camPosition (scaled s)) tgt
          = THREE.multiplyScalar offset s
          /\ THREE.distanceTo (ThreeCanvas.camPosition (scaled s)) tgt
             = s * THREE.distanceTo (ThreeCanvas.camPosition camera) tgt)
    /\ (update (scaled 0.7, controls) = (scaled 0.7, controls) ->
        exists cameraBoth,
          ThreeCanvas.cameraControls
            (ViewerControls.handleZoomOut update'
               (ViewerControls.handleZoomIn update v))
          = Some (update' (cameraBoth, controls))
          /\ THREE.subVectors (ThreeCanvas.camPosition cameraBoth) tgt
             = THREE.multiplyScalar offset 0.98).
Proof.
  intros update update' v camera controls Hcc tgt offset scaled.
  split; [| split; [| split]].
  - unfold ViewerControls.handleZoomIn. rewrite Hcc. reflexivity.
  - unfold ViewerControls.handleZoomOut. rewrite Hcc. reflexivity.
  - intros s Hs. unfold scaled. cbn [ThreeCanvas.camPosition]. split.
    + unfold offset. apply offset_of_scaled.
    + rewrite distanceTo_offset. unfold offset. rewrite length_sub_distance.
      rewrite Rabs_pos_eq by exact Hs. reflexivity.
  - intros Hrest.
    unfold ViewerControls.handleZoomOut, ViewerControls.handleZoomIn.
    rewrite Hcc. cbv zeta. fold tgt offset. fold (scaled 0.7). rewrite Hrest.
    cbn [ThreeCanvas.cameraControls ViewerControls.withCamera].
    eexists. split; [reflexivity |].
    unfold scaled. cbn [ThreeCanvas.camPosition].
    unfold offset. rewrite !offset_of_scaled, scaled_twice.
    f_equal. lra.
Qed.

Lemma zoom_scales_offset_witness :
  exists cameraBoth,
    ThreeCanvas.cameraControls
      (ViewerControls.handleZoomOut Samples.updateWithin1000
         (ViewerControls.handleZoomIn Samples.updateAtRest
            (Samples.viewerWith 50 Samples.uploadedUrl None 10 true)))
      = Some (Samples.updateWithin1000
                (cameraBoth,
                 {| ThreeCanvas.target := THREE.mkVector3 0 0 0;
                    ThreeCanvas.ctlEnableDamping := true;
                    ThreeCanvas.ctlAutoRotate := false |}))
    /\ THREE.subVectors (ThreeCanvas.camPosition cameraBoth) (THREE.mkVector3 0 0 0)
       = THREE.multiplyScalar
           (THREE.subVectors (THREE.mkVector3 0 0 500) (THREE.mkVector3 0 0 0)) 0.98.
Proof.
  destruct (zoom_scales_offset Samples.updateAtRest Samples.updateWithin1000
              (Samples.viewerWith 50 Samples.uploadedUrl None 10 true)
              _ _ eq_refl) as [_ [_ [_ Hboth]]].
  apply Hboth. reflexivity.
Defined.



(** X14: for a model of positive size and mounted controls, the zoom limits
    become [max (size / 10000) 0.01] and [size * 100]; the lower limit is at
    least 0.01, and it lies below the upper limit exactly when the size
    exceeds 0.0001: for a smaller model the limits are the wrong way round.
    Without a positive size, or without controls, the limits stay. *)
Theorem zoom_limits_order :
  forall (modelMaxDim : R) (hasControls : bool) (limits : ViewerControls.ZoomLimits),
    (modelMaxDim > 0 ->
     let limits' := ViewerControls.updateZoomLimits modelMaxDim true limits in
     ViewerControls.minDistance limits' = Rmax (modelMaxDim / 10000) 0.01
     /\ ViewerControls.maxDistance limits' = modelMaxDim * 100
     /\ 0.01 <= ViewerControls.minDistance limits'
     /\ (ViewerControls.minDistance limits' < ViewerControls.maxDistance limits'
         <-> modelMaxDim > 0.0001))
    /\ (~ modelMaxDim > 0 \/ hasControls = false ->
        ViewerControls.updateZoomLimits modelMaxDim hasControls limits = limits).
Proof.
  intros modelMaxDim hasControls limits. split.
  - intros Hdim limits'. unfold limits', ViewerControls.updateZoomLimits.
    destruct (Rgt_dec modelMaxDim 0) as [_ | Hno]; [| contradiction].
    cbn [andb ViewerControls.minDistance ViewerControls.maxDistance].
    destruct (Rlt_dec (modelMaxDim / 10000) 0.01) as [Hsmall | Hbig].
    + rewrite Rmax_right by lra. repeat split; try lra.
    + rewrite Rmax_left by lra. repeat split; try lra.
  - intros [Hdim | Hctl]; unfold ViewerControls.updateZoomLimits.
    + destruct (Rgt_dec modelMaxDim 0); [contradiction | reflexivity].
    + rewrite Hctl. destruct (Rgt_dec modelMaxDim 0); reflexivity.
Qed.

Lemma zoom_limits_order_witness :
  ViewerControls.minDistance
    (ViewerControls.updateZoomLimits 0.00005 true (ViewerControls.mkZoomLimits 0 1))
  = Rmax (0.00005 / 10000) 0.01.
Proof.
  destruct (zoom_limits_order 0.00005 true (ViewerControls.mkZoomLimits 0 1))
    as [Hlimits _].
  apply Hlimits. lra.
Defined.

(** X15: at the field of view of the canvas camera, 50 degrees, and for a
    model of size at least 0.01, the distance of the initial framing, with
    either padding, lies within the zoom limits set for that size. *)
Theorem framing_within_zoom_limits :
  forall (maxDim padding : R) (limits : ViewerControls.ZoomLimits),
    0.01 <= maxDim ->
    padding = 1.5 \/ padding = 1.5 * 0.75 ->
    let limits' := ViewerControls.updateZoomLimits maxDim true limits in
    let cameraZ := ThreeCanvas.framingDistance maxDim 50 * padding in
    ViewerControls.minDistance limits' <= cameraZ <= ViewerControls.maxDistance limits'.
Proof.
  intros maxDim padding limits Hdim Hpad limits' cameraZ.
  unfold limits', cameraZ, ViewerControls.updateZoomLimits, ThreeCanvas.framingDistance.
  cbv zeta.
  destruct (Rgt_dec maxDim 0) as [_ | Hno]; [| lra].
  cbn [andb ViewerControls.minDistance ViewerControls.maxDistance].
  pose proof tan_25_below as Hup. pose proof tan_25_above as Hlow.
  set (tn := tan (50 * (PI / 180) / 2)) in *.
  assert (Htn : 0 < tn) by lra.
  assert (Hinv : 0 < / tn) by (apply Rinv_0_lt_compat; exact Htn).
  assert (Hone : / tn * tn = 1) by (apply Rinv_l; lra).
  assert (Hu : 2 < / tn < 2.2) by (split; nra).
  unfold Rdiv. set (u := / tn) in *.
  destruct (Rlt_dec (maxDim * / 10000) 0.01); destruct Hpad as [-> | ->]; split; nra.
Qed.

Lemma framing_within_zoom_limits_witness :
  ViewerControls.minDistance
    (ViewerControls.updateZoomLimits 10 true (ViewerControls.mkZoomLimits 0 1))
  <= ThreeCanvas.framingDistance 10 50 * 1.5
  <= ViewerControls.maxDistance
       (ViewerControls.updateZoomLimits 10 true (ViewerControls.mkZoomLimits 0 1)).
Proof.
  apply (framing_within_zoom_limits 10 1.5 (ViewerControls.mkZoomLimits 0 1)).
  - lra.
  - left. reflexivity.
Defined.

(** ** Canonical views and the life of the framing flag *)

Section ViewProperties.

Import THREE ThreeCanvas ViewerControls.

(** What a canonical view hands to [controls.update()]. *)
Lemma handleViewChange_placed (update : Update) (view : string) (v : Viewer)
  (camera : PerspectiveCamera) (controls : OrbitControls) (offset up : Vector3) :
  cameraControls v = Some (camera, controls) ->
  viewVectors view = Some (offset, up) ->
  handleViewChange update view v
  = {| cameraControls :=
         Some (update
                 ({| camPosition :=
                       add (target controls)
                         (multiplyScalar (applyQuaternion offset (modelQuat v))
                            (viewDistance v camera));
                     camUp := applyQuaternion up (modelQuat v);
                     fov := fov camera |},
                  {| target := target controls;
                     ctlEnableDamping := false; ctlAutoRotate := false |}));
       mainModel := mainModel v; modelMaxDim := modelMaxDim v;
       modelUrl := modelUrl v; autoRotate := false; enableDamping := false;
       initialCameraSet := initialCameraSet v |}.
Proof.
  intros Hcc Hview. unfold handleViewChange. rewrite Hcc, Hview. reflexivity.
Qed.

Lemma applyAction_keeps_flag (v : Viewer) (action : MoreNotions.ViewerAction) :
  initialCameraSet v = true ->
  initialCameraSet (MoreNotions.applyAction v action) = true
  /\ modelUrl (MoreNotions.applyAction v action) = modelUrl v.
Proof.
  intros Hflag. destruct action; cbn [MoreNotions.applyAction].
  - unfold handleZoomIn. destruct (cameraControls v) as [[camera controls] |];
      cbn [initialCameraSet modelUrl withCamera]; auto.
  - unfold handleZoomOut. destruct (cameraControls v) as [[camera controls] |];
      cbn [initialCameraSet modelUrl withCamera]; auto.
  - unfold handleResetView. destruct (cameraControls v) as [[camera controls] |];
      cbn [initialCameraSet modelUrl withCamera]; auto.
  - unfold handleViewChange. destruct (cameraControls v) as [[camera controls] |];
      [| auto].
    destruct (viewVectors view) as [[offset0 up0] |];
      cbn [initialCameraSet modelUrl]; auto.
  - unfold handleModelReady. destruct (cameraControls v) as [[camera controls] |];
      [| cbn [initialCameraSet modelUrl]; auto].
    rewrite Hflag. rewrite andb_false_r. cbn [initialCameraSet modelUrl]. auto.
  - unfold handleCubeRotate. destruct (mainModel v);
      cbn [initialCameraSet modelUrl]; auto.
Qed.

Lemma handleModelReady_framed (update : Update) (model : Model) (maxDim : R)
  (v : Viewer) :
  initialCameraSet v = true ->
  cameraControls (handleModelReady update model maxDim v) = cameraControls v.
Proof.
  intros Hflag. unfold handleModelReady.
  destruct (cameraControls v) as [[camera controls] |]; [| reflexivity].
  rewrite Hflag, andb_false_r. reflexivity.
Qed.

End ViewProperties.

(** X16: what a request for one of the six views hands to
    [controls.update()] does not depend on where the camera was: a viewer whose
    camera has another position and up vector gets the same result.  When the
    updates leave the camera where the request puts it, the same request again
    changes nothing. *)
Theorem canonical_view_forgets_camera :
  forall (update update' : ThreeCanvas.Update) (view : string) (v : ThreeCanvas.Viewer)
         (camera : ThreeCanvas.PerspectiveCamera)
         (controls : ThreeCanvas.OrbitControls) (offset up : THREE.Vector3),
    ThreeCanvas.cameraControls v = Some (camera, controls) ->
    ThreeCanvas.viewVectors view = Some (offset, up) ->
    let placed :=
      ({| ThreeCanvas.camPosition :=
            THREE.add (ThreeCanvas.target controls)
              (THREE.multiplyScalar
                 (THREE.applyQuaternion offset (ThreeCanvas.modelQuat v))
                 (ThreeCanvas.viewDistance v camera));
          ThreeCanvas.camUp := THREE.applyQuaternion up (ThreeCanvas.modelQuat v);
          ThreeCanvas.fov := ThreeCanvas.fov camera |},
       {| ThreeCanvas.target := ThreeCanvas.target controls;
          ThreeCanvas.ctlEnableDamping := false;
          ThreeCanvas.ctlAutoRotate := false |}) in
    (forall (position0 up0 : THREE.Vector3) (damping rotating : bool),
       ThreeCanvas.handleViewChange update view
         (ViewerControls.withCamera v
            ({| ThreeCanvas.camPosition := position0; ThreeCanvas.camUp := up0;
                ThreeCanvas.fov := ThreeCanvas.fov camera |},
             {| ThreeCanvas.target := ThreeCanvas.target controls;
                ThreeCanvas.ctlEnableDamping := damping;
                ThreeCanvas.ctlAutoRotate := rotating |}))
       = ThreeCanvas.handleViewChange update view v)
    /\ (update placed = placed -> update' placed = placed ->
        ThreeCanvas.handleViewChange update' view
          (ThreeCanvas.handleViewChange update view v)
        = ThreeCanvas.handleViewChange update view v).
Proof.
  intros update update' view v camera controls offset up Hcc Hview placed.
  split.
  - intros position0 up0 damping rotating.
    rewrite (handleViewChange_placed update view v camera controls offset up Hcc Hview).
    unfold ThreeCanvas.handleViewChange.
    cbn [ThreeCanvas.cameraControls ViewerControls.withCamera]. rewrite Hview.
    unfold ThreeCanvas.viewDistance, ThreeCanvas.modelQuat.
    cbn [ThreeCanvas.modelMaxDim ThreeCanvas.mainModel ThreeCanvas.fov
         ThreeCanvas.target ThreeCanvas.modelUrl ThreeCanvas.initialCameraSet
         ViewerControls.withCamera].
    reflexivity.
  - intros Hrest Hrest'.
    rewrite (handleViewChange_placed update view v camera controls offset up Hcc Hview).
    fold placed. rewrite Hrest.
    unfold ThreeCanvas.handleViewChange. unfold placed at 1.
    cbn [ThreeCanvas.cameraControls]. rewrite Hview.
    unfold ThreeCanvas.viewDistance, ThreeCanvas.modelQuat.
    cbn [ThreeCanvas.modelMaxDim ThreeCanvas.mainModel ThreeCanvas.fov
         ThreeCanvas.target ThreeCanvas.modelUrl ThreeCanvas.initialCameraSet].
    fold (ThreeCanvas.modelQuat v). fold (ThreeCanvas.viewDistance v camera).
    fold placed. rewrite Hrest'. reflexivity.
Qed.

Lemma canonical_view_forgets_camera_witness :
  ThreeCanvas.handleViewChange Samples.updateAtRest "top"
    (ThreeCanvas.handleViewChange Samples.updateAtRest "top"
       (Samples.viewerWith 50 Samples.uploadedUrl (Some Samples.unrotated) 10 true))
  = ThreeCanvas.handleViewChange Samples.updateAtRest "top"
      (Samples.viewerWith 50 Samples.uploadedUrl (Some Samples.unrotated) 10 true).
Proof.
  destruct (canonical_view_forgets_camera Samples.updateAtRest Samples.updateAtRest
              "top"
              (Samples.viewerWith 50 Samples.uploadedUrl (Some Samples.unrotated) 10 true)
              _ _ _ _ eq_refl eq_refl) as [_ Hagain].
  apply Hagain; reflexivity.
Defined.

(** X17: a view request of the store is consumed once: the effect hands it
    to the view change and clears it, so that a second run of the effect
    changes neither the viewer nor the store. *)
Theorem view_request_consumed_once :
  forall (update update' : ThreeCanvas.Update) (v : ThreeCanvas.Viewer)
         (store : UIStore.State),
    let once := ViewerControls.requestedViewEffect update v store in
    ViewerControls.requestedViewEffect update' (fst once) (snd once) = once
    /\ (forall view,
          UIStore.requestedView store = Some view -> view <> ""%string ->
          once = (ThreeCanvas.handleViewChange update view v,
                  UIStore.setRequestedView None store)
          /\ UIStore.requestedView (snd once) = None
          /\ UIStore.measurePoints (snd once) = UIStore.measurePoints store).
Proof.
  intros update update' v store once.
  unfold once, ViewerControls.requestedViewEffect.
  split.
  - destruct (UIStore.requestedView store) as [view |] eqn:Hreq.
    + destruct (String.eqb view "") eqn:Hempty.
      * cbn [fst snd]. rewrite Hreq, Hempty. reflexivity.
      * cbn [fst snd UIStore.requestedView UIStore.setRequestedView]. reflexivity.
    + cbn [fst snd]. rewrite Hreq. reflexivity.
  - intros view Hreq Hview. rewrite Hreq.
    destruct (String.eqb view "") eqn:Hempty.
    + apply String.eqb_eq in Hempty. contradiction.
    + cbn [fst snd UIStore.requestedView UIStore.setRequestedView
           UIStore.measurePoints].
      repeat split.
Qed.

Lemma view_request_consumed_once_witness :
  UIStore.requestedView
    (snd (ViewerControls.requestedViewEffect Samples.updateAtRest
            (Samples.viewerWith 50 Samples.uploadedUrl None 10 true)
            (UIStore.setRequestedView (Some "top"%string) UIStore.initial)))
  = None.
Proof.
  destruct (view_request_consumed_once Samples.updateAtRest Samples.updateAtRest
              (Samples.viewerWith 50 Samples.uploadedUrl None 10 true)
              (UIStore.setRequestedView (Some "top"%string) UIStore.initial))
    as [_ Hconsumed].
  destruct (Hconsumed "top"%string eq_refl) as [_ [Hnone _]].
  - discriminate.
  - exact Hnone.
Defined.

(** X18: once the camera has been framed for a model URL, no zoom, reset,
    view request, cube rotation or model-ready event clears the framing flag
    or changes the URL, whatever their calls of [controls.update()] do, and so
    a later model-ready event, whatever size it reports, leaves the camera
    where it is. *)
Theorem framing_happens_once :
  forall (actions : list MoreNotions.ViewerAction) (v : ThreeCanvas.Viewer)
         (update : ThreeCanvas.Update) (model : ThreeCanvas.Model) (maxDim : R),
    ThreeCanvas.initialCameraSet v = true ->
    let v' := fold_left MoreNotions.applyAction actions v in
    ThreeCanvas.initialCameraSet v' = true
    /\ ThreeCanvas.modelUrl v' = ThreeCanvas.modelUrl v
    /\ ThreeCanvas.cameraControls (ThreeCanvas.handleModelReady update model maxDim v')
       = ThreeCanvas.cameraControls v'.
Proof.
  intros actions v update model maxDim Hflag v'.
  assert (Hinv : ThreeCanvas.initialCameraSet v' = true
                 /\ ThreeCanvas.modelUrl v' = ThreeCanvas.modelUrl v).
  { unfold v'. clear v'. revert v Hflag.
    induction actions as [| action actions IH]; intros v Hflag.
    - split; [exact Hflag | reflexivity].
    - cbn [fold_left].
      destruct (applyAction_keeps_flag v action Hflag) as [Hflag' Hurl'].
      destruct (IH _ Hflag') as [Hf Hu]. split; [exact Hf |].
      rewrite Hu. exact Hurl'. }
  destruct Hinv as [Hf Hu]. split; [exact Hf |]. split; [exact Hu |].
  apply handleModelReady_framed. exact Hf.
Qed.

Lemma framing_happens_once_witness :
  ThreeCanvas.cameraControls
    (ThreeCanvas.handleModelReady Samples.updateAtRest Samples.unrotated 20
       (fold_left MoreNotions.applyAction
          [ MoreNotions.ZoomIn Samples.updateAtRest;
            MoreNotions.ModelReady Samples.updateWithin1000 Samples.unrotated 30 ]
          (Samples.viewerWith 50 Samples.uploadedUrl None 10 true)))
  = ThreeCanvas.cameraControls
      (fold_left MoreNotions.applyAction
         [ MoreNotions.ZoomIn Samples.updateAtRest;
           MoreNotions.ModelReady Samples.updateWithin1000 Samples.unrotated 30 ]
         (Samples.viewerWith 50 Samples.uploadedUrl None 10 true)).
Proof.
  destruct (framing_happens_once
              [ MoreNotions.ZoomIn Samples.updateAtRest;
                MoreNotions.ModelReady Samples.updateWithin1000 Samples.unrotated 30 ]
              (Samples.viewerWith 50 Samples.uploadedUrl None 10 true)
              Samples.updateAtRest Samples.unrotated 20 eq_refl) as [_ [_ Hcamera]].
  exact Hcamera.
Defined.

(** X19: a result with a new model URL switches explode, colour and
    measurement modes off, empties the measurement buffer, turns auto-rotation
    on exactly for the default model and re-arms the framing: the next
    model-ready event of positive size sets the camera on the z axis at the
    framing distance of the new model and the target at the origin, and hands
    them to [controls.update()].  A result that repeats the current URL leaves
    a framed camera alone. *)
Theorem new_url_reframes :
  forall (update : ThreeCanvas.Update) (url : string) (v : ThreeCanvas.Viewer)
         (store : UIStore.State)
         (camera : ThreeCanvas.PerspectiveCamera)
         (controls : ThreeCanvas.OrbitControls)
         (model : ThreeCanvas.Model) (maxDim : R),
    ThreeCanvas.cameraControls v = Some (camera, controls) ->
    maxDim > 0 ->
    let loaded := ViewerControls.latestResultEffect (Some url) v store in
    UIStore.measurePoints (snd loaded) = []
    /\ UIStore.measureMode (snd loaded) = false
    /\ UIStore.colorMode (snd loaded) = false
    /\ UIStore.explodeMode (snd loaded) = false
    /\ (url <> ThreeCanvas.modelUrl v ->
        ThreeCanvas.autoRotate (fst loaded)
        = String.eqb url ViewerControls.defaultModelUrl
        /\ ThreeCanvas.initialCameraSet (fst loaded) = false
        /\ ThreeCanvas.cameraControls
             (ThreeCanvas.handleModelReady update model maxDim (fst loaded))
           = Some (update
                     ({| ThreeCanvas.camPosition :=
                           THREE.mkVector3 0 0
                             (ThreeCanvas.framingDistance maxDim (ThreeCanvas.fov camera)
                              * (if JS.includes url "V3_DIRT_BIKE_3"
                                 then 1.5 * 0.75 else 1.5));
                         ThreeCanvas.camUp := ThreeCanvas.camUp camera;
                         ThreeCanvas.fov := ThreeCanvas.fov camera |},
                      {| ThreeCanvas.target := THREE.mkVector3 0 0 0;
                         ThreeCanvas.ctlEnableDamping :=
                           ThreeCanvas.ctlEnableDamping controls;
                         ThreeCanvas.ctlAutoRotate :=
                           ThreeCanvas.ctlAutoRotate controls |})))
    /\ (url = ThreeCanvas.modelUrl v ->
        ThreeCanvas.initialCameraSet v = true ->
        ThreeCanvas.cameraControls
          (ThreeCanvas.handleModelReady update model maxDim (fst loaded))
        = Some (camera, controls)).
Proof.
  intros update url v store camera controls model maxDim Hcc Hdim loaded.
  unfold loaded, ViewerControls.latestResultEffect. cbv zeta. cbn [fst snd].
  repeat (split; [reflexivity |]).
  split.
  - intros Hnew.
    destruct (String.eqb url (ThreeCanvas.modelUrl v)) eqn:Hsame.
    { apply String.eqb_eq in Hsame. contradiction. }
    unfold ViewerControls.modelUrlEffect.
    cbn [ThreeCanvas.autoRotate ThreeCanvas.modelUrl ThreeCanvas.initialCameraSet].
    split; [reflexivity |]. split; [reflexivity |].
    unfold ThreeCanvas.handleModelReady.
    cbn [ThreeCanvas.cameraControls ThreeCanvas.initialCameraSet ThreeCanvas.modelUrl].
    rewrite Hcc.
    destruct (Rgt_dec maxDim 0) as [_ | Hno]; [| contradiction].
    cbn [andb negb ThreeCanvas.cameraControls]. reflexivity.
  - intros Hsame Hflag.
    apply String.eqb_eq in Hsame. rewrite Hsame.
    rewrite handleModelReady_framed.
    + cbn [ThreeCanvas.cameraControls]. exact Hcc.
    + cbn [ThreeCanvas.initialCameraSet]. exact Hflag.
Qed.

Lemma new_url_reframes_witness :
  UIStore.measurePoints
    (snd (ViewerControls.latestResultEffect (Some Samples.uploadedUrl)
            (Samples.viewerWith 50 Samples.defaultUrl None 10 true)
            (UIStore.addMeasurePoint (Samples.samplePoint 1)
               (UIStore.setMeasureMode true UIStore.initial))))
  = [].
Proof.
  destruct (new_url_reframes Samples.updateAtRest Samples.uploadedUrl
              (Samples.viewerWith 50 Samples.defaultUrl None 10 true)
              (UIStore.addMeasurePoint (Samples.samplePoint 1)
                 (UIStore.setMeasureMode true UIStore.initial))
              _ _ Samples.unrotated 10 eq_refl) as [Hpoints _].
  - lra.
  - exact Hpoints.
Defined.

(** ** The orientation cube: drags and face clicks *)

Section CubeProperties.

Import THREE ThreeCanvas OrientationCube.

Variable rect : Rect.

(** One pointer move of a running drag: the rotation moves with the
    pointer, so that rotation minus pointer position is conserved; the camera
    stays and a mounted model takes the rotation of the cube. *)
Lemma dragCube_conserves (e : PointerEvent) (d : Drag) (v : Viewer) :
  isDragging d = true ->
  let moved := dragCube rect e d v in
  isDragging (fst moved) = true
  /\ lastX (fst moved) = clientX e - left rect
  /\ lastY (fst moved) = clientY e - top rect
  /\ ex (cubeRotation (fst moved)) - lastY (fst moved) * 0.01
     = ex (cubeRotation d) - lastY d * 0.01
  /\ ey (cubeRotation (fst moved)) - lastX (fst moved) * 0.01
     = ey (cubeRotation d) - lastX d * 0.01
  /\ ez (cubeRotation (fst moved)) = ez (cubeRotation d)
  /\ cameraControls (snd moved) = cameraControls v
  /\ (mainModel v <> None ->
      mainModel (snd moved) = Some {| rotation := cubeRotation (fst moved) |}).
Proof.
  intros Hdrag moved. unfold moved, dragCube, onPointerMove.
  rewrite Hdrag. cbn [negb fst snd isDragging lastX lastY cubeRotation ex ey ez].
  repeat (split; [try reflexivity; lra |]).
  split.
  - unfold handleCubeRotate. destruct (mainModel v); reflexivity.
  - intros Hmodel. unfold handleCubeRotate.
    destruct (mainModel v) as [m |]; [| contradiction].
    reflexivity.
Qed.

Lemma drag_fold_conserves (moves : list PointerEvent) :
  forall (d : Drag) (v : Viewer),
    isDragging d = true ->
    let moved :=
      fold_left (fun acc e => dragCube rect e (fst acc) (snd acc)) moves (d, v) in
    isDragging (fst moved) = true
    /\ ex (cubeRotation (fst moved)) - lastY (fst moved) * 0.01
       = ex (cubeRotation d) - lastY d * 0.01
    /\ ey (cubeRotation (fst moved)) - lastX (fst moved) * 0.01
       = ey (cubeRotation d) - lastX d * 0.01
    /\ ez (cubeRotation (fst moved)) = ez (cubeRotation d)
    /\ cameraControls (snd moved) = cameraControls v
    /\ (mainModel v <> None -> mainModel (snd moved) <> None).
Proof.
  induction moves as [| e moves IH]; intros d v Hdrag.
  - cbn [fold_left fst snd]. repeat split; auto.
  - cbn [fold_left fst snd].
    destruct (dragCube_conserves e d v Hdrag)
      as [Hd [_ [_ [Hx [Hy [Hz [Hcam Hmodel]]]]]]].
    destruct (dragCube rect e d v) as [d1 v1] eqn:Hstep. cbn [fst snd] in *.
    destruct (IH d1 v1 Hd) as [Hd' [Hx' [Hy' [Hz' [Hcam' Hmodel']]]]].
    repeat split.
    + exact Hd'.
    + rewrite Hx'. exact Hx.
    + rewrite Hy'. exact Hy.
    + rewrite Hz'. exact Hz.
    + rewrite Hcam'. exact Hcam.
    + intros Hm. apply Hmodel'. rewrite (Hmodel Hm). discriminate.
Qed.

End CubeProperties.

(** X20: the rotation at the end of a drag of the cube depends only on
    where the pointer went down and where it is now, not on the path between:
    it is the rotation at pointer-down plus 0.01 radians per pixel, vertical
    travel about x and horizontal travel about y.  A mounted model ends with
    the rotation of the cube, and the camera is where it was. *)
Theorem cube_drag_depends_on_ends :
  forall (rect : OrientationCube.Rect)
         (start final : OrientationCube.PointerEvent)
         (moves : list OrientationCube.PointerEvent)
         (d : OrientationCube.Drag) (v : ThreeCanvas.Viewer),
    let dragged := CubeFaces.dragThrough rect start (moves ++ [final]) d v in
    let rotation0 := OrientationCube.cubeRotation d in
    let rotation' := OrientationCube.cubeRotation (fst dragged) in
    THREE.ex rotation'
    = THREE.ex rotation0
      + (OrientationCube.clientY final - OrientationCube.clientY start) * 0.01
    /\ THREE.ey rotation'
       = THREE.ey rotation0
         + (OrientationCube.clientX final - OrientationCube.clientX start) * 0.01
    /\ THREE.ez rotation' = THREE.ez rotation0
    /\ ThreeCanvas.cameraControls (snd dragged) = ThreeCanvas.cameraControls v
    /\ (ThreeCanvas.mainModel v <> None ->
        ThreeCanvas.mainModel (snd dragged)
        = Some {| ThreeCanvas.rotation := rotation' |}).
Proof.
  intros rect start final moves d v dragged rotation0 rotation'.
  unfold rotation', dragged, CubeFaces.dragThrough. clear rotation' dragged.
  rewrite fold_left_app. cbn [fold_left].
  pose proof (drag_fold_conserves rect moves
                (OrientationCube.onPointerDown rect start d) v eq_refl) as Hfold.
  cbv zeta in Hfold.
  destruct (fold_left
              (fun acc e => OrientationCube.dragCube rect e (fst acc) (snd acc))
              moves (OrientationCube.onPointerDown rect start d, v))
    as [d1 v1] eqn:Hmoves.
  cbn [fst snd] in *.
  destruct Hfold as [Hd [Hx [Hy [Hz [Hcam Hmodel]]]]].
  pose proof (dragCube_conserves rect final d1 v1 Hd) as Hlast.
  cbv zeta in Hlast.
  destruct (OrientationCube.dragCube rect final d1 v1) as [d2 v2] eqn:Hstep.
  cbn [fst snd] in *.
  destruct Hlast as [_ [Hlx [Hly [Hx2 [Hy2 [Hz2 [Hcam2 Hmodel2]]]]]]].
  cbn [OrientationCube.onPointerDown OrientationCube.lastX OrientationCube.lastY
       OrientationCube.cubeRotation] in Hx, Hy, Hz.
  fold rotation0 in Hx, Hy, Hz.
  repeat split.
  - lra.
  - lra.
  - rewrite Hz2. exact Hz.
  - rewrite Hcam2. exact Hcam.
  - intros Hm. apply Hmodel2. apply Hmodel. exact Hm.
Qed.

Lemma cube_drag_depends_on_ends_witness :
  ThreeCanvas.mainModel
    (snd (CubeFaces.dragThrough Samples.canvasRect (Samples.pointerAt 10 10)
            ([Samples.pointerAt 50 80] ++ [Samples.pointerAt 30 20])
            Samples.dragging
            (Samples.viewerWith 50 Samples.uploadedUrl (Some Samples.unrotated) 10 true)))
  = Some {| ThreeCanvas.rotation :=
              OrientationCube.cubeRotation
                (fst (CubeFaces.dragThrough Samples.canvasRect (Samples.pointerAt 10 10)
                        ([Samples.pointerAt 50 80] ++ [Samples.pointerAt 30 20])
                        Samples.dragging
                        (Samples.viewerWith 50 Samples.uploadedUrl
                           (Some Samples.unrotated) 10 true))) |}.
Proof.
  destruct (cube_drag_depends_on_ends Samples.canvasRect
              (Samples.pointerAt 10 10) (Samples.pointerAt 30 20)
              [Samples.pointerAt 50 80] Samples.dragging
              (Samples.viewerWith 50 Samples.uploadedUrl (Some Samples.unrotated) 10 true))
    as [_ [_ [_ [_ Hmodel]]]].
  apply Hmodel. discriminate.
Defined.

(** X21: a click on the cube asks for the view of the first face under the
    pointer, however often the central sphere is hit before it and whatever
    lies behind; the offset of that view, in the frame of the model, is the
    outward direction of the position the face has on the cube (with the small
    tilt along z for top and bottom), and the click sets the camera position
    to [target + rotated offset * view distance] before [controls.update()]
    runs on it.  A click that meets the sphere alone changes nothing. *)
Theorem cube_face_click_view :
  forall (update : ThreeCanvas.Update) (idx : nat) (pos : THREE.Vector3)
         (spheres : nat) (behind : list (option nat)) (v : ThreeCanvas.Viewer)
         (camera : ThreeCanvas.PerspectiveCamera)
         (controls : ThreeCanvas.OrbitControls),
    In (idx, pos) CubeFaces.faces ->
    ThreeCanvas.cameraControls v = Some (camera, controls) ->
    let tilt := if (idx =? 2)%nat || (idx =? 3)%nat then 0.0001 else 0 in
    let offset :=
      THREE.add (THREE.multiplyScalar pos (/ 0.51)) (THREE.mkVector3 0 0 tilt) in
    (exists up,
       ThreeCanvas.viewVectors (CubeFaces.faceView idx) = Some (offset, up)
       /\ ThreeCanvas.cameraControls
            (CubeFaces.clickCube update (repeat None spheres ++ Some idx :: behind) v)
          = Some (update
                    ({| ThreeCanvas.camPosition :=
                          THREE.add (ThreeCanvas.target controls)
                            (THREE.multiplyScalar
                               (THREE.applyQuaternion offset (ThreeCanvas.modelQuat v))
                               (ThreeCanvas.viewDistance v camera));
                        ThreeCanvas.camUp :=
                          THREE.applyQuaternion up (ThreeCanvas.modelQuat v);
                        ThreeCanvas.fov := ThreeCanvas.fov camera |},
                     {| ThreeCanvas.target := ThreeCanvas.target controls;
                        ThreeCanvas.ctlEnableDamping := false;
                        ThreeCanvas.ctlAutoRotate := false |})))
    /\ CubeFaces.clickCube update (repeat None spheres) v = v.
Proof.
  intros update idx pos spheres behind v camera controls Hface Hcc tilt offset.
  assert (Hview : exists up,
             ThreeCanvas.viewVectors (CubeFaces.faceView idx) = Some (offset, up)).
  { unfold offset, tilt. cbn [CubeFaces.faces In] in Hface.
    destruct Hface as [H | [H | [H | [H | [H | [H | []]]]]]];
      inversion H; subst idx pos; clear H;
      eexists; unfold CubeFaces.faceView; cbn [nth CubeFaces.faceMap];
      unfold ThreeCanvas.viewVectors;
      cbn [String.eqb Ascii.eqb Bool.eqb Nat.eqb orb];
      (apply f_equal; apply f_equal2; [| reflexivity]);
      vec_unfold; f_equal; lra. }
  assert (Hfind : forall rest,
             List.find (fun hit : option nat =>
                          match hit with Some _ => true | None => false end)
                       (repeat None spheres ++ rest)
             = List.find (fun hit : option nat =>
                            match hit with Some _ => true | None => false end)
                         rest).
  { intros rest. induction spheres as [| n IH]; [reflexivity |].
    cbn [repeat app List.find]. exact IH. }
  split.
  - destruct Hview as [up Hview]. exists up. split; [exact Hview |].
    unfold CubeFaces.clickCube, CubeFaces.onClick.
    rewrite Hfind. cbn [List.find].
    unfold ThreeCanvas.handleViewChange. rewrite Hcc, Hview. reflexivity.
  - unfold CubeFaces.clickCube, CubeFaces.onClick.
    rewrite <- (app_nil_r (repeat None spheres)). rewrite Hfind. reflexivity.
Qed.

Lemma cube_face_click_view_witness :
  exists up,
    ThreeCanvas.viewVectors (CubeFaces.faceView 2)
    = Some (THREE.add (THREE.multiplyScalar (THREE.mkVector3 0 0.51 0) (/ 0.51))
              (THREE.mkVector3 0 0 0.0001), up).
Proof.
  assert (Hface : In (2%nat, THREE.mkVector3 0 0.51 0) CubeFaces.faces).
  { cbn [CubeFaces.faces In]. right. right. left. reflexivity. }
  destruct (cube_face_click_view Samples.updateAtRest 2 (THREE.mkVector3 0 0.51 0) 1 []
              (Samples.viewerWith 50 Samples.uploadedUrl None 10 true) _ _
              Hface eq_refl) as [[up [Hview _]] _].
  exists up. exact Hview.
Defined.

(** ** Snapping twice *)

Section SnapAgain.

Import THREE ThreeCanvas MoreNotions.

Lemma distanceTo_zero (p q : Vector3) : distanceTo p q = 0 -> p = q.
Proof.
  intros Hzero. pose proof (distanceTo_square p q) as Hsq.
  rewrite Hzero in Hsq. unfold distanceToSquared in Hsq. cbv zeta in Hsq.
  destruct p as [px py pz], q as [qx qy qz]. cbn [x y z] in Hsq.
  pose proof (Rle_0_sqr (px - qx)) as Hx2. pose proof (Rle_0_sqr (py - qy)) as Hy2.
  pose proof (Rle_0_sqr (pz - qz)) as Hz2. unfold Rsqr in Hx2, Hy2, Hz2.
  assert (Hx : px - qx = 0) by (apply Rsqr_0_uniq; unfold Rsqr; lra).
  assert (Hy : py - qy = 0) by (apply Rsqr_0_uniq; unfold Rsqr; lra).
  assert (Hz : pz - qz = 0) by (apply Rsqr_0_uniq; unfold Rsqr; lra).
  f_equal; lra.
Qed.

Lemma clamp_range (t : R) : 0 <= clamp t 0 1 <= 1.
Proof.
  unfold clamp. split.
  - apply Rmax_l.
  - apply Rmax_lub; [lra | apply Rmin_l].
Qed.

(** A point of a segment is its own nearest point on the segment. *)
Lemma closest_of_segment_point (v1 v2 : Vector3) (t : R) :
  0 <= t <= 1 ->
  closestPointToPoint v1 v2 (add (multiplyScalar (subVectors v2 v1) t) v1) true
  = add (multiplyScalar (subVectors v2 v1) t) v1.
Proof.
  intros Ht. unfold closestPointToPoint, closestPointToPointParameter. cbv zeta.
  assert (Hdot : dot (subVectors v2 v1)
                     (subVectors (add (multiplyScalar (subVectors v2 v1) t) v1) v1)
                 = t * dot (subVectors v2 v1) (subVectors v2 v1)).
  { vec_unfold. ring. }
  rewrite Hdot.
  destruct (Req_dec (dot (subVectors v2 v1) (subVectors v2 v1)) 0) as [Hnull | Hlong].
  - rewrite Hnull. revert Hnull. vec_unfold. intros Hnull.
    pose proof (Rle_0_sqr (x v2 - x v1)) as Hx2.
    pose proof (Rle_0_sqr (y v2 - y v1)) as Hy2.
    pose proof (Rle_0_sqr (z v2 - z v1)) as Hz2. unfold Rsqr in Hx2, Hy2, Hz2.
    assert (Hx : x v2 - x v1 = 0) by (apply Rsqr_0_uniq; unfold Rsqr; lra).
    assert (Hy : y v2 - y v1 = 0) by (apply Rsqr_0_uniq; unfold Rsqr; lra).
    assert (Hz : z v2 - z v1 = 0) by (apply Rsqr_0_uniq; unfold Rsqr; lra).
    rewrite Hx, Hy, Hz. f_equal; ring.
  - replace (t * dot (subVectors v2 v1) (subVectors v2 v1)
             / dot (subVectors v2 v1) (subVectors v2 v1)) with t
      by (field; exact Hlong).
    rewrite (clamp_inside t Ht). reflexivity.
Qed.

Lemma closest_fixed (v1 v2 pt : Vector3) :
  closestPointToPoint v1 v2 (closestPointToPoint v1 v2 pt true) true
  = closestPointToPoint v1 v2 pt true.
Proof.
  change (closestPointToPoint v1 v2 pt true)
    with (add (multiplyScalar (subVectors v2 v1)
                 (closestPointToPointParameter v1 v2 pt true)) v1).
  apply closest_of_segment_point.
  unfold closestPointToPointParameter. cbv zeta. apply clamp_range.
Qed.

Variable pt : Vector3.

Lemma checkVertex_reaches_zero (acc : option R * Vector3) (v : Vector3) :
  distanceTo v pt = 0 ->
  match fst acc with None => True | Some m => 0 <= m end ->
  fst (checkVertex pt acc v) = Some 0.
Proof.
  intros Hzero Hacc. unfold checkVertex, ltMin. cbv zeta. rewrite Hzero.
  destruct (fst acc) as [m |] eqn:Hm; [| reflexivity].
  destruct (Rlt_dec 0 m) as [_ | Hge]; [reflexivity |].
  rewrite Hm. f_equal. lra.
Qed.

Lemma checkVertex_keeps_nonneg (acc : option R * Vector3) (v : Vector3) :
  match fst acc with None => True | Some m => 0 <= m end ->
  match fst (checkVertex pt acc v) with None => True | Some m => 0 <= m end.
Proof.
  intros Hacc. unfold checkVertex. cbv zeta.
  destruct (ltMin (distanceTo v pt) (fst acc)); [| exact Hacc].
  cbn [fst]. apply distanceTo_nonneg.
Qed.

Lemma checkVertex_keeps_zero (acc : option R * Vector3) (v : Vector3) :
  fst acc = Some 0 -> fst (checkVertex pt acc v) = Some 0.
Proof.
  intros Hacc. unfold checkVertex, ltMin. cbv zeta. rewrite Hacc.
  pose proof (distanceTo_nonneg v pt) as Hd.
  destruct (Rlt_dec (distanceTo v pt) 0) as [Hlt | _]; [lra | exact Hacc].
Qed.

Lemma checkEdge_reaches_zero (acc : option R * Vector3) (edge : Vector3 * Vector3) :
  closestPointToPoint (fst edge) (snd edge) pt true = pt ->
  match fst acc with None => True | Some m => 0 <= m end ->
  fst (checkEdge pt acc edge) = Some 0.
Proof.
  intros Hfixed Hacc. unfold checkEdge. cbv zeta. rewrite Hfixed.
  assert (Hself : distanceTo pt pt = 0).
  { unfold distanceTo, distanceToSquared. cbv zeta.
    replace ((x pt - x pt) * (x pt - x pt) + (y pt - y pt) * (y pt - y pt)
             + (z pt - z pt) * (z pt - z pt)) with 0 by ring.
    apply sqrt_0. }
  rewrite Hself.
  destruct (fst acc) as [m |] eqn:Hm; [| reflexivity].
  destruct (Rlt_dec 0 (m * 0.9)) as [_ | Hge]; [reflexivity |].
  rewrite Hm. f_equal. lra.
Qed.

Lemma checkEdge_keeps_nonneg (acc : option R * Vector3) (edge : Vector3 * Vector3) :
  match fst acc with None => True | Some m => 0 <= m end ->
  match fst (checkEdge pt acc edge) with None => True | Some m => 0 <= m end.
Proof.
  intros Hacc. unfold checkEdge. cbv zeta.
  destruct (fst acc) as [m |] eqn:Hm.
  - destruct (Rlt_dec _ (m * 0.9)).
    + cbn [fst]. apply distanceTo_nonneg.
    + rewrite Hm. exact Hacc.
  - cbn [fst]. apply distanceTo_nonneg.
Qed.

Lemma checkEdge_keeps_zero (acc : option R * Vector3) (edge : Vector3 * Vector3) :
  fst acc = Some 0 -> fst (checkEdge pt acc edge) = Some 0.
Proof.
  intros Hacc. unfold checkEdge. cbv zeta. rewrite Hacc.
  pose proof (distanceTo_nonneg
                (closestPointToPoint (fst edge) (snd edge) pt true) pt) as Hd.
  destruct (Rlt_dec _ (0 * 0.9)) as [Hlt | _]; [lra | exact Hacc].
Qed.

(** From a point that is a vertex of the triangle, or its own nearest
    point on an edge, the best feature is at distance zero. *)
Lemma snapCandidate_zero (fc : Face) (obj : Object3D) :
  let vA := localToWorld obj (fromBufferAttribute obj (a fc)) in
  let vB := localToWorld obj (fromBufferAttribute obj (b fc)) in
  let vC := localToWorld obj (fromBufferAttribute obj (c fc)) in
  vA = pt \/ vB = pt \/ vC = pt
  \/ closestPointToPoint vA vB pt true = pt
  \/ closestPointToPoint vB vC pt true = pt
  \/ closestPointToPoint vC vA pt true = pt ->
  fst (snapCandidate fc obj pt) = Some 0.
Proof.
  intros vA vB vC Hfeature. unfold snapCandidate. cbv zeta. fold vA vB vC.
  cbn [fold_left].
  assert (Hself : forall v, v = pt -> distanceTo v pt = 0).
  { intros v ->. unfold distanceTo, distanceToSquared. cbv zeta.
    replace ((x pt - x pt) * (x pt - x pt) + (y pt - y pt) * (y pt - y pt)
             + (z pt - z pt) * (z pt - z pt)) with 0 by ring.
    apply sqrt_0. }
  destruct Hfeature as [H | [H | [H | [H | [H | H]]]]].
  - do 3 apply checkEdge_keeps_zero. do 2 apply checkVertex_keeps_zero.
    apply checkVertex_reaches_zero; [apply Hself; exact H | exact I].
  - do 3 apply checkEdge_keeps_zero. apply checkVertex_keeps_zero.
    apply checkVertex_reaches_zero; [apply Hself; exact H |].
    apply checkVertex_keeps_nonneg. exact I.
  - do 3 apply checkEdge_keeps_zero.
    apply checkVertex_reaches_zero; [apply Hself; exact H |].
    do 2 apply checkVertex_keeps_nonneg. exact I.
  - do 2 apply checkEdge_keeps_zero.
    apply checkEdge_reaches_zero; [exact H |].
    do 3 apply checkVertex_keeps_nonneg. exact I.
  - apply checkEdge_keeps_zero.
    apply checkEdge_reaches_zero; [exact H |].
    apply checkEdge_keeps_nonneg. do 3 apply checkVertex_keeps_nonneg. exact I.
  - apply checkEdge_reaches_zero; [exact H |].
    do 2 apply checkEdge_keeps_nonneg. do 3 apply checkVertex_keeps_nonneg. exact I.
Qed.

End SnapAgain.

(** X22: snapping is idempotent: a point returned by [snapToFeature], put
    back as the hit point on the same face of the same object and seen by the
    same camera, is returned as it is. *)
Theorem snapToFeature_idempotent :
  forall (intersect : ThreeCanvas.ThreeEvent) (cam : ThreeCanvas.PerspectiveCamera),
    let snapped := ThreeCanvas.snapToFeature intersect cam in
    ThreeCanvas.snapToFeature
      {| ThreeCanvas.point := snapped;
         ThreeCanvas.face := ThreeCanvas.face intersect;
         ThreeCanvas.object := ThreeCanvas.object intersect;
         ThreeCanvas.button := ThreeCanvas.button intersect |} cam
    = snapped.
Proof.
  intros [pt [fc |] [obj |] btn] cam snapped; unfold snapped;
    try reflexivity.
  unfold ThreeCanvas.snapToFeature.
  cbn [ThreeCanvas.face ThreeCanvas.object ThreeCanvas.point ThreeCanvas.button].
  pose proof (snapCandidate_pair fc obj pt) as Hpair.
  destruct (ThreeCanvas.snapCandidate fc obj pt) as [[m |] closest] eqn:Hcand.
  - destruct (Rlt_dec m (ThreeCanvas.snapThreshold cam pt)) as [Hlt | Hge].
    + destruct Hpair as [Hin _]. cbn [snd] in Hin.
      pose proof (snapCandidate_pair fc obj closest) as Hpair'.
      assert (Hzero : fst (ThreeCanvas.snapCandidate fc obj closest) = Some 0).
      { apply snapCandidate_zero.
        unfold MoreNotions.candidatePoints in Hin. cbv zeta in Hin.
        cbn [In] in Hin.
        destruct Hin as [H | [H | [H | [H | [H | [H | []]]]]]].
        - left. exact H.
        - right. left. exact H.
        - right. right. left. exact H.
        - right. right. right. left. rewrite <- H. apply closest_fixed.
        - right. right. right. right. left. rewrite <- H. apply closest_fixed.
        - right. right. right. right. right. rewrite <- H. apply closest_fixed. }
      destruct (ThreeCanvas.snapCandidate fc obj closest) as [m' closest'].
      cbn [fst snd] in *. subst m'. unfold MoreNotions.snapPairOk in Hpair'.
      cbn [fst snd] in Hpair'. destruct Hpair' as [_ Hdist].
      apply distanceTo_zero in Hdist. subst closest'.
      destruct (Rlt_dec 0 (ThreeCanvas.snapThreshold cam closest)); reflexivity.
    + rewrite Hcand.
      destruct (Rlt_dec m (ThreeCanvas.snapThreshold cam pt)) as [Hlt | _];
        [contradiction | reflexivity].
  - rewrite Hcand. reflexivity.
Qed.

(** ** The diameter label and the sides of the triangle *)

Section DiameterProperties.

Import THREE ThreeCanvas.

(** Heron's area is at most half the product of any two sides. *)
Lemma heronArea_below_products (la lb lc : R) :
  0 <= la -> 0 <= lb -> 0 <= lc ->
  heronArea la lb lc <= lb * lc / 2
  /\ heronArea la lb lc <= la * lc / 2
  /\ heronArea la lb lc <= la * lb / 2.
Proof.
  intros Ha Hb Hc. unfold heronArea. cbv zeta.
  set (radicand := (la + lb + lc) / 2 * ((la + lb + lc) / 2 - la)
                   * ((la + lb + lc) / 2 - lb) * ((la + lb + lc) / 2 - lc)).
  assert (Hbound : forall p q r,
             0 <= p -> 0 <= q ->
             radicand = (p * q / 2) * (p * q / 2)
                        - ((p * p + q * q - r * r) / 4) * ((p * p + q * q - r * r) / 4) ->
             sqrt radicand <= p * q / 2).
  { intros p q r Hp Hq Heq.
    rewrite <- (sqrt_square (p * q / 2)) by nra.
    apply sqrt_le_1_alt. rewrite Heq.
    pose proof (Rle_0_sqr ((p * p + q * q - r * r) / 4)) as Hsq.
    unfold Rsqr in Hsq. lra. }
  split; [| split].
  - apply (Hbound lb lc la Hb Hc). unfold radicand. field.
  - apply (Hbound la lc lb Ha Hc). unfold radicand. field.
  - apply (Hbound la lb lc Ha Hb). unfold radicand. field.
Qed.

End DiameterProperties.

(** X23: when three points carry a diameter label, the diameter it shows
    (before rounding) is at least each of the three distances between the
    points: no side of the triangle is longer than the circle through its
    corners is wide. *)
Theorem shown_diameter_bounds_sides :
  forall (p1 p2 p3 : THREE.Vector3),
    ThreeCanvas.heronArea (THREE.distanceTo p1 p2) (THREE.distanceTo p2 p3)
      (THREE.distanceTo p3 p1) > 0.0001 ->
    ThreeCanvas.diameterLabels p1 p2 p3
    = [ {| ThreeCanvas.pos := THREE.divideScalar (THREE.add (THREE.add p1 p2) p3) 3;
           ThreeCanvas.text :=
             ("⌀ " ++ JS.toFixed2 (MoreNotions.shownDiameter p1 p2 p3))%string;
           ThreeCanvas.subText := None |} ]
    /\ THREE.distanceTo p1 p2 <= MoreNotions.shownDiameter p1 p2 p3
    /\ THREE.distanceTo p2 p3 <= MoreNotions.shownDiameter p1 p2 p3
    /\ THREE.distanceTo p3 p1 <= MoreNotions.shownDiameter p1 p2 p3.
Proof.
  intros p1 p2 p3 Harea. split.
  - unfold ThreeCanvas.diameterLabels. cbv zeta.
    destruct (Rgt_dec _ 0.0001) as [_ | Hno]; [reflexivity | contradiction].
  - unfold MoreNotions.shownDiameter. cbv zeta.
    pose proof (distanceTo_nonneg p1 p2) as Ha.
    pose proof (distanceTo_nonneg p2 p3) as Hb.
    pose proof (distanceTo_nonneg p3 p1) as Hc.
    destruct (heronArea_below_products _ _ _ Ha Hb Hc) as [Hbc [Hac Hab]].
    set (la := THREE.distanceTo p1 p2) in *.
    set (lb := THREE.distanceTo p2 p3) in *.
    set (lc := THREE.distanceTo p3 p1) in *.
    set (area := ThreeCanvas.heronArea la lb lc) in *.
    assert (Hpos : 0 < area) by lra.
    assert (Hdiam : la * lb * lc / (4 * area) * 2 * area = la * lb * lc / 2).
    { field. lra. }
    repeat split; apply Rmult_le_reg_r with area; try exact Hpos;
      rewrite Hdiam; nra.
Qed.

Lemma shown_diameter_bounds_sides_witness :
  THREE.distanceTo (THREE.mkVector3 0 0 0) (THREE.mkVector3 3 0 0)
  <= MoreNotions.shownDiameter (THREE.mkVector3 0 0 0) (THREE.mkVector3 3 0 0)
       (THREE.mkVector3 0 4 0).
Proof.
  destruct (shown_diameter_bounds_sides (THREE.mkVector3 0 0 0) (THREE.mkVector3 3 0 0)
              (THREE.mkVector3 0 4 0)) as [_ [Hside _]].
  - assert (Ha : THREE.distanceTo (THREE.mkVector3 0 0 0) (THREE.mkVector3 3 0 0) = 3).
    { apply distanceTo_exact; [lra | vec_unfold; ring]. }
    assert (Hb : THREE.distanceTo (THREE.mkVector3 3 0 0) (THREE.mkVector3 0 4 0) = 5).
    { apply distanceTo_exact; [lra | vec_unfold; ring]. }
    assert (Hc : THREE.distanceTo (THREE.mkVector3 0 4 0) (THREE.mkVector3 0 0 0) = 4).
    { apply distanceTo_exact; [lra | vec_unfold; ring]. }
    rewrite Ha, Hb, Hc. unfold ThreeCanvas.heronArea. cbv zeta.
    replace ((3 + 5 + 4) / 2 * ((3 + 5 + 4) / 2 - 3) * ((3 + 5 + 4) / 2 - 5)
             * ((3 + 5 + 4) / 2 - 4)) with (6 * 6) by field.
    rewrite sqrt_square by lra. lra.
  - exact Hside.
Defined.

(** X24: the label of two points shows the same distance at the same place
    whichever of the two was picked first; only the face distance, taken
    along the normal of the first pick, can depend on the order. *)
Theorem distance_label_symmetric :
  forall (m1 m2 : UIStore.MeasurePoint),
    ThreeCanvas.pos (ThreeCanvas.distanceLabel m1 m2)
    = ThreeCanvas.pos (ThreeCanvas.distanceLabel m2 m1)
    /\ ThreeCanvas.text (ThreeCanvas.distanceLabel m1 m2)
       = ThreeCanvas.text (ThreeCanvas.distanceLabel m2 m1)
    /\ ThreeCanvas.labels [m1; m2] = [ThreeCanvas.distanceLabel m1 m2].
Proof.
  intros m1 m2. unfold ThreeCanvas.distanceLabel. cbv zeta.
  cbn [ThreeCanvas.pos ThreeCanvas.text ThreeCanvas.labels].
  split; [| split].
  - vec_unfold. f_equal; ring.
  - assert (Hsym : THREE.distanceTo (UIStore.point m1) (UIStore.point m2)
                   = THREE.distanceTo (UIStore.point m2) (UIStore.point m1)).
    { unfold THREE.distanceTo. f_equal. vec_unfold. ring. }
    rewrite Hsym. reflexivity.
  - reflexivity.
Qed.

(** ** The hash colour *)

(** X25: the colour of a part in colour mode has saturation 0.7, lightness
    0.5 and a hue that is a whole number of 360ths in [0, 1): whatever the
    identifier, it is one of 360 colours. *)
Theorem hash_color_hue_range :
  forall (setHSL : R -> R -> R -> THREE.Color) (str : string),
    exists k : Z,
      (0 <= k < 360)%Z
      /\ ThreeCanvas.getHashColor setHSL str = setHSL (IZR k / 360) 0.7 0.5
      /\ 0 <= IZR k / 360 < 1.
Proof.
  intros setHSL str. unfold ThreeCanvas.getHashColor. cbv zeta.
  set (hash := fold_left ThreeCanvas.hashStep (JS.charCodes str) 0%Z).
  assert (Hrange : (0 <= Z.abs (Z.rem hash 360) < 360)%Z).
  { split; [apply Z.abs_nonneg |].
    pose proof (Z.rem_bound_abs hash 360) as Hbound.
    assert (H360 : (360 <> 0)%Z) by discriminate.
    specialize (Hbound H360). rewrite (Z.abs_eq 360) in Hbound by discriminate.
    exact Hbound. }
  exists (Z.abs (Z.rem hash 360)).
  split; [exact Hrange |]. split; [reflexivity |].
  destruct Hrange as [Hlow Hup].
  apply IZR_le in Hlow. apply IZR_lt in Hup. lra.
Qed.

(** ** The shape registry *)

(** X26: a shape registered under a type is the one found under that type,
    replacing what was registered there before, and the registration leaves
    what is found under every other type as it was. *)
Theorem registered_shape_is_found :
  forall (Component : Type) (type : string) (component : Component)
         (registry registry' : gmap string Component),
    ShapeRegistry.registerShape Component type component registry = Some registry' ->
    ShapeRegistry.getShapeComponent Component type registry'
    = Some (ShapeRegistry.Registered Component component)
    /\ forall other,
         other <> type ->
         ShapeRegistry.getShapeComponent Component other registry'
         = ShapeRegistry.getShapeComponent Component other registry.
Proof.
  intros Component type component registry registry' Hreg.
  unfold ShapeRegistry.registerShape in Hreg.
  destruct (String.eqb type "__proto__"); [discriminate |].
  injection Hreg as <-. unfold ShapeRegistry.getShapeComponent. split.
  - rewrite lookup_insert_eq. reflexivity.
  - intros other Hother. rewrite lookup_insert_ne by congruence. reflexivity.
Qed.

Lemma registered_shape_is_found_witness :
  ShapeRegistry.getShapeComponent nat "box" (<["box"%string := 7%nat]> ∅)
  = Some (ShapeRegistry.Registered nat 7%nat).
Proof.
  destruct (registered_shape_is_found nat "box" 7%nat ∅ (<["box"%string := 7%nat]> ∅)
              eq_refl) as [Hfound _].
  exact Hfound.
Defined.
